(** * pycohortflow: a shallow embedding of [cfd_util.py] and [cfd.py]

    The development follows the two source modules of the package:

    - [Py]       the fragment of the Python runtime the package relies on
                 (exceptions, [str] methods, [int(s, 16)], [format], [round],
                 binary64 floats);
    - [CfdUtil]  [cfd_util.py]: colour helpers, [wrap_lines] over a model of
                 [textwrap.wrap], and the configuration merge;
    - [Cfd]      [cfd.py]: the node processor and the layout engine of
                 [plot_cohort_flow_diagram], up to the point where drawing is
                 handed to Matplotlib; the drawing loop itself, as the list
                 of artists it adds to the axes, and [save_figure], as the
                 list of its effects, follow the statement vocabulary;
    - [Samples]  a small colour parser, a word splitter and the white style,
                 to run the model on the inputs of the package's tests.

    Python exceptions are modelled by an error monad, dictionaries by
    insertion-ordered association lists, and numbers of the style document by
    an interface [PyNum] whose instance [float_num] is IEEE binary64, what
    CPython computes with.  Matplotlib's colour parser and the regular
    expression of [textwrap] are interfaces ([MplColors], [WordSep]).

    The definitions come first; the properties follow, grouped by function:
    hex colours, colour resolution, gradients, the node processor and its
    ordering check, exclusion text and palette overrides, text wrapping, the
    layout engine, the configuration merge; then further properties of the
    colour helpers, the merge and the style loader, wrapping, the diagram,
    the drawing step, colour errors and saving. *)

From Stdlib Require Import ZArith String Ascii List Lia Bool.
From Stdlib Require Import DecimalString.
From Stdlib Require Import Floats.
Import ListNotations.

Set Warnings "-inexact-float,-register-all".

Local Open Scope string_scope.
Local Open Scope Z_scope.

(* ===================================================================== *)
(** * The Python runtime fragment                                          *)
(* ===================================================================== *)

Module Py.

(** Exceptions raised by the modelled code.  Only [ValueError] carries its
    message: the claims speak about what the messages contain. *)
Inductive exn : Type :=
| ValueError (msg : string)
| TypeError
| IndexError
| KeyError
| AttributeError
| OverflowError.

Inductive result (A : Type) : Type :=
| Ok (a : A)
| Raise (e : exn).

Arguments Ok {A} a.
Arguments Raise {A} e.

Definition bind {A B : Type} (r : result A) (k : A -> result B) : result B :=
  match r with
  | Ok a => k a
  | Raise e => Raise e
  end.

Declare Scope py_scope.
Delimit Scope py_scope with py.
Notation "x <- c ;; k" := (bind c (fun x => k))
  (at level 61, c at next level, right associativity) : py_scope.
Notation "' p <- c ;; k" := (bind c (fun x => let p := x in k))
  (at level 61, p pattern, c at next level, right associativity) : py_scope.

(** [[f(x) for x in xs]] where [f] may raise: left to right, first error wins. *)
Fixpoint mapM {A B : Type} (f : A -> result B) (xs : list A) : result (list B) :=
  match xs with
  | [] => Ok []
  | x :: xs' =>
      match f x with
      | Ok y => match mapM f xs' with
                | Ok ys => Ok (y :: ys)
                | Raise e => Raise e
                end
      | Raise e => Raise e
      end
  end.

(** [xs[i]] for a non-negative index [i]. *)
Definition getitem {A : Type} (xs : list A) (i : nat) : result A :=
  match nth_error xs i with
  | Some x => Ok x
  | None => Raise IndexError
  end.

(** [xs[-1]]. *)
Definition getlast {A : Type} (xs : list A) : result A :=
  match rev xs with
  | x :: _ => Ok x
  | [] => Raise IndexError
  end.

(** [range(lo, hi)] as a list of naturals. *)
Definition range (lo hi : nat) : list nat := seq lo (hi - lo).

(** ** Strings *)

(** [str(n)] / [f"{n}"] for an [int]. *)
Definition str_of_int (n : Z) : string := NilEmpty.string_of_int (Z.to_int n).

(** [len(s)] as an integer. *)
Definition len (s : string) : Z := Z.of_nat (String.length s).

(** [ch.isspace()] on the Latin-1 range: TAB..CR, FS..US, SPACE, NEL, NBSP. *)
Definition isspace (c : ascii) : bool :=
  let n := N.to_nat (N_of_ascii c) in
  ((9 <=? n) && (n <=? 13) || (28 <=? n) && (n <=? 32)
   || (n =? 133) || (n =? 160))%nat.

(** [s.lstrip()] *)
Fixpoint lstrip (s : string) : string :=
  match s with
  | String c s' => if isspace c then lstrip s' else s
  | EmptyString => EmptyString
  end.

(** [s.rstrip()] *)
Fixpoint rstrip (s : string) : string :=
  match s with
  | String c s' =>
      match rstrip s' with
      | EmptyString => if isspace c then EmptyString else String c EmptyString
      | r => String c r
      end
  | EmptyString => EmptyString
  end.

(** [s.strip()] *)
Definition strip (s : string) : string := rstrip (lstrip s).

(** [s.lstrip(ch)] for a one-character argument. *)
Fixpoint lstrip_char (ch : ascii) (s : string) : string :=
  match s with
  | String c s' => if Ascii.eqb c ch then lstrip_char ch s' else s
  | EmptyString => EmptyString
  end.

(** [s.startswith(p)] *)
Definition startswith (s p : string) : bool := String.prefix p s.

(** [s[a:b]] for [0 <= a <= b]. *)
Definition slice (s : string) (a b : nat) : string := substring a (b - a) s.

(** [''.join(parts)] *)
Definition join (parts : list string) : string := String.concat "" parts.

(** [sub in s], as a proposition. *)
Definition occurs_in (sub s : string) : Prop :=
  exists pre post, s = pre ++ sub ++ post.

(** [sub in s], executable. *)
Fixpoint contains (s sub : string) : bool :=
  String.prefix sub s
  || match s with
     | String _ s' => contains s' sub
     | EmptyString => false
     end.

(** ** [int(s, 16)] *)

Definition hex_digit_value (c : ascii) : option Z :=
  let n := Z.of_N (N_of_ascii c) in
  if (48 <=? n) && (n <=? 57) then Some (n - 48)
  else if (97 <=? n) && (n <=? 102) then Some (n - 87)
  else if (65 <=? n) && (n <=? 70) then Some (n - 55)
  else None.

Definition is_hex_digit (c : ascii) : bool :=
  match hex_digit_value c with Some _ => true | None => false end.

(** Digits of an integer literal: a digit, then digits each optionally
    preceded by one underscore.  [acc] is the value read so far; [need] says
    that a digit must come next (at the start and after an underscore). *)
Fixpoint hex_digits (acc : Z) (need : bool) (s : string) : option Z :=
  match s with
  | EmptyString => if need then None else Some acc
  | String c s' =>
      if Ascii.eqb c "_" then (if need then None else hex_digits acc true s')
      else match hex_digit_value c with
           | Some d => hex_digits (16 * acc + d) false s'
           | None => None
           end
  end.

(** The whitespace [int()] skips around a literal: the ASCII whitespace of
    C (TAB..CR and SPACE) and the Unicode spaces above U+007E, which are NEL
    and NBSP on the Latin-1 range.  The separators FS..US, which
    [str.isspace] accepts, are not skipped. *)
Definition is_int_space (c : ascii) : bool :=
  let n := N.to_nat (N_of_ascii c) in
  ((9 <=? n) && (n <=? 13) || (n =? 32) || (n =? 133) || (n =? 160))%nat.

Fixpoint int_lstrip (s : string) : string :=
  match s with
  | String c s' => if is_int_space c then int_lstrip s' else s
  | EmptyString => EmptyString
  end.

Fixpoint int_rstrip (s : string) : string :=
  match s with
  | String c s' =>
      match int_rstrip s' with
      | EmptyString =>
          if is_int_space c then EmptyString else String c EmptyString
      | rest => String c rest
      end
  | EmptyString => EmptyString
  end.

(** ** [repr(s)] *)

(** The double quote, character 34. *)
Definition dquote : ascii := "034"%char.

Definition squote : ascii := "'"%char.

Fixpoint has_char (ch : ascii) (s : string) : bool :=
  match s with
  | String c s' => Ascii.eqb c ch || has_char ch s'
  | EmptyString => false
  end.

(** The quote [repr] encloses [s] in: apostrophes, unless [s] holds an
    apostrophe and no double quote. *)
Definition repr_quote (s : string) : ascii :=
  if has_char squote s && negb (has_char dquote s) then dquote else squote.

Definition hex_nibble (d : N) : ascii :=
  if (d <? 10)%N then ascii_of_N (48 + d) else ascii_of_N (87 + d).

(** One character of [repr(s)] on the Latin-1 range: the quote and the
    backslash are escaped, TAB, LF and CR have their letters, and the
    characters that are not printable (C0 and C1 controls, DEL, NBSP and the
    soft hyphen) are written [\xNN]. *)
Definition repr_char (quote c : ascii) : string :=
  let n := N_of_ascii c in
  let backslash := "\"%char in
  if Ascii.eqb c quote || Ascii.eqb c backslash
  then String backslash (String c EmptyString)
  else if (n =? 9)%N then String backslash "t"
  else if (n =? 10)%N then String backslash "n"
  else if (n =? 13)%N then String backslash "r"
  else if ((n <? 32) || (n =? 127) || (128 <=? n) && (n <=? 160)
           || (n =? 173))%N
  then String backslash
         (String "x" (String (hex_nibble (n / 16))
                        (String (hex_nibble (n mod 16)) EmptyString)))
  else String c EmptyString.

Fixpoint repr_body (quote : ascii) (s : string) : string :=
  match s with
  | String c s' => repr_char quote c ++ repr_body quote s'
  | EmptyString => EmptyString
  end.

(** [repr(s)] for a [str]. *)
Definition repr (s : string) : string :=
  let quote := repr_quote s in
  String quote (repr_body quote s ++ String quote EmptyString).

(** The error of [int(s, 16)]: CPython formats the literal with [%.200R],
    its [repr] cut after 200 characters. *)
Definition invalid_literal (s : string) : exn :=
  ValueError ("invalid literal for int() with base 16: "
              ++ substring 0 200 (repr s)).

(** [int(s, 16)] for a [str] of Latin-1 characters: surrounding whitespace,
    an optional sign, an optional [0x] prefix with at most one underscore
    after it, then digits; anything else raises [ValueError]. *)
Definition int16 (s : string) : result Z :=
  let body := int_rstrip (int_lstrip s) in
  let '(sign, unsigned) :=
    match body with
    | String "+" r => (1, r)
    | String "-" r => (-1, r)
    | _ => (1, body)
    end in
  let parsed :=
    match unsigned with
    | String "0" (String x r) =>
        if Ascii.eqb x "x" || Ascii.eqb x "X" then
          match r with
          | String "_" r' => hex_digits 0 true r'
          | EmptyString => None
          | _ => hex_digits 0 true r
          end
        else hex_digits 0 true unsigned
    | _ => hex_digits 0 true unsigned
    end in
  match parsed with
  | Some v => Ok (sign * v)
  | None => Raise (invalid_literal s)
  end.

(** ** [format(n, "02x")] *)

Definition hex_char (d : Z) : ascii :=
  if d <? 10 then ascii_of_N (Z.to_N (48 + d)) else ascii_of_N (Z.to_N (87 + d)).

(** Lowercase hexadecimal digits of a positive number, most significant first
    ([fuel] bounds the number of digits). *)
Fixpoint hex_of_pos (fuel : nat) (n : Z) (acc : string) : string :=
  match fuel with
  | O => acc
  | S fuel' =>
      let acc' := String (hex_char (n mod 16)) acc in
      if n / 16 =? 0 then acc' else hex_of_pos fuel' (n / 16) acc'
  end.

Definition hex_of_nonneg (n : Z) : string :=
  hex_of_pos (S (Z.to_nat (Z.log2 n))) n EmptyString.

(** ["{:02x}".format(n)]: sign-aware zero padding to width two. *)
Definition format_02x (n : Z) : string :=
  if n <? 0 then "-" ++ hex_of_nonneg (- n)
  else let h := hex_of_nonneg n in
       if (String.length h <? 2)%nat then "0" ++ h else h.

(** [s.lower()] on ASCII letters. *)
Definition lower_char (c : ascii) : ascii :=
  let n := N_of_ascii c in
  if ((65 <=? n) && (n <=? 90))%N then ascii_of_N (n + 32) else c.

Fixpoint lower (s : string) : string :=
  match s with
  | String c s' => String (lower_char c) (lower s')
  | EmptyString => EmptyString
  end.

(** ** Binary64 floats *)

(** [float(n)] for an [int]: the nearest double, ties to even;
    [OverflowError] beyond the range of doubles. *)
Definition float_of_int (n : Z) : result float :=
  let f := SF2Prim (binary_normalize prec emax n 0 false) in
  if PrimFloat.is_infinity f then Raise OverflowError else Ok f.

(** Nearest integer to [m * 2^e], ties to the even neighbour. *)
Definition round_half_even (m e : Z) : Z :=
  if 0 <=? e then m * 2 ^ e
  else
    let d := 2 ^ (- e) in
    let q := m / d in
    let r := m mod d in
    if 2 * r <? d then q
    else if d <? 2 * r then q + 1
    else if Z.even q then q else q + 1.

(** [round(x)] for a [float] (no [ndigits]): an [int], ties to even. *)
Definition round (x : float) : result Z :=
  match Prim2SF x with
  | S754_zero _ => Ok 0
  | S754_infinity _ => Raise OverflowError
  | S754_nan => Raise (ValueError "cannot convert float NaN to integer")
  | S754_finite s m e =>
      let v := round_half_even (Zpos m) e in
      Ok (if s then - v else v)
  end.

End Py.

Import Py.
Local Open Scope py_scope.

(* ===================================================================== *)
(** * External collaborators                                               *)
(* ===================================================================== *)

(** [matplotlib.colors.to_hex(c, keep_alpha=False)]: the canonical lowercase
    [#rrggbb] form of a colour specification, [None] where Matplotlib raises
    [ValueError].  Matplotlib and its table of colour names are not part of
    the package, so the conversion is an interface. *)
Class MplColors : Type := { to_hex : string -> option string }.

(** The [ValueError] Matplotlib raises for a specification it cannot parse. *)
Definition mpl_invalid (c : string) : exn :=
  ValueError ("Invalid RGBA argument: '" ++ c ++ "'").

(** [mcolors.to_hex(c, keep_alpha=False)] as a computation that may raise. *)
Definition mcolors_to_hex `{MplColors} (c : string) : result string :=
  match to_hex c with
  | Some h => Ok h
  | None => Raise (mpl_invalid c)
  end.

(** [TextWrapper._split] of CPython's [textwrap]: [wordsep_re.split(text)]
    with the empty chunks removed.  The regular expression (whitespace runs,
    words, breaks after hyphens and around em-dashes) belongs to the standard
    library, so the splitter is an interface; the wrapping algorithm that
    consumes its chunks is modelled in full below. *)
Class WordSep : Type := { wordsep_split : string -> list string }.

(* ===================================================================== *)
(** * cfd_util.py                                                          *)
(* ===================================================================== *)

Module CfdUtil.

(** ** Text helpers: [textwrap.wrap(text, width, break_long_words=False)] *)

Definition tab : ascii := ascii_of_nat 9.
Definition space : ascii := " "%char.

Fixpoint spaces (n : nat) : string :=
  match n with
  | O => EmptyString
  | S n' => String space (spaces n')
  end.

(** [text.expandtabs(8)]: [col] is the current column; it restarts after a
    line feed or a carriage return. *)
Fixpoint expandtabs (col : nat) (s : string) : string :=
  match s with
  | EmptyString => EmptyString
  | String c s' =>
      if Ascii.eqb c tab then
        let incr := (8 - col mod 8)%nat in
        spaces incr ++ expandtabs (col + incr) s'
      else if Ascii.eqb c (ascii_of_nat 10) || Ascii.eqb c (ascii_of_nat 13)
      then String c (expandtabs 0 s')
      else String c (expandtabs (S col) s')
  end.

(** Membership in [textwrap._whitespace], the string [\t\n\x0b\x0c\r ]. *)
Definition is_textwrap_whitespace (c : ascii) : bool :=
  let n := N.to_nat (N_of_ascii c) in
  ((9 <=? n) && (n <=? 13) || (n =? 32))%nat.

(** [text.translate(unicode_whitespace_trans)] *)
Fixpoint translate_whitespace (s : string) : string :=
  match s with
  | EmptyString => EmptyString
  | String c s' =>
      String (if is_textwrap_whitespace c then space else c)
             (translate_whitespace s')
  end.

(** [TextWrapper._munge_whitespace] with [expand_tabs] and
    [replace_whitespace] at their defaults. *)
Definition _munge_whitespace (text : string) : string :=
  translate_whitespace (expandtabs 0 text).

(** [chunk.strip() == ''] *)
Definition is_blank (chunk : string) : bool := String.eqb (strip chunk) "".

(** The inner [while chunks:] loop of [_wrap_chunks]: move chunks to the
    current line while they fit.  [chunks] is the reversed stack of the
    source, its top at the head of the list. *)
Fixpoint take_fitting (width : Z) (cur_line : list string) (cur_len : Z)
  (chunks : list string) : list string * Z * list string :=
  match chunks with
  | [] => (cur_line, cur_len, [])
  | c :: rest =>
      if cur_len + len c <=? width
      then take_fitting width (cur_line ++ [c]) (cur_len + len c) rest
      else (cur_line, cur_len, chunks)
  end.

(** [_handle_long_word] with [break_long_words=False]: a chunk wider than the
    line is taken whole when the line is still empty, and left otherwise. *)
Definition _handle_long_word (chunks cur_line : list string)
  : list string * list string :=
  match cur_line, chunks with
  | [], c :: rest => ([c], rest)
  | _, _ => (cur_line, chunks)
  end.

(** [del cur_line[-1]] when the last chunk of the line is blank. *)
Definition drop_trailing_blank (cur_line : list string) : list string :=
  match rev cur_line with
  | last :: _ => if is_blank last then removelast cur_line else cur_line
  | [] => cur_line
  end.

(** One iteration of the outer [while chunks:] loop of [_wrap_chunks]
    ([drop_whitespace] on, no indent, no [max_lines]). *)
Definition wrap_one_line (width : Z) (lines chunks : list string)
  : list string * list string :=
  let chunks :=
    match chunks, lines with
    | c :: rest, _ :: _ => if is_blank c then rest else chunks
    | _, _ => chunks
    end in
  let '(cur_line, _, chunks) := take_fitting width [] 0 chunks in
  let '(cur_line, chunks) :=
    match chunks with
    | c :: _ => if width <? len c then _handle_long_word chunks cur_line
                else (cur_line, chunks)
    | [] => (cur_line, chunks)
    end in
  let cur_line := drop_trailing_blank cur_line in
  match cur_line with
  | [] => (lines, chunks)
  | _ => ((lines ++ [join cur_line])%list, chunks)
  end.

(** The outer loop.  Every iteration consumes a chunk (lemma
    [wrap_loop_consumes_all]), so [length chunks] iterations are enough; the
    result pairs the lines with the chunks left over. *)
Fixpoint wrap_loop (fuel : nat) (width : Z) (lines chunks : list string)
  : list string * list string :=
  match chunks, fuel with
  | [], _ | _, O => (lines, chunks)
  | _, S fuel' =>
      let '(lines', chunks') := wrap_one_line width lines chunks in
      wrap_loop fuel' width lines' chunks'
  end.

Definition invalid_width (width : Z) : exn :=
  ValueError ("invalid width " ++ str_of_int width ++ " (must be > 0)").

(** [TextWrapper._wrap_chunks] *)
Definition _wrap_chunks (width : Z) (chunks : list string)
  : result (list string) :=
  if width <=? 0 then Raise (invalid_width width)
  else Ok (fst (wrap_loop (List.length chunks) width [] chunks)).

Section Text.
Context `{WordSep}.

(** [textwrap.wrap(text, width=width, break_long_words=False)] *)
Definition textwrap_wrap (text : string) (width : Z) : result (list string) :=
  _wrap_chunks width (wordsep_split (_munge_whitespace text)).

(** [wrap_lines(text, width)] *)
Definition wrap_lines (text : string) (width : Z) : result (list string) :=
  if String.eqb text "" then Ok []
  else
    wrapped <- textwrap_wrap text width ;;
    Ok (match wrapped with
        | [] => [text]
        | _ => wrapped
        end).

End Text.

(** ** Colour helpers *)

(** [_hex_to_rgb(hex_color)] *)
Definition _hex_to_rgb (hex_color : string) : result (Z * Z * Z) :=
  let hex_color := lstrip_char "#" hex_color in
  let hex_color :=
    if (String.length hex_color =? 8)%nat then slice hex_color 0 6 else hex_color in
  r <- int16 (slice hex_color 0 2) ;;
  g <- int16 (slice hex_color 2 4) ;;
  b <- int16 (slice hex_color 4 6) ;;
  Ok (r, g, b).

(** [_rgb_to_hex(rgb)] *)
Definition _rgb_to_hex (rgb : Z * Z * Z) : string :=
  let '(r, g, b) := rgb in
  "#" ++ format_02x r ++ format_02x g ++ format_02x b.

(** One channel of [_interpolate_color]: [int(round(s + (e - s) * t))]. *)
Definition interpolate_channel (s e : Z) (t : float) : result Z :=
  d <- float_of_int (e - s) ;;
  s' <- float_of_int s ;;
  round (s' + d * t)%float.

(** [_interpolate_color(start_hex, end_hex, t)] *)
Definition _interpolate_color (start_hex end_hex : string) (t : float)
  : result string :=
  '(sr, sg, sb) <- _hex_to_rgb start_hex ;;
  '(er, eg, eb) <- _hex_to_rgb end_hex ;;
  r <- interpolate_channel sr er t ;;
  g <- interpolate_channel sg eg t ;;
  b <- interpolate_channel sb eb t ;;
  Ok (_rgb_to_hex (r, g, b)).

(** [i / (n - 1)] of the comprehension in [gradient_palette]: true division
    of two [int]s.  (CPython rounds the exact quotient; for operands below
    [2^53], as with any node count, that is the quotient of the two doubles.) *)
Definition true_div (a b : Z) : result float :=
  x <- float_of_int a ;;
  y <- float_of_int b ;;
  Ok (x / y)%float.

Section Colours.
Context `{MplColors}.

(** [gradient_palette(start_hex, end_hex, n)] *)
Definition gradient_palette (start_hex end_hex : string) (n : Z)
  : result (list string) :=
  if n <=? 1 then Ok [start_hex]
  else
    s_hex <- mcolors_to_hex start_hex ;;
    e_hex <- mcolors_to_hex end_hex ;;
    mapM (fun i => t <- true_div (Z.of_nat i) (n - 1) ;;
                   _interpolate_color s_hex e_hex t)
         (range 0 (Z.to_nat n)).

Definition policy_message (value : string) : string :=
  "Unsupported color '" ++ value ++ "' when allow_named_colors=False. "
  ++ "Use hex colors like '#88ccff'.".

Definition invalid_color_message (value : string) : string :=
  "Unsupported color '" ++ value ++ "'. Use hex or Matplotlib named colors. "
  ++ "See get_matplotlib_named_colors().".

(** [resolve_color(color_value, default_value, allow_named_colors)], for the
    documented argument types [str | None] and [str] (so the source's
    [isinstance(value, str)] holds). *)
Definition resolve_color (color_value : option string) (default_value : string)
  (allow_named_colors : bool) : result string :=
  let value := match color_value with
               | None => default_value
               | Some v => v
               end in
  if negb allow_named_colors && negb (startswith value "#") then
    Raise (ValueError (policy_message value))
  else
    match to_hex value with
    | Some h => Ok h
    | None => Raise (ValueError (invalid_color_message value))
    end.

End Colours.

(** ** Configuration *)

(** A parsed TOML document: scalars, arrays and tables.  A table is a Python
    [dict], kept as an association list in insertion order with distinct
    keys. *)
Inductive value : Type :=
| VBool (b : bool)
| VInt (n : Z)
| VFloat (x : float)
| VStr (s : string)
| VList (items : list value)
| VDict (items : list (string * value)).

Definition dict : Type := list (string * value).

(** [d.get(key)] on the items of a dictionary. *)
Fixpoint dict_get (d : dict) (key : string) : option value :=
  match d with
  | [] => None
  | (k, v) :: d' => if String.eqb k key then Some v else dict_get d' key
  end.

(** [d[key] = v] on the items of a dictionary: an existing key keeps its
    place, a new key goes last. *)
Fixpoint dict_set (d : dict) (key : string) (v : value) : dict :=
  match d with
  | [] => [(key, v)]
  | (k, v') :: d' =>
      if String.eqb k key then (k, v) :: d' else (k, v') :: dict_set d' key v
  end.

(** [isinstance(v, str) and v == key] *)
Definition is_str (key : string) (v : value) : bool :=
  match v with
  | VStr s => String.eqb s key
  | _ => false
  end.

(** [key in default]: membership for a table, substring test for a string,
    element test for an array; a number or a boolean is not iterable. *)
Definition py_contains (default : value) (key : string) : result bool :=
  match default with
  | VDict d => Ok (match dict_get d key with Some _ => true | None => false end)
  | VStr s => Ok (contains s key)
  | VList l => Ok (existsb (is_str key) l)
  | VBool _ | VInt _ | VFloat _ => Raise TypeError
  end.

(** [default[key]] for a string key: only a table can be indexed by it. *)
Definition py_getitem (default : value) (key : string) : result value :=
  match default with
  | VDict d => match dict_get d key with
               | Some v => Ok v
               | None => Raise KeyError
               end
  | _ => Raise TypeError
  end.

(** [default[key] = v] for a string key: only a table supports it. *)
Definition py_setitem (default : value) (key : string) (v : value)
  : result value :=
  match default with
  | VDict d => Ok (VDict (dict_set d key v))
  | _ => Raise TypeError
  end.

(** [_recursive_update(default, override)].  The function mutates and
    returns [default]; the model returns the updated value.  The inner
    fixpoint is the [for key, value in override.items()] loop. *)
Fixpoint _recursive_update (default override : value) {struct override}
  : result value :=
  match override with
  | VDict items =>
      (fix loop (default : value) (items : dict) {struct items}
         : result value :=
         match items with
         | [] => Ok default
         | (key, v) :: rest =>
             default' <-
               match v with
               | VDict _ =>
                   present <- py_contains default key ;;
                   if (present : bool) then
                     old <- py_getitem default key ;;
                     merged <- _recursive_update old v ;;
                     py_setitem default key merged
                   else py_setitem default key v
               | _ => py_setitem default key v
               end ;;
             loop default' rest
         end) default items
  | _ => Raise AttributeError
  end.

(** The loop of [_recursive_update] over the items of the override. *)
Definition update_items (default : value) (items : dict) : result value :=
  _recursive_update default (VDict items).

(** [_BUILTIN_STYLES] *)
Definition _BUILTIN_STYLES : list (string * string) :=
  [("white", "default_style_white.toml");
   ("colorful", "default_style_colorful.toml")].

(** The hard-coded fallback of [load_style_config] (white style). *)
Definition fallback_config : value :=
  VDict
    [("figure", VDict
        [("dpi", VInt 200); ("figsize_width", VInt 12);
         ("figsize_height", VInt 8); ("title_fontsize", VInt 16);
         ("title_fontweight", VStr "bold"); ("title_pad", VInt 20)]);
     ("layout", VDict
        [("main_title_width", VInt 26); ("main_text_width", VInt 34);
         ("exclusion_text_width", VInt 30); ("main_box_width", VFloat 2.8);
         ("exclusion_box_width", VFloat 2.6); ("base_gap", VFloat 0.8);
         ("side_gap", VFloat 1.2); ("top_margin", VFloat 0.8);
         ("bottom_margin", VFloat 0.8); ("x_padding", VFloat 0.6)]);
     ("box_geometry", VDict
        [("padding", VFloat 0.52); ("title_line_height", VFloat 0.42);
         ("body_line_height", VFloat 0.33); ("title_body_gap", VFloat 0.16);
         ("text_top_padding", VFloat 0.24); ("min_main_height", VFloat 1.6);
         ("min_exclusion_height", VFloat 1.2); ("clearance", VFloat 0.2);
         ("corner_radius", VFloat 0.05); ("pad_factor", VFloat 0.03)]);
     ("text", VDict
        [("fontsize_title", VInt 12); ("fontsize_main", VInt 10);
         ("fontsize_exclusion", VInt 9)]);
     ("lines", VDict
        [("box_linewidth", VInt 1); ("connector_linewidth", VInt 1);
         ("arrow_mutation_scale", VInt 20); ("junction_radius", VFloat 0.004)]);
     ("colors", VDict
        [("allow_named_colors", VBool true); ("main_start", VStr "#ffffff");
         ("main_end", VStr "#ffffff"); ("exclusion_start", VStr "#ffffff");
         ("exclusion_end", VStr "#ffffff")])].

(** What [load_style_config] reads from its environment: the parsed bundled
    style file ([None] when reading or parsing it raises), whether a path
    exists, and the parsed file at a path. *)
Record Files : Type := {
  bundled : string -> option value;
  path_exists : string -> bool;
  load_toml : string -> result value
}.

Definition unknown_style (style : string) : exn :=
  ValueError ("Unknown built-in style '" ++ style
              ++ "'. Available styles: ['colorful', 'white']").

(** [load_style_config(style, custom_config_path)]; the warning printed for
    a missing custom file is not modelled. *)
Definition load_style_config (fs : Files) (style : string)
  (custom_config_path : option string) : result value :=
  match List.find (fun kv => String.eqb (fst kv) style) _BUILTIN_STYLES with
  | None => Raise (unknown_style style)
  | Some (_, toml_filename) =>
      let config := match bundled fs toml_filename with
                    | Some doc => doc
                    | None => fallback_config
                    end in
      match custom_config_path with
      | None => Ok config
      | Some path =>
          if String.eqb path "" then Ok config
          else if path_exists fs path then
            user_config <- load_toml fs path ;;
            _recursive_update config user_config
          else Ok config
      end
  end.

End CfdUtil.

Import CfdUtil.

(* ===================================================================== *)
(** * Numbers of the style document                                        *)
(* ===================================================================== *)

(** The arithmetic [cfd.py] performs on the numbers of a style document.
    CPython computes with binary64 floats: the instance [float_num].  The
    structural properties of the layout are stated over the interface. *)
Class PyNum (num : Type) : Type := {
  add : num -> num -> num;
  mul : num -> num -> num;
  div : num -> num -> num;
  ltb : num -> num -> bool;
  of_int : Z -> num
}.

Declare Scope num_scope.
Delimit Scope num_scope with num.
Infix "+" := add : num_scope.
Infix "*" := mul : num_scope.
Infix "/" := div : num_scope.

(** [max(a, b)]: the first argument unless the second is greater. *)
Definition pymax {num : Type} `{PyNum num} (a b : num) : num :=
  if ltb a b then b else a.

#[export] Instance float_num : PyNum float := {
  add := PrimFloat.add;
  mul := PrimFloat.mul;
  div := PrimFloat.div;
  ltb := PrimFloat.ltb;
  of_int := fun n => SF2Prim (binary_normalize prec emax n 0 false)
}.

(* ===================================================================== *)
(** * cfd.py                                                               *)
(* ===================================================================== *)

Module Cfd.

(** One element of [data].  ["N"] is required; an absent optional key is
    [None]. *)
Record CohortNode : Type := {
  N : Z;
  heading : option string;
  description : option string;
  exclusion_description : option string;
  color : option string;
  color_name : option string;
  exclusion_color : option string;
  exclusion_color_name : option string
}.

(** [node.get(key, default)] *)
Definition get {A : Type} (field : option A) (default : A) : A :=
  match field with
  | Some v => v
  | None => default
  end.

(** [a or b] for strings: [b] when [a] is empty. *)
Definition str_or (a b : string) : string :=
  if String.eqb a "" then b else a.

Section Numbers.
Context {num : Type} `{PyNum num}.

(** The sections of the style document that [plot_cohort_flow_diagram] reads
    before it starts drawing. *)
Record Layout : Type := {
  main_title_width : Z;
  main_text_width : Z;
  exclusion_text_width : Z;
  main_box_width : num;
  exclusion_box_width : num;
  base_gap : num;
  side_gap : num;
  top_margin : num;
  bottom_margin : num;
  x_padding : num
}.

Record BoxGeometry : Type := {
  padding : num;
  title_line_height : num;
  body_line_height : num;
  title_body_gap : num;
  text_top_padding : num;
  min_main_height : num;
  min_exclusion_height : num;
  clearance : num;
  corner_radius : num;
  pad_factor : num
}.

Record Colors : Type := {
  allow_named_colors : bool;
  main_start : string;
  main_end : string;
  exclusion_start : string;
  exclusion_end : string
}.

Record StyleConfig : Type := {
  layout : Layout;
  box_geometry : BoxGeometry;
  colors : Colors
}.

(** The keyword arguments that reach the node processor. *)
Record Kwargs : Type := {
  main_palette : option (list string);
  exclusion_palette : option (list string)
}.

(** An element of [processed_nodes]. *)
Record ProcessedNode : Type := {
  n : Z;
  excl_n : Z;
  title_lines : list string;
  body_lines : list string;
  excl_lines : list string;
  node_color : string;
  excl_color : string;
  main_h : num;
  excl_h : num
}.

(** What the function has computed when drawing starts. *)
Record Diagram : Type := {
  processed_nodes : list ProcessedNode;
  transition_gaps : list num;
  centers_y : list num;
  total_height : num;
  excl_x : num
}.

Context `{MplColors} `{WordSep}.

(** [kwargs.get(key) or gradient_palette(start, end, n)]: the gradient is
    computed only when the override is absent or empty. *)
Definition choose_palette (override : option (list string))
  (start_hex end_hex : string) (count : Z) : result (list string) :=
  match override with
  | Some (c :: cs) => Ok (c :: cs)
  | Some [] | None => gradient_palette start_hex end_hex count
  end.

Definition ordering_message (i : nat) (n_curr : Z) : string :=
  "Node " ++ str_of_int (Z.of_nat i) ++ " has more patients ("
  ++ str_of_int n_curr ++ ") than previous step.".

(** [f"(n = {k})"] *)
Definition count_line (k : Z) : string := "(n = " ++ str_of_int k ++ ")".

(** The body of the loop [for i, node in enumerate(data)]. *)
Definition process_node (cfg : StyleConfig) (main_pal excl_pal : list string)
  (data : list CohortNode) (i : nat) (node : CohortNode)
  : result ProcessedNode :=
  let lay := layout cfg in
  let geom := box_geometry cfg in
  let n_curr := N node in
  n_prev <- (if (0 <? i)%nat
             then prev <- getitem data (i - 1) ;; Ok (N prev)
             else Ok n_curr) ;;
  let n_excluded := n_prev - n_curr in
  if n_excluded <? 0 then Raise (ValueError (ordering_message i n_curr))
  else
    let heading := str_or (strip (get (heading node) ""))
                          ("Step " ++ str_of_int (Z.of_nat i + 1)) in
    let desc := strip (get (description node) "") in
    let excl_desc := strip (get (exclusion_description node) "Excluded") in
    title <- wrap_lines heading (main_title_width lay) ;;
    body <- (if String.eqb desc "" then Ok [count_line n_curr]
             else wrapped <- wrap_lines desc (main_text_width lay) ;;
                  Ok (([count_line n_curr] ++ [""]) ++ wrapped)%list) ;;
    let main_h_calc :=
      (padding geom
       + title_line_height geom * of_int (Z.max 1 (Z.of_nat (List.length title)))
       + title_body_gap geom
       + body_line_height geom * of_int (Z.max 1 (Z.of_nat (List.length body))))%num in
    let main_h := pymax (min_main_height geom) main_h_calc in
    wrapped <- wrap_lines excl_desc (exclusion_text_width lay) ;;
    let excl := (wrapped ++ [count_line n_excluded])%list in
    let excl_h_calc :=
      (padding geom
       + body_line_height geom * of_int (Z.max 1 (Z.of_nat (List.length excl))))%num in
    let excl_h := pymax (min_exclusion_height geom) excl_h_calc in
    main_default <- getitem main_pal i ;;
    let main_color_raw := get (color node) (get (color_name node) main_default) in
    excl_default <- getitem excl_pal i ;;
    let excl_color_raw :=
      get (exclusion_color node) (get (exclusion_color_name node) excl_default) in
    c <- resolve_color (Some main_color_raw) main_default
           (allow_named_colors (colors cfg)) ;;
    ec <- resolve_color (Some excl_color_raw) excl_default
            (allow_named_colors (colors cfg)) ;;
    Ok {| n := n_curr; excl_n := n_excluded;
          title_lines := title; body_lines := body; excl_lines := excl;
          node_color := c; excl_color := ec;
          main_h := main_h; excl_h := excl_h |}.

(** The loop over [enumerate(data)], from index [i] on the rest [nodes]. *)
Fixpoint process_from (cfg : StyleConfig) (main_pal excl_pal : list string)
  (data : list CohortNode) (i : nat) (nodes : list CohortNode)
  : result (list ProcessedNode) :=
  match nodes with
  | [] => Ok []
  | node :: rest =>
      p <- process_node cfg main_pal excl_pal data i node ;;
      ps <- process_from cfg main_pal excl_pal data (S i) rest ;;
      Ok (p :: ps)
  end.

(** The gap required by the transition into [node]. *)
Definition transition_gap (cfg : StyleConfig) (node : ProcessedNode) : num :=
  let req_gap :=
    if 0 <? excl_n node
    then (excl_h node + of_int 2 * clearance (box_geometry cfg))%num
    else of_int 0 in
  pymax (base_gap (layout cfg)) req_gap.

(** The first loop of the geometry step. *)
Definition gaps_of (cfg : StyleConfig) (ps : list ProcessedNode)
  : result (list num) :=
  mapM (fun i => node <- getitem ps i ;; Ok (transition_gap cfg node))
       (range 1 (List.length ps)).

(** One iteration of the second loop: append the centre of node [i]. *)
Definition next_center (ps : list ProcessedNode) (gaps : list num)
  (centers : list num) (i : nat) : result (list num) :=
  prev <- getlast centers ;;
  gap <- getitem gaps (i - 1) ;;
  curr <- getitem ps i ;;
  before <- getitem ps (i - 1) ;;
  Ok (centers
      ++ [(prev + main_h before / of_int 2 + gap + main_h curr / of_int 2)%num])%list.

(** [for i in idx: centers = step(centers, i)] *)
Fixpoint center_loop (ps : list ProcessedNode) (gaps centers : list num)
  (idx : list nat) : result (list num) :=
  match idx with
  | [] => Ok centers
  | i :: idx' =>
      centers' <- next_center ps gaps centers i ;;
      center_loop ps gaps centers' idx'
  end.

(** Step 3 of [plot_cohort_flow_diagram]: gaps, centres, total height. *)
Definition geometry (cfg : StyleConfig) (ps : list ProcessedNode)
  : result (list num * list num * num) :=
  gaps <- gaps_of cfg ps ;;
  first <- getitem ps 0 ;;
  centers <- center_loop ps gaps
               [(top_margin (layout cfg) + main_h first / of_int 2)%num]
               (range 1 (List.length ps)) ;;
  last_center <- getlast centers ;;
  last_node <- getlast ps ;;
  Ok (gaps, centers,
      (last_center + main_h last_node / of_int 2
       + bottom_margin (layout cfg))%num).

Definition empty_data_message : string :=
  "data must contain at least one cohort node.".

(** [plot_cohort_flow_diagram(data, **kwargs)] from the loaded style [cfg]
    to the start of the drawing step. *)
Definition plot_cohort_flow_diagram (cfg : StyleConfig) (kwargs : Kwargs)
  (data : list CohortNode) : result Diagram :=
  match data with
  | [] => Raise (ValueError empty_data_message)
  | _ :: _ =>
      let count := Z.of_nat (List.length data) in
      let col := colors cfg in
      main_pal <- choose_palette (main_palette kwargs)
                    (main_start col) (main_end col) count ;;
      excl_pal <- choose_palette (exclusion_palette kwargs)
                    (exclusion_start col) (exclusion_end col) count ;;
      ps <- process_from cfg main_pal excl_pal data 0 data ;;
      '(gaps, centers, total) <- geometry cfg ps ;;
      let lay := layout cfg in
      Ok {| processed_nodes := ps;
            transition_gaps := gaps;
            centers_y := centers;
            total_height := total;
            excl_x := (of_int 0
                       + (main_box_width lay / of_int 2 + side_gap lay
                          + exclusion_box_width lay / of_int 2))%num |}
  end.

End Numbers.

Arguments Layout num : clear implicits.
Arguments BoxGeometry num : clear implicits.
Arguments StyleConfig num : clear implicits.
Arguments ProcessedNode num : clear implicits.
Arguments Diagram num : clear implicits.

End Cfd.

(* ===================================================================== *)
(** * Concrete collaborators and style documents                           *)
(* ===================================================================== *)

Module Samples.

(** A fragment of Matplotlib's colour parser, enough to run the model:
    hex literals of 3, 4, 6 or 8 digits (alpha dropped) and a few of the
    CSS4 names, looked up as written and then in lowercase. *)
Definition named_colors : list (string * string) :=
  [("red", "#ff0000"); ("blue", "#0000ff"); ("green", "#008000");
   ("white", "#ffffff"); ("black", "#000000"); ("steelblue", "#4682b4")].

Fixpoint lookup_name (table : list (string * string)) (name : string)
  : option string :=
  match table with
  | [] => None
  | (k, v) :: table' => if String.eqb k name then Some v else lookup_name table' name
  end.

Fixpoint double_digits (s : string) : string :=
  match s with
  | EmptyString => EmptyString
  | String c s' => String c (String c (double_digits s'))
  end.

Definition basic_to_hex (c : string) : option string :=
  match c with
  | String "#" digits =>
      if forallb is_hex_digit (list_ascii_of_string digits) then
        match String.length digits with
        | 6%nat => Some (lower c)
        | 8%nat => Some (lower ("#" ++ substring 0 6 digits))
        | 3%nat => Some (lower ("#" ++ double_digits digits))
        | 4%nat => Some (lower ("#" ++ double_digits (substring 0 3 digits)))
        | _ => None
        end
      else None
  | _ =>
      match lookup_name named_colors c with
      | Some h => Some h
      | None => lookup_name named_colors (lower c)
      end
  end.

Definition basic_colors : MplColors := {| to_hex := basic_to_hex |}.

(** [wordsep_re.split] on text without hyphens: the maximal runs of
    whitespace and of other characters, in order. *)
Fixpoint runs (s : string) : list string :=
  match s with
  | EmptyString => []
  | String c s' =>
      match runs s' with
      | (String d _ as chunk) :: rest =>
          if Bool.eqb (is_textwrap_whitespace c) (is_textwrap_whitespace d)
          then String c chunk :: rest
          else String c EmptyString :: chunk :: rest
      | _ => [String c EmptyString]
      end
  end.

Definition whitespace_runs : WordSep := {| wordsep_split := runs |}.

(** The white style with the numbers of the hard-coded fallback; [q a b]
    is the decimal literal [a/b] in the arithmetic of the style. *)
Definition white_layout {num : Type} (q : Z -> Z -> num) : Cfd.Layout num :=
  {| Cfd.main_title_width := 26; Cfd.main_text_width := 34;
     Cfd.exclusion_text_width := 30;
     Cfd.main_box_width := q 28 10; Cfd.exclusion_box_width := q 26 10;
     Cfd.base_gap := q 8 10; Cfd.side_gap := q 12 10;
     Cfd.top_margin := q 8 10; Cfd.bottom_margin := q 8 10;
     Cfd.x_padding := q 6 10 |}.

Definition white_geometry {num : Type} (q : Z -> Z -> num)
  : Cfd.BoxGeometry num :=
  {| Cfd.padding := q 52 100; Cfd.title_line_height := q 42 100;
     Cfd.body_line_height := q 33 100; Cfd.title_body_gap := q 16 100;
     Cfd.text_top_padding := q 24 100; Cfd.min_main_height := q 16 10;
     Cfd.min_exclusion_height := q 12 10; Cfd.clearance := q 2 10;
     Cfd.corner_radius := q 5 100; Cfd.pad_factor := q 3 100 |}.

Definition white_colors : Cfd.Colors :=
  {| Cfd.allow_named_colors := true;
     Cfd.main_start := "#ffffff"; Cfd.main_end := "#ffffff";
     Cfd.exclusion_start := "#ffffff"; Cfd.exclusion_end := "#ffffff" |}.

Definition white_style {num : Type} (q : Z -> Z -> num) : Cfd.StyleConfig num :=
  {| Cfd.layout := white_layout q; Cfd.box_geometry := white_geometry q;
     Cfd.colors := white_colors |}.

(** The decimal literal [a/b] as the nearest double. *)
Definition dec_float (a b : Z) : float :=
  (of_int (PyNum := float_num) a / of_int (PyNum := float_num) b)%float.

Definition no_kwargs : Cfd.Kwargs :=
  {| Cfd.main_palette := None; Cfd.exclusion_palette := None |}.

Definition node (count : Z) (head excl : option string) : Cfd.CohortNode :=
  {| Cfd.N := count; Cfd.heading := head; Cfd.description := None;
     Cfd.exclusion_description := excl;
     Cfd.color := None; Cfd.color_name := None;
     Cfd.exclusion_color := None; Cfd.exclusion_color_name := None |}.

(** The three-step cohort of the package's tests. *)
Definition sample_data : list Cfd.CohortNode :=
  [node 100 (Some "Registered") None;
   node 80 (Some "Screened") (Some "Not eligible");
   node 60 (Some "Analysed") (Some "Withdrew")].

End Samples.

(* ===================================================================== *)
(** * Vocabulary of the statements                                         *)
(* ===================================================================== *)

Import Cfd.

(** A [#] followed by exactly six hexadecimal digits. *)
Definition is_hex6 (h : string) : bool :=
  match h with
  | String "#" digits =>
      (String.length digits =? 6)%nat
      && forallb is_hex_digit (list_ascii_of_string digits)
  | _ => false
  end.

(** [_rgb_to_hex(_hex_to_rgb(h))] *)
Definition hex_roundtrip (h : string) : result string :=
  rgb <- _hex_to_rgb h ;; Ok (_rgb_to_hex rgb).

(** Every character, for checks that run over all pairs of digits. *)
Definition all_ascii : list ascii := map ascii_of_nat (seq 0 256).

(** Parsing two hexadecimal digits gives a value from 0 to 255, and printing
    it with [02x] gives the two digits back in lowercase. *)
Definition channel_ok (c1 c2 : ascii) : bool :=
  if is_hex_digit c1 && is_hex_digit c2 then
    match int16 (String c1 (String c2 "")) with
    | Ok v => (0 <=? v) && (v <=? 255)
              && String.eqb (format_02x v)
                   (String (lower_char c1) (String (lower_char c2) ""))
    | Raise _ => false
    end
  else true.

(** The sum of the lengths of the chunks of a line. *)
Fixpoint total_len (chunks : list string) : Z :=
  match chunks with
  | [] => 0
  | c :: chunks' => len c + total_len chunks'
  end.

(** A line fits the width, or it is one chunk of the text that is wider than
    the width (a word that cannot be broken). *)
Definition fits (width : Z) (chunks : list string) (line : string) : Prop :=
  len line <= width \/ (width < len line /\ In line chunks).

Section LayoutVocabulary.
Context {num : Type} `{PyNum num}.

(** The gap of the transition into [node], as the specification writes it:
    [max(baseGap, excluded > 0 ? exclusionBoxHeight + 2*clearance : 0)]. *)
Definition gap_formula (cfg : StyleConfig num) (node : ProcessedNode num) : num :=
  pymax (base_gap (layout cfg))
        (if 0 <? excl_n node
         then (excl_h node + of_int 2 * clearance (box_geometry cfg))%num
         else of_int 0).

(** The centre that follows centre [c] of node [p], for the next node [q]. *)
Definition center_after (cfg : StyleConfig num) (c : num)
  (p q : ProcessedNode num) : num :=
  (c + main_h p / of_int 2 + gap_formula cfg q + main_h q / of_int 2)%num.

(** The centres of [p :: rest] when [p] is centred at [c]. *)
Fixpoint centers_from (cfg : StyleConfig num) (c : num) (p : ProcessedNode num)
  (rest : list (ProcessedNode num)) : list num :=
  match rest with
  | [] => [c]
  | q :: rest' => c :: centers_from cfg (center_after cfg c p q) q rest'
  end.

End LayoutVocabulary.

Section OrderVocabulary.
Context {num : Type} `{PyNum num}.

(** [0 < x] in the arithmetic of the style document. *)
Definition is_positive (x : num) : bool := ltb (of_int 0) x.

(** The assumptions of the specification on a style: positive top margin,
    base gap, minimum box heights and per-line heights. *)
Definition positive_style (cfg : StyleConfig num) : bool :=
  is_positive (top_margin (layout cfg))
  && is_positive (base_gap (layout cfg))
  && is_positive (min_main_height (box_geometry cfg))
  && is_positive (min_exclusion_height (box_geometry cfg))
  && is_positive (title_line_height (box_geometry cfg))
  && is_positive (body_line_height (box_geometry cfg)).


End OrderVocabulary.

(** The processed nodes of the sample cohort under the white style. *)
Definition sample_processed : list (ProcessedNode float) :=
  [{| n := 100; excl_n := 0; title_lines := ["Registered"];
      body_lines := ["(n = 100)"]; excl_lines := ["Excluded"; "(n = 0)"];
      node_color := "#ffffff"; excl_color := "#ffffff";
      main_h := Samples.dec_float 16 10; excl_h := Samples.dec_float 12 10 |};
   {| n := 80; excl_n := 20; title_lines := ["Screened"];
      body_lines := ["(n = 80)"]; excl_lines := ["Not eligible"; "(n = 20)"];
      node_color := "#ffffff"; excl_color := "#ffffff";
      main_h := Samples.dec_float 16 10; excl_h := Samples.dec_float 12 10 |};
   {| n := 60; excl_n := 20; title_lines := ["Analysed"];
      body_lines := ["(n = 60)"]; excl_lines := ["Withdrew"; "(n = 20)"];
      node_color := "#ffffff"; excl_color := "#ffffff";
      main_h := Samples.dec_float 16 10; excl_h := Samples.dec_float 12 10 |}].


(** One iteration of the loop of [_recursive_update]: the new value of
    [default] after the item [(key, v)] of the override. *)
Definition merge_step (default : value) (key : string) (v : value)
  : result value :=
  match v with
  | VDict _ =>
      present <- py_contains default key ;;
      if (present : bool) then
        old <- py_getitem default key ;;
        merged <- _recursive_update old v ;;
        py_setitem default key merged
      else py_setitem default key v
  | _ => py_setitem default key v
  end.

(** [isinstance(v, dict)] *)
Definition is_table (v : value) : bool :=
  match v with
  | VDict _ => true
  | _ => false
  end.

(** The double of a small integer, by the primitive conversion. *)
Definition small_float (v : Z) : float :=
  if v <? 0 then (- PrimFloat.of_uint63 (Uint63.of_Z (- v)))%float
  else PrimFloat.of_uint63 (Uint63.of_Z v).

(** The values of a colour channel, and the differences of two of them. *)
Definition channel_values : list Z := map Z.of_nat (seq 0 256).

Definition difference_values : list Z :=
  map (fun k => Z.of_nat k - 255) (seq 0 511).

Definition is_zero (x : float) : bool :=
  Leibniz.eqb x 0%float || Leibniz.eqb x (-0)%float.

(** The facts about one difference [d] that the ends of a gradient rest on:
    its conversion is exact, and its products with 1, with a zero and with
    NaN are what they should be. *)
Definition difference_ok (d : Z) : bool :=
  match float_of_int d with
  | Ok f => Leibniz.eqb f (small_float d)
  | Raise _ => false
  end
  && Leibniz.eqb (small_float d * 1)%float (small_float d)
  && is_zero (small_float d * 0)%float
  && is_zero (small_float d * (-0))%float
  && Leibniz.eqb (small_float d * nan)%float nan.

(** The facts about one channel value [s]: rounding its double gives it
    back, and adding a zero or NaN to its double does what it should. *)
Definition channel_value_ok (s : Z) : bool :=
  match round (small_float s) with
  | Ok v => v =? s
  | Raise _ => false
  end
  && Leibniz.eqb (small_float s + 0)%float (small_float s)
  && Leibniz.eqb (small_float s + (-0))%float (small_float s)
  && Leibniz.eqb (small_float s + nan)%float nan.

(** Adding the difference to the start gives the end, exactly. *)
Definition sum_ok (s e : Z) : bool :=
  Leibniz.eqb (small_float s + small_float (e - s))%float (small_float e).
(* ===================================================================== *)
(** * Binary64 vocabulary                                                  *)
(* ===================================================================== *)

(** Zero, a positive finite double or [+inf]: neither negative nor NaN. *)
Definition SFnonneg (s : spec_float) : Prop :=
  match s with
  | S754_zero _ | S754_infinity false | S754_finite false _ _ => True
  | _ => False
  end.

(** The double [2.0]. *)
Definition SFtwo : spec_float := S754_finite false 4503599627370496 (-51).

Definition fnonneg (x : float) : Prop := SFnonneg (Prim2SF x).

(** [2.0 ** J] as a double. *)
Definition two_to (J : Z) : float := Z.ldexp 1 J.



(** Printing a channel value with [02x] gives two hexadecimal digits that
    parse back to the value. *)
Definition format_parse_ok (v : Z) : bool :=
  match format_02x v with
  | String c1 (String c2 EmptyString) =>
      is_hex_digit c1 && is_hex_digit c2
      && Ascii.eqb (lower_char c1) c1 && Ascii.eqb (lower_char c2) c2
      && match int16 (String c1 (String c2 "")) with
         | Ok w => w =? v
         | Raise _ => false
         end
  | _ => false
  end.

(** A [#] followed by exactly eight hexadecimal digits. *)
Definition is_hex8 (h : string) : bool :=
  match h with
  | String "#" digits =>
      (String.length digits =? 8)%nat
      && forallb is_hex_digit (list_ascii_of_string digits)
  | _ => false
  end.

(** The number of constructors of a document: the measure of the recursion
    of [_recursive_update]. *)
Fixpoint value_size (v : value) : nat :=
  match v with
  | VList items => S (fold_right (fun x acc => (value_size x + acc)%nat) 0%nat items)
  | VDict items =>
      S (fold_right (fun kv acc => (value_size (snd kv) + acc)%nat) 0%nat items)
  | _ => 1%nat
  end.

(** No value of the override is a table. *)
Definition flat (items : dict) : bool :=
  forallb (fun kv => negb (is_table (snd kv))) items.

(** A file system without the bundled styles and with one custom file,
    [my.toml], that sets [layout.base_gap]. *)
Definition custom_files : Files :=
  {| bundled := fun _ => None;
     path_exists := fun path => String.eqb path "my.toml";
     load_toml := fun _ =>
       Ok (VDict [("layout", VDict [("base_gap", VFloat 1.5%float)])]) |}.

(** ** The drawing step of [plot_cohort_flow_diagram] *)

(** Subtraction, which only the drawing step uses. *)
Class PyNumSub (num : Type) : Type := { sub : num -> num -> num }.

Infix "-" := sub : num_scope.

#[export] Instance float_sub : PyNumSub float := { sub := PrimFloat.sub }.

(** ['\n'.join(lines)] *)
Definition join_lines (lines : list string) : string :=
  String.concat (String (ascii_of_nat 10) EmptyString) lines.

Section Drawing.
Context {num : Type} `{PyNum num} `{PyNumSub num}.

(** The sections [text] and [lines] of the style document. *)
Record TextStyle : Type := {
  fontsize_title : num;
  fontsize_main : num;
  fontsize_exclusion : num
}.

Record LineStyle : Type := {
  box_linewidth : num;
  connector_linewidth : num;
  arrow_mutation_scale : num;
  junction_radius : num
}.

(** What the loop adds to the axes, with the arguments that vary between
    calls: [FancyBboxPatch((x, y), width, height, boxstyle, facecolor,
    linewidth, zorder)] with the two numbers of the box style,
    [ax.text(x, y, s, va, fontsize, fontweight or style, zorder)],
    [ax.annotate('', xy, xytext, arrowprops, zorder)] and
    [Circle((x, y), radius, zorder)].  Every text is centred horizontally,
    every edge and arrow is black. *)
Inductive Artist : Type :=
| FancyBboxPatch (x y width height : num) (pad rounding_size : num)
    (facecolor : string) (linewidth : num) (zorder : Z)
| Text (x y : num) (s : string) (va : string) (fontsize : num)
    (font : string) (zorder : Z)
| Annotate (x y xtext ytext : num) (arrowstyle : string) (lw : num)
    (mutation_scale : option num) (zorder : Z)
| Circle (x y : num) (radius : num) (zorder : Z).

(** The body of the loop [for i, node in enumerate(processed_nodes)] of the
    plotting step: the artists of node [i], in the order they are added. *)
Definition draw_node (cfg : StyleConfig num) (txt : TextStyle)
  (lines : LineStyle) (d : Diagram num) (i : nat) (node : ProcessedNode num)
  : result (list Artist) :=
  let lay := layout cfg in
  let geom := box_geometry cfg in
  let center_x := of_int 0 in
  y_pos <- getitem (centers_y d) i ;;
  let box :=
    FancyBboxPatch (center_x - main_box_width lay / of_int 2)%num
                   (y_pos - main_h node / of_int 2)%num
                   (main_box_width lay) (main_h node)
                   (pad_factor geom) (corner_radius geom)
                   (node_color node) (box_linewidth lines) 2 in
  let text_y := (y_pos - main_h node / of_int 2 + text_top_padding geom)%num in
  let title :=
    Text center_x text_y (join_lines (title_lines node)) "top"
         (fontsize_title txt) "bold" 3 in
  let body_y :=
    (text_y
     + title_line_height geom
       * of_int (Z.max 1 (Z.of_nat (List.length (title_lines node))))
     + title_body_gap geom)%num in
  let body :=
    Text center_x body_y (join_lines (body_lines node)) "top"
         (fontsize_main txt) "" 3 in
  transition <-
    (if (0 <? i)%nat then
       prev_center <- getitem (centers_y d) (i - 1) ;;
       prev_node <- getitem (processed_nodes d) (i - 1) ;;
       let prev_btm := (prev_center + main_h prev_node / of_int 2)%num in
       let curr_top := (y_pos - main_h node / of_int 2)%num in
       let arrow :=
         Annotate center_x curr_top center_x prev_btm "->"
                  (connector_linewidth lines) None 1 in
       if 0 <? excl_n node then
         let mid_y := ((prev_btm + curr_top) / of_int 2)%num in
         let excl_left :=
           (excl_x d - exclusion_box_width lay / of_int 2)%num in
         let ebox :=
           FancyBboxPatch excl_left (mid_y - excl_h node / of_int 2)%num
                          (exclusion_box_width lay) (excl_h node)
                          (pad_factor geom) (corner_radius geom)
                          (excl_color node) (box_linewidth lines) 2 in
         Ok [arrow; ebox;
             Circle center_x mid_y (junction_radius lines) 4;
             Annotate (excl_x d) mid_y center_x mid_y "-|>"
                      (connector_linewidth lines)
                      (Some (arrow_mutation_scale lines)) 1;
             Text (excl_x d) mid_y (join_lines (excl_lines node)) "center"
                  (fontsize_exclusion txt) "italic" 3]
       else Ok [arrow]
     else Ok []) ;;
  Ok ([box; title; body] ++ transition)%list.

(** The loop, from index [i] on the rest [nodes]: the artists of each node. *)
Fixpoint draw_from (cfg : StyleConfig num) (txt : TextStyle)
  (lines : LineStyle) (d : Diagram num) (i : nat)
  (nodes : list (ProcessedNode num)) : result (list (list Artist)) :=
  match nodes with
  | [] => Ok []
  | node :: rest =>
      artists <- draw_node cfg txt lines d i node ;;
      others <- draw_from cfg txt lines d (S i) rest ;;
      Ok (artists :: others)
  end.

(** All the artists of the diagram, in drawing order. *)
Definition draw (cfg : StyleConfig num) (txt : TextStyle) (lines : LineStyle)
  (d : Diagram num) : result (list Artist) :=
  per_node <- draw_from cfg txt lines d 0 (processed_nodes d) ;;
  Ok (concat per_node).

(** The axis limits set after the loop: [(left_lim, right_lim)] for
    [set_xlim] and [(total_height, 0)] for [set_ylim]. *)
Definition axis_limits (cfg : StyleConfig num) (d : Diagram num)
  : (num * num) * (num * num) :=
  let lay := layout cfg in
  let center_x := of_int 0 in
  let left_lim :=
    (center_x - main_box_width lay / of_int 2 - x_padding lay)%num in
  let right_lim :=
    (excl_x d + exclusion_box_width lay / of_int 2 + x_padding lay)%num in
  ((left_lim, right_lim), (total_height d, of_int 0)).

(** The text of an exclusion box is the only italic text. *)
Definition is_exclusion_text (a : Artist) : bool :=
  match a with
  | Text _ _ _ _ _ font _ => String.eqb font "italic"
  | _ => false
  end.

End Drawing.

Arguments TextStyle num : clear implicits.
Arguments LineStyle num : clear implicits.
Arguments Artist num : clear implicits.


(** The sections [text] and [lines] of the hard-coded fallback. *)
Definition white_text {num : Type} (q : Z -> Z -> num) : TextStyle num :=
  {| fontsize_title := q 12 1; fontsize_main := q 10 1;
     fontsize_exclusion := q 9 1 |}.

Definition white_lines {num : Type} (q : Z -> Z -> num) : LineStyle num :=
  {| box_linewidth := q 1 1; connector_linewidth := q 1 1;
     arrow_mutation_scale := q 20 1; junction_radius := q 4 1000 |}.

(** [resolve_color] accepts the value: the policy on named colours lets it
    through and Matplotlib can parse it. *)
Definition colour_accepted `{MplColors} (allow : bool) (c : string) : bool :=
  (allow || startswith c "#")
  && match to_hex c with
     | Some _ => true
     | None => false
     end.

(** A node with all the optional keys: a blank heading, a description and
    colours given both ways. *)
Definition described_node : CohortNode :=
  {| N := 100; heading := Some "  "; description := Some " Adults only ";
     exclusion_description := None;
     color := Some "red"; color_name := Some "blue";
     exclusion_color := None; exclusion_color_name := Some "green" |}.

(** A palette override with a single colour. *)
Definition one_colour_kwargs : Kwargs :=
  {| main_palette := Some ["#ffffff"]; exclusion_palette := None |}.

(** A node whose [color] Matplotlib does not know. *)
Definition miscoloured_node : CohortNode :=
  {| N := 80; heading := Some "Screened"; description := None;
     exclusion_description := None;
     color := Some "rde"; color_name := None;
     exclusion_color := None; exclusion_color_name := None |}.
(** ** Figure I/O: [save_figure] *)

(** [save_format]: one format string or a list of them. *)
Inductive SaveFormat : Type :=
| OneFormat (fmt : string)
| ManyFormats (fmts : list string).

(** What [save_figure] asks of the outside world, in order:
    [output_dir.mkdir(parents=True, exist_ok=True)],
    [fig.savefig(output_dir / file_name, bbox_inches='tight', dpi=300)] and
    the line printed after it.  A path is kept as its directory and its
    file name. *)
Inductive SaveEffect : Type :=
| Mkdir (output_dir : string)
| Savefig (output_dir file_name : string)
| PrintSaved (output_dir file_name : string).

(** The outside world: given the calls that have returned so far, a call
    returns ([None]) or raises ([Some e]): the directory cannot be created,
    Matplotlib does not know the format, the disk is full. *)
Definition World : Type := list SaveEffect -> SaveEffect -> option exn.

(** The loop of [save_figure].  [done] holds the calls that have returned;
    an exception of [savefig] or [print] leaves the loop at once, so the
    formats after it are not written. *)
Fixpoint save_loop (world : World) (output_dir img_name : string)
  (done : list SaveEffect) (formats : list string)
  : list SaveEffect * result unit :=
  match formats with
  | [] => (done, Ok tt)
  | fmt :: formats' =>
      let clean_fmt := lstrip_char "." fmt in
      let file_name := img_name ++ "." ++ clean_fmt in
      match world done (Savefig output_dir file_name) with
      | Some e => (done, Raise e)
      | None =>
          let saved := (done ++ [Savefig output_dir file_name])%list in
          match world saved (PrintSaved output_dir file_name) with
          | Some e => (saved, Raise e)
          | None =>
              save_loop world output_dir img_name
                (saved ++ [PrintSaved output_dir file_name])%list formats'
          end
      end
  end.

(** [save_figure(fig, save_dir, img_name, save_format)]: the calls that
    returned, and how the function ended. *)
Definition save_figure (world : World) (save_dir : option string)
  (img_name : string) (save_format : SaveFormat)
  : list SaveEffect * result unit :=
  if String.eqb img_name "" then ([], Ok tt)
  else
    let output_dir := match save_dir with
                      | Some dir => dir
                      | None => "."
                      end in
    match world [] (Mkdir output_dir) with
    | Some e => ([], Raise e)
    | None =>
        let formats := match save_format with
                       | OneFormat fmt => [fmt]
                       | ManyFormats fmts => fmts
                       end in
        save_loop world output_dir img_name [Mkdir output_dir] formats
    end.

(** The files written, in order. *)
Definition saved_files (effects : list SaveEffect) : list string :=
  flat_map (fun effect => match effect with
                          | Savefig _ file_name => [file_name]
                          | _ => []
                          end) effects.

(** The calls of a run in which nothing raises. *)
Definition planned_calls (save_dir : option string) (img_name : string)
  (fmts : list string) : list SaveEffect :=
  let output_dir := match save_dir with
                    | Some dir => dir
                    | None => "."
                    end in
  Mkdir output_dir
  :: flat_map (fun fmt =>
                 let file_name := img_name ++ "." ++ lstrip_char "." fmt in
                 [Savefig output_dir file_name;
                  PrintSaved output_dir file_name])
              fmts.

(** A world in which every call returns, and one whose [savefig] refuses
    the extension [xyz]. *)
Definition obliging_world : World := fun _ _ => None.

Definition picky_world : World :=
  fun _ call =>
    match call with
    | Savefig _ file_name =>
        if contains file_name ".xyz"
        then Some (ValueError "Format 'xyz' is not supported")
        else None
    | _ => None
    end.


(** The characters of a string that are not white space, in order. *)
Fixpoint squeeze (s : string) : string :=
  match s with
  | EmptyString => EmptyString
  | String c s' => if isspace c then squeeze s' else String c (squeeze s')
  end.

(* ===================================================================== *)
(** * Strings and the error monad: basic facts                             *)
(* ===================================================================== *)

Lemma append_assoc (a b c : string) : ((a ++ b) ++ c = a ++ (b ++ c))%string.
Proof. induction a as [| x a IH]; cbn [append]; [| rewrite IH]; reflexivity. Qed.

Lemma append_nil_r (a : string) : (a ++ "" = a)%string.
Proof. induction a as [| x a IH]; cbn [append]; [| rewrite IH]; reflexivity. Qed.

Lemma len_append (a b : string) : len (a ++ b)%string = len a + len b.
Proof.
  unfold len. induction a as [| x a IH]; cbn [append String.length].
  - reflexivity.
  - rewrite !Nat2Z.inj_succ. lia.
Qed.

Lemma len_nonneg (a : string) : 0 <= len a.
Proof. unfold len. lia. Qed.

Lemma bind_ok {A B : Type} (r : result A) (k : A -> result B) (b : B) :
  bind r k = Ok b -> exists a, r = Ok a /\ k a = Ok b.
Proof. destruct r as [a | e]; cbn; [eauto | discriminate]. Qed.

(* ===================================================================== *)
(** * Hex colours: [_hex_to_rgb] and [_rgb_to_hex]                         *)
(* ===================================================================== *)

Lemma in_all_ascii (c : ascii) : In c all_ascii.
Proof.
  unfold all_ascii. rewrite <- (ascii_nat_embedding c).
  apply in_map, in_seq. pose proof (nat_ascii_bounded c). lia.
Qed.

Lemma all_channels_ok :
  forallb (fun c1 => forallb (channel_ok c1) all_ascii) all_ascii = true.
Proof. vm_compute. reflexivity. Qed.

Lemma channel_roundtrip (c1 c2 : ascii) :
  is_hex_digit c1 = true -> is_hex_digit c2 = true ->
  exists v, int16 (String c1 (String c2 "")) = Ok v
            /\ 0 <= v <= 255
            /\ format_02x v = String (lower_char c1) (String (lower_char c2) "").
Proof.
  intros H1 H2.
  pose proof all_channels_ok as Hall.
  rewrite forallb_forall in Hall. specialize (Hall c1 (in_all_ascii c1)).
  rewrite forallb_forall in Hall. specialize (Hall c2 (in_all_ascii c2)).
  unfold channel_ok in Hall. rewrite H1, H2 in Hall. cbn [andb] in Hall.
  destruct (int16 (String c1 (String c2 ""))) as [v | e]; [| discriminate].
  apply andb_true_iff in Hall as [Hall Hfmt].
  apply andb_true_iff in Hall as [Hlo Hhi].
  exists v. split; [reflexivity |]. split; [lia |]. now apply String.eqb_eq.
Qed.

Lemma hex_digit_not_hash (c : ascii) :
  is_hex_digit c = true -> Ascii.eqb c "#" = false.
Proof.
  intro Hc. destruct (Ascii.eqb_spec c "#") as [-> |]; [discriminate | reflexivity].
Qed.

(** The shape behind [is_hex6]. *)
Lemma is_hex6_shape (h : string) :
  is_hex6 h = true ->
  exists c1 c2 c3 c4 c5 c6,
    h = String "#" (String c1 (String c2 (String c3 (String c4
          (String c5 (String c6 ""))))))
    /\ is_hex_digit c1 = true /\ is_hex_digit c2 = true
    /\ is_hex_digit c3 = true /\ is_hex_digit c4 = true
    /\ is_hex_digit c5 = true /\ is_hex_digit c6 = true.
Proof.
  unfold is_hex6. destruct h as [| c0 ds]; [discriminate |].
  destruct (Ascii.eqb_spec c0 "#") as [-> | Hne].
  2:{ intro Hf. exfalso.
      destruct c0 as [[] [] [] [] [] [] [] []]; try discriminate Hf.
      now apply Hne. }
  intro Hh. apply andb_true_iff in Hh as [Hlen Hall].
  apply Nat.eqb_eq in Hlen.
  destruct ds as [| c1 [| c2 [| c3 [| c4 [| c5 [| c6 [| c7 ds]]]]]]];
    try discriminate Hlen.
  cbn [list_ascii_of_string forallb] in Hall.
  repeat (apply andb_true_iff in Hall as [? Hall]).
  exists c1, c2, c3, c4, c5, c6. repeat split; assumption.
Qed.

(** The channels of a six-digit hex colour: values from 0 to 255 that print
    back as the colour in lowercase. *)
Lemma hex6_channels (h : string) :
  is_hex6 h = true ->
  exists r g b,
    _hex_to_rgb h = Ok (r, g, b)
    /\ 0 <= r <= 255 /\ 0 <= g <= 255 /\ 0 <= b <= 255
    /\ _rgb_to_hex (r, g, b) = lower h.
Proof.
  intro Hh. apply is_hex6_shape in Hh
    as (c1 & c2 & c3 & c4 & c5 & c6 & -> & H1 & H2 & H3 & H4 & H5 & H6).
  destruct (channel_roundtrip c1 c2 H1 H2) as (r & Hr & Rr & Fr).
  destruct (channel_roundtrip c3 c4 H3 H4) as (g & Hg & Rg & Fg).
  destruct (channel_roundtrip c5 c6 H5 H6) as (b & Hb & Rb & Fb).
  exists r, g, b. unfold _hex_to_rgb.
  cbn [lstrip_char]. rewrite (hex_digit_not_hash c1 H1).
  change (Ascii.eqb "#" "#") with true. cbn iota.
  cbn [String.length Nat.eqb slice substring Nat.sub].
  rewrite Hr, Hg, Hb. cbn [bind _rgb_to_hex].
  rewrite Fr, Fg, Fb. auto.
Qed.

(** C7 (as the code has it).  For every [#] followed by six hexadecimal
    digits, converting to an RGB triple and back succeeds and returns the
    string in lowercase; it returns the string unchanged exactly when the
    string has no uppercase digit. *)
Theorem hex_roundtrip_lowercases (h : string) :
  is_hex6 h = true ->
  hex_roundtrip h = Ok (lower h)
  /\ (hex_roundtrip h = Ok h <-> lower h = h).
Proof.
  intro Hh.
  assert (Hrt : hex_roundtrip h = Ok (lower h)).
  { destruct (hex6_channels h Hh) as (r & g & b & Hrgb & _ & _ & _ & Hhex).
    unfold hex_roundtrip. rewrite Hrgb. cbn [bind]. now rewrite Hhex. }
  split; [exact Hrt |].
  rewrite Hrt. split; [intro E; now injection E | intros ->; reflexivity].
Qed.

Lemma hex_roundtrip_lowercases_witness :
  is_hex6 "#1a2b3c" = true
  /\ hex_roundtrip "#1a2b3c" = Ok (lower "#1a2b3c")
  /\ (hex_roundtrip "#1a2b3c" = Ok "#1a2b3c" <-> lower "#1a2b3c" = "#1a2b3c").
Proof.
  split; [reflexivity | apply (hex_roundtrip_lowercases "#1a2b3c"); reflexivity].
Defined.

(** C7 as stated fails: an uppercase six-digit hex string does not come
    back unchanged. *)
Lemma hex_roundtrip_uppercase_counterexample :
  ~ (forall h, is_hex6 h = true -> hex_roundtrip h = Ok h).
Proof.
  intro Hall. specialize (Hall "#AABBCC" eq_refl).
  vm_compute in Hall. discriminate Hall.
Qed.

(** The test of the package: [#1a2b3c] survives the round trip, and
    [#ff000080] loses its alpha channel. *)
Example hex_roundtrip_test :
  hex_roundtrip "#1a2b3c" = Ok "#1a2b3c"
  /\ _hex_to_rgb "#ff000080" = Ok (255, 0, 0)
  /\ hex_roundtrip "#AABBCC" = Ok "#aabbcc".
Proof. repeat split; vm_compute; reflexivity. Qed.

(* ===================================================================== *)
(** * Colour resolution: [resolve_color]                                   *)
(* ===================================================================== *)

Lemma occurs_in_middle (pre sub post : string) :
  occurs_in sub (pre ++ sub ++ post).
Proof. exists pre, post. reflexivity. Qed.

Lemma policy_message_names_value (value : string) :
  occurs_in value (policy_message value).
Proof. unfold policy_message. apply occurs_in_middle. Qed.

Lemma invalid_color_message_names_value (value : string) :
  occurs_in value (invalid_color_message value).
Proof. unfold invalid_color_message. apply occurs_in_middle. Qed.

Lemma invalid_color_message_has_hint (value : string) :
  occurs_in "get_matplotlib_named_colors()" (invalid_color_message value).
Proof.
  exists ("Unsupported color '" ++ value
          ++ "'. Use hex or Matplotlib named colors. See "), ".".
  unfold invalid_color_message.
  rewrite !append_assoc. reflexivity.
Qed.

(** C6.  [resolve_color(value, default, allow_named)]: [None] stands for the
    default; with named colours disallowed, a value that does not start with
    [#] raises the policy error, whose message names the value; otherwise the
    canonical hex of the value is returned, or, when the value cannot be
    parsed, the invalid-colour error is raised, whose message names the value
    and points to [get_matplotlib_named_colors()].  The three examples of the
    specification follow for every colour parser that knows [#aabbcc] and
    [red]. *)
Theorem resolve_color_contract `{MplColors} :
  (forall d allow, resolve_color None d allow = resolve_color (Some d) d allow)
  /\ (forall v d,
        startswith v "#" = false ->
        resolve_color (Some v) d false = Raise (ValueError (policy_message v))
        /\ occurs_in v (policy_message v))
  /\ (forall v d allow h,
        allow = true \/ startswith v "#" = true ->
        to_hex v = Some h ->
        resolve_color (Some v) d allow = Ok h)
  /\ (forall v d allow,
        allow = true \/ startswith v "#" = true ->
        to_hex v = None ->
        resolve_color (Some v) d allow
          = Raise (ValueError (invalid_color_message v))
        /\ occurs_in v (invalid_color_message v)
        /\ occurs_in "get_matplotlib_named_colors()" (invalid_color_message v))
  /\ (to_hex "#aabbcc" = Some "#aabbcc" ->
      resolve_color None "#aabbcc" true = Ok "#aabbcc")
  /\ (forall red_hex, to_hex "red" = Some red_hex ->
      resolve_color (Some "red") "#000000" true = Ok red_hex)
  /\ resolve_color (Some "red") "#000000" false
     = Raise (ValueError (policy_message "red")).
Proof.
  split; [reflexivity |].
  split.
  { intros v d Hv. split; [| apply policy_message_names_value].
    unfold resolve_color. rewrite Hv. reflexivity. }
  split.
  { intros v d allow h Hok Hh. unfold resolve_color.
    destruct Hok as [-> | ->]; cbn [negb andb];
      rewrite ?andb_false_r, Hh; reflexivity. }
  split.
  { intros v d allow Hok Hh.
    split; [| split; [apply invalid_color_message_names_value
                     | apply invalid_color_message_has_hint]].
    unfold resolve_color.
    destruct Hok as [-> | ->]; cbn [negb andb];
      rewrite ?andb_false_r, Hh; reflexivity. }
  split.
  { intro Hh. unfold resolve_color. cbn [negb andb]. rewrite Hh. reflexivity. }
  split; [| reflexivity].
  intros red_hex Hh. unfold resolve_color. cbn [negb andb]. rewrite Hh.
  reflexivity.
Qed.

(** The examples of the specification and of the package's tests, run with
    the sample colour parser. *)
Lemma resolve_color_contract_witness :
  resolve_color (H := Samples.basic_colors) None "#aabbcc" true = Ok "#aabbcc"
  /\ resolve_color (H := Samples.basic_colors) (Some "red") "#000000" true
     = Ok "#ff0000"
  /\ resolve_color (H := Samples.basic_colors) (Some "red") "#000000" false
     = Raise (ValueError (policy_message "red"))
  /\ resolve_color (H := Samples.basic_colors)
       (Some "not_a_color_at_all") "#000000" true
     = Raise (ValueError (invalid_color_message "not_a_color_at_all")).
Proof.
  pose proof (resolve_color_contract (H := Samples.basic_colors))
    as (_ & _ & _ & Hbad & Hdef & Hred & Hpol).
  split; [apply Hdef; reflexivity |].
  split; [apply Hred; reflexivity |].
  split; [exact Hpol |].
  apply Hbad; [left |]; reflexivity.
Defined.

(* ===================================================================== *)
(** * Gradient palettes: [gradient_palette]                                *)
(* ===================================================================== *)

Lemma mapM_length {A B : Type} (f : A -> result B) (xs : list A) (ys : list B) :
  mapM f xs = Ok ys -> List.length ys = List.length xs.
Proof.
  revert ys. induction xs as [| x xs IH]; intros ys Hm; cbn [mapM] in Hm.
  - injection Hm as <-. reflexivity.
  - destruct (f x) as [y | e]; [| discriminate].
    destruct (mapM f xs) as [ys' | e]; [| discriminate].
    injection Hm as <-. cbn [List.length]. now rewrite (IH ys').
Qed.

Lemma mapM_nth_error {A B : Type} (f : A -> result B) (xs : list A)
  (ys : list B) (i : nat) (x : A) :
  mapM f xs = Ok ys -> nth_error xs i = Some x ->
  exists y, nth_error ys i = Some y /\ f x = Ok y.
Proof.
  revert ys i. induction xs as [| x0 xs IH]; intros ys i Hm Hx.
  - destruct i; discriminate.
  - cbn [mapM] in Hm. destruct (f x0) as [y0 | e] eqn:E0; [| discriminate].
    destruct (mapM f xs) as [ys' | e]; [| discriminate].
    injection Hm as <-. destruct i as [| i]; cbn [nth_error] in *.
    + injection Hx as <-. eauto.
    + apply (IH ys' i eq_refl Hx).
Qed.

Lemma range_length (lo hi : nat) : List.length (range lo hi) = (hi - lo)%nat.
Proof. unfold range. apply length_seq. Qed.

(** For [n <= 1] the start specification is returned as it was given, without
    passing through Matplotlib. *)
Lemma gradient_palette_single `{MplColors} (start_hex end_hex : string) (n : Z) :
  n <= 1 -> gradient_palette start_hex end_hex n = Ok [start_hex].
Proof.
  intro Hn. unfold gradient_palette.
  destruct (Z.leb_spec n 1) as [_ | Hgt]; [reflexivity | lia].
Qed.

(** For [n > 1] a palette that is returned has exactly [n] entries. *)
Lemma gradient_palette_length `{MplColors} (start_hex end_hex : string) (n : Z)
  (palette : list string) :
  1 < n -> gradient_palette start_hex end_hex n = Ok palette ->
  Z.of_nat (List.length palette) = n.
Proof.
  intros Hn Hp. unfold gradient_palette in Hp.
  destruct (Z.leb_spec n 1) as [Hle | _]; [lia |].
  apply bind_ok in Hp as (s_hex & _ & Hp).
  apply bind_ok in Hp as (e_hex & _ & Hp).
  apply mapM_length in Hp. rewrite Hp, range_length. lia.
Qed.

(** C4, where the code departs from the claim: asked for one colour from a
    named start colour, [gradient_palette] returns the name itself, not the
    canonical hex that Matplotlib gives for it (and that the branch for
    [n > 1] computes first). *)
Theorem gradient_palette_single_not_canonical :
  gradient_palette (H := Samples.basic_colors) "red" "blue" 1 = Ok ["red"]
  /\ to_hex (MplColors := Samples.basic_colors) "red" = Some "#ff0000"
  /\ gradient_palette (H := Samples.basic_colors) "red" "blue" 2
     = Ok ["#ff0000"; "#0000ff"].
Proof. repeat split; vm_compute; reflexivity. Qed.

(** The examples of the docstring and of the tests. *)
Example gradient_palette_examples :
  gradient_palette (H := Samples.basic_colors) "#000000" "#ffffff" 3
  = Ok ["#000000"; "#808080"; "#ffffff"]
  /\ gradient_palette (H := Samples.basic_colors) "#ff0000" "#0000ff" 1
     = Ok ["#ff0000"]
  /\ gradient_palette (H := Samples.basic_colors) "#000000" "#ffffff" 5
     = Ok ["#000000"; "#404040"; "#808080"; "#bfbfbf"; "#ffffff"]
  /\ _interpolate_color "#000000" "#ffffff" 0.5 = Ok "#808080".
Proof. repeat split; vm_compute; reflexivity. Qed.

(* ===================================================================== *)
(** * The node processor                                                   *)
(* ===================================================================== *)

Section NodeProcessor.
Context {num : Type} `{PyNum num} `{MplColors} `{WordSep}.

(** The count the node at index [i] is compared with. *)
Lemma previous_count_inv (data : list CohortNode) (i : nat) (node : CohortNode)
  (n_prev : Z) :
  (if (0 <? i)%nat then prev <- getitem data (i - 1) ;; Ok (N prev)
   else Ok (N node)) = Ok n_prev ->
  (i = 0%nat /\ n_prev = N node)
  \/ (exists prev, (0 < i)%nat /\ nth_error data (i - 1) = Some prev
                   /\ n_prev = N prev).
Proof.
  destruct (Nat.ltb_spec 0 i) as [Hi | Hi]; intro Hp.
  - right. apply bind_ok in Hp as (prev & Hprev & Hp). injection Hp as <-.
    exists prev. unfold getitem in Hprev.
    destruct (nth_error data (i - 1)) as [x |]; [| discriminate].
    injection Hprev as ->. auto.
  - left. injection Hp as <-. split; [lia | reflexivity].
Qed.

(** Everything a successful iteration of the loop has established. *)
Lemma process_node_inv (cfg : StyleConfig num) (main_pal excl_pal : list string)
  (data : list CohortNode) (i : nat) (node : CohortNode) (p : ProcessedNode num) :
  process_node cfg main_pal excl_pal data i node = Ok p ->
  exists n_prev title body wrapped main_default excl_default,
    ((i = 0%nat /\ n_prev = N node)
     \/ (exists prev, (0 < i)%nat /\ nth_error data (i - 1) = Some prev
                      /\ n_prev = N prev))
    /\ N node <= n_prev
    /\ wrap_lines (str_or (strip (get (heading node) ""))
                          ("Step " ++ str_of_int (Z.of_nat i + 1)))
                  (main_title_width (layout cfg)) = Ok title
    /\ wrap_lines (strip (get (exclusion_description node) "Excluded"))
                  (exclusion_text_width (layout cfg)) = Ok wrapped
    /\ nth_error main_pal i = Some main_default
    /\ nth_error excl_pal i = Some excl_default
    /\ resolve_color
         (Some (get (color node) (get (color_name node) main_default)))
         main_default (allow_named_colors (colors cfg)) = Ok (node_color p)
    /\ resolve_color
         (Some (get (exclusion_color node)
                    (get (exclusion_color_name node) excl_default)))
         excl_default (allow_named_colors (colors cfg)) = Ok (excl_color p)
    /\ n p = N node
    /\ excl_n p = n_prev - N node
    /\ title_lines p = title
    /\ body_lines p = body
    /\ excl_lines p = (wrapped ++ [count_line (n_prev - N node)])%list
    /\ main_h p
       = pymax (min_main_height (box_geometry cfg))
           (padding (box_geometry cfg)
            + title_line_height (box_geometry cfg)
              * of_int (Z.max 1 (Z.of_nat (List.length title)))
            + title_body_gap (box_geometry cfg)
            + body_line_height (box_geometry cfg)
              * of_int (Z.max 1 (Z.of_nat (List.length body))))%num
    /\ excl_h p
       = pymax (min_exclusion_height (box_geometry cfg))
           (padding (box_geometry cfg)
            + body_line_height (box_geometry cfg)
              * of_int (Z.max 1 (Z.of_nat
                  (List.length (wrapped ++ [count_line (n_prev - N node)])%list))))%num.
Proof.
  unfold process_node. intro Hp.
  apply bind_ok in Hp as (n_prev & Hprev & Hp).
  apply previous_count_inv in Hprev.
  destruct (Z.ltb_spec (n_prev - N node) 0) as [Hneg | Hpos]; [discriminate |].
  apply bind_ok in Hp as (title & Htitle & Hp).
  apply bind_ok in Hp as (body & Hbody & Hp).
  apply bind_ok in Hp as (wrapped & Hwrapped & Hp).
  apply bind_ok in Hp as (main_default & Hmd & Hp).
  apply bind_ok in Hp as (excl_default & Hed & Hp).
  apply bind_ok in Hp as (c & Hc & Hp).
  apply bind_ok in Hp as (ec & Hec & Hp).
  injection Hp as <-. cbn.
  unfold getitem in Hmd, Hed.
  destruct (nth_error main_pal i) as [md |]; [| discriminate].
  destruct (nth_error excl_pal i) as [ed |]; [| discriminate].
  injection Hmd as ->. injection Hed as ->.
  exists n_prev, title, body, wrapped, main_default, excl_default.
  repeat (split; [first [assumption | reflexivity | lia] |]).
  reflexivity.
Qed.

(** The loop keeps the order of [data]: the node at index [k] of the rest
    is processed as index [i + k]. *)
Lemma process_from_nth (cfg : StyleConfig num) (main_pal excl_pal : list string)
  (data nodes : list CohortNode) (i k : nat) (ps : list (ProcessedNode num))
  (node : CohortNode) :
  process_from cfg main_pal excl_pal data i nodes = Ok ps ->
  nth_error nodes k = Some node ->
  exists p, nth_error ps k = Some p
            /\ process_node cfg main_pal excl_pal data (i + k) node = Ok p.
Proof.
  revert i k ps. induction nodes as [| nd nodes IH]; intros i k ps Hps Hk.
  - destruct k; discriminate.
  - cbn [process_from] in Hps.
    apply bind_ok in Hps as (p0 & Hp0 & Hps).
    apply bind_ok in Hps as (ps' & Hps' & Hps). injection Hps as <-.
    destruct k as [| k]; cbn [nth_error] in *.
    + injection Hk as <-. exists p0. now rewrite Nat.add_0_r.
    + destruct (IH (S i) k ps' Hps' Hk) as (p & Hp & Hnode).
      exists p. split; [assumption |]. now rewrite Nat.add_succ_r.
Qed.

Lemma process_from_length (cfg : StyleConfig num) (main_pal excl_pal : list string)
  (data nodes : list CohortNode) (i : nat) (ps : list (ProcessedNode num)) :
  process_from cfg main_pal excl_pal data i nodes = Ok ps ->
  List.length ps = List.length nodes.
Proof.
  revert i ps. induction nodes as [| nd nodes IH]; intros i ps Hps;
    cbn [process_from] in Hps.
  - injection Hps as <-. reflexivity.
  - apply bind_ok in Hps as (p0 & _ & Hps).
    apply bind_ok in Hps as (ps' & Hps' & Hps). injection Hps as <-.
    cbn [List.length]. now rewrite (IH _ _ Hps').
Qed.

(** The loop stops at the first node that raises. *)
Lemma process_from_raises (cfg : StyleConfig num) (main_pal excl_pal : list string)
  (data before after : list CohortNode) (node : CohortNode) (i : nat)
  (ps : list (ProcessedNode num)) (e : exn) :
  process_from cfg main_pal excl_pal data i before = Ok ps ->
  process_node cfg main_pal excl_pal data (i + List.length before) node
    = Raise e ->
  process_from cfg main_pal excl_pal data i (before ++ node :: after) = Raise e.
Proof.
  revert i ps. induction before as [| nd before IH]; intros i ps Hps Hnode.
  - cbn [List.length] in Hnode. rewrite Nat.add_0_r in Hnode.
    cbn [app process_from]. rewrite Hnode. reflexivity.
  - cbn [process_from] in Hps.
    apply bind_ok in Hps as (p0 & Hp0 & Hps).
    apply bind_ok in Hps as (ps' & Hps' & Hps).
    cbn [app process_from]. rewrite Hp0. cbn [bind].
    rewrite (IH (S i) ps' Hps').
    + reflexivity.
    + cbn [List.length] in Hnode. now rewrite Nat.add_succ_r in Hnode.
Qed.

(** A prefix of the loop succeeds when the whole loop does, and conversely the
    outcome on a prefix does not depend on what follows it. *)
Lemma process_from_prefix (cfg : StyleConfig num) (main_pal excl_pal : list string)
  (data before after : list CohortNode) (i : nat)
  (ps : list (ProcessedNode num)) :
  process_from cfg main_pal excl_pal data i (before ++ after) = Ok ps ->
  exists ps1, process_from cfg main_pal excl_pal data i before = Ok ps1.
Proof.
  revert i ps. induction before as [| nd before IH]; intros i ps Hps.
  - exists []. reflexivity.
  - cbn [app process_from] in Hps.
    apply bind_ok in Hps as (p0 & Hp0 & Hps).
    apply bind_ok in Hps as (ps' & Hps' & _).
    destruct (IH (S i) ps' Hps') as (ps1 & Hps1).
    exists (p0 :: ps1). cbn [process_from]. rewrite Hp0. cbn [bind].
    rewrite Hps1. reflexivity.
Qed.

End NodeProcessor.

(* ===================================================================== *)
(** * The ordering check                                                   *)
(* ===================================================================== *)

Section Ordering.
Context {num : Type} `{PyNum num} `{MplColors} `{WordSep}.

Lemma ordering_message_names_index (i : nat) (n_curr : Z) :
  occurs_in (str_of_int (Z.of_nat i)) (ordering_message i n_curr).
Proof. unfold ordering_message. apply occurs_in_middle. Qed.

Lemma ordering_message_names_count (i : nat) (n_curr : Z) :
  occurs_in (str_of_int n_curr) (ordering_message i n_curr).
Proof.
  exists ("Node " ++ str_of_int (Z.of_nat i) ++ " has more patients ("),
         ") than previous step.".
  unfold ordering_message. rewrite !append_assoc. reflexivity.
Qed.

(** A node whose count exceeds its predecessor's raises before anything else
    is computed for it. *)
Lemma process_node_ordering (cfg : StyleConfig num)
  (main_pal excl_pal : list string) (data : list CohortNode) (i : nat)
  (node prev : CohortNode) :
  (0 < i)%nat -> nth_error data (i - 1) = Some prev -> N prev < N node ->
  process_node cfg main_pal excl_pal data i node
  = Raise (ValueError (ordering_message i (N node))).
Proof.
  intros Hi Hprev Hlt. unfold process_node, getitem.
  destruct (Nat.ltb_spec 0 i) as [_ | Hle]; [| lia].
  rewrite Hprev. cbn [bind].
  destruct (Z.ltb_spec (N prev - N node) 0) as [_ | Hge]; [reflexivity | lia].
Qed.

(** C2 (as the code has it).  Let the node at index [i >= 1] have a count
    above its predecessor's, and let the palettes and every node before it be
    computed without error.  Then the call raises the ordering [ValueError];
    its message names the index [i] and the count of node [i].  (It does not
    carry the predecessor's count: see the counterexample.) *)
Theorem ordering_error_names_index_and_count (cfg : StyleConfig num)
  (kwargs : Kwargs) (before after : list CohortNode) (node prev : CohortNode)
  (main_pal excl_pal : list string) (ps : list (ProcessedNode num)) :
  let data := (before ++ node :: after)%list in
  let i := List.length before in
  nth_error data (i - 1) = Some prev ->
  (1 <= i)%nat ->
  N prev < N node ->
  choose_palette (main_palette kwargs) (main_start (colors cfg))
    (main_end (colors cfg)) (Z.of_nat (List.length data)) = Ok main_pal ->
  choose_palette (exclusion_palette kwargs) (exclusion_start (colors cfg))
    (exclusion_end (colors cfg)) (Z.of_nat (List.length data)) = Ok excl_pal ->
  process_from cfg main_pal excl_pal data 0 before = Ok ps ->
  plot_cohort_flow_diagram cfg kwargs data
  = Raise (ValueError (ordering_message i (N node)))
  /\ occurs_in (str_of_int (Z.of_nat i)) (ordering_message i (N node))
  /\ occurs_in (str_of_int (N node)) (ordering_message i (N node)).
Proof.
  intros data i Hprev Hi Hlt Hmain Hexcl Hbefore.
  split; [| split; [apply ordering_message_names_index
                   | apply ordering_message_names_count]].
  destruct before as [| b0 bs]; [cbn in Hi; lia |].
  subst data i. unfold plot_cohort_flow_diagram.
  change ((b0 :: bs) ++ node :: after)%list
    with (b0 :: (bs ++ node :: after))%list in *.
  cbv iota. rewrite Hmain, Hexcl. cbn [bind].
  change (b0 :: (bs ++ node :: after))%list
    with ((b0 :: bs) ++ node :: after)%list in *.
  rewrite (process_from_raises cfg main_pal excl_pal _ (b0 :: bs) after node 0
             ps (ValueError (ordering_message (List.length (b0 :: bs)) (N node)))
             Hbefore).
  - reflexivity.
  - cbn [Nat.add]. apply (process_node_ordering _ _ _ _ _ _ prev);
      [lia | assumption | assumption].
Qed.

End Ordering.

(** The test of the package: counts 50 then 100. *)
Lemma ordering_error_witness :
  plot_cohort_flow_diagram (H0 := Samples.basic_colors)
    (H1 := Samples.whitespace_runs)
    (Samples.white_style Samples.dec_float) Samples.no_kwargs
    [Samples.node 50 (Some "A") None; Samples.node 100 (Some "B") None]
  = Raise (ValueError "Node 1 has more patients (100) than previous step.").
Proof.
  refine (proj1 (ordering_error_names_index_and_count
            (H0 := Samples.basic_colors) (H1 := Samples.whitespace_runs)
            (Samples.white_style Samples.dec_float) Samples.no_kwargs
            [Samples.node 50 (Some "A") None] []
            (Samples.node 100 (Some "B") None) (Samples.node 50 (Some "A") None)
            ["#ffffff"; "#ffffff"] ["#ffffff"; "#ffffff"] _ _ _ _ _ _ _)).
  - reflexivity.
  - cbn. lia.
  - cbn. lia.
  - vm_compute. reflexivity.
  - vm_compute. reflexivity.
  - vm_compute. reflexivity.
Defined.

(** C2 as stated fails: the error raised for counts 50 then 100 is the
    message below, in which the previous count 50 does not occur. *)
Lemma ordering_error_omits_previous_count :
  exists msg,
    plot_cohort_flow_diagram (H0 := Samples.basic_colors)
      (H1 := Samples.whitespace_runs)
      (Samples.white_style Samples.dec_float) Samples.no_kwargs
      [Samples.node 50 (Some "A") None; Samples.node 100 (Some "B") None]
    = Raise (ValueError msg)
    /\ contains msg (str_of_int 100) = true
    /\ contains msg (str_of_int 50) = false.
Proof.
  exists "Node 1 has more patients (100) than previous step.".
  repeat split; vm_compute; reflexivity.
Qed.

(* ===================================================================== *)
(** * Exclusion text and palette overrides                                 *)
(* ===================================================================== *)

Section Rendering.
Context {num : Type} `{PyNum num} `{MplColors} `{WordSep}.

(** What a successful call has gone through. *)
Lemma plot_inv (cfg : StyleConfig num) (kwargs : Kwargs)
  (data : list CohortNode) (d : Diagram num) :
  plot_cohort_flow_diagram cfg kwargs data = Ok d ->
  data <> []
  /\ exists main_pal excl_pal,
       choose_palette (main_palette kwargs) (main_start (colors cfg))
         (main_end (colors cfg)) (Z.of_nat (List.length data)) = Ok main_pal
       /\ choose_palette (exclusion_palette kwargs)
            (exclusion_start (colors cfg)) (exclusion_end (colors cfg))
            (Z.of_nat (List.length data)) = Ok excl_pal
       /\ process_from cfg main_pal excl_pal data 0 data
          = Ok (processed_nodes d)
       /\ geometry cfg (processed_nodes d)
          = Ok (transition_gaps d, centers_y d, total_height d).
Proof.
  unfold plot_cohort_flow_diagram. destruct data as [| d0 data']; [discriminate |].
  intro Hd. split; [discriminate |].
  apply bind_ok in Hd as (main_pal & Hmain & Hd).
  apply bind_ok in Hd as (excl_pal & Hexcl & Hd).
  apply bind_ok in Hd as (ps & Hps & Hd).
  apply bind_ok in Hd as ([[gaps centers] total] & Hgeo & Hd).
  injection Hd as <-. exists main_pal, excl_pal. cbn. auto.
Qed.

(** C8 (as the code has it).  In a diagram that is computed, the exclusion
    lines of every node are the wrapped, trimmed exclusion description
    followed by the line [(n = excluded)]; the description is ["Excluded"]
    only when the node has no [exclusion_description] key, and an empty
    description contributes no line at all. *)
Theorem exclusion_lines_of_node (cfg : StyleConfig num) (kwargs : Kwargs)
  (data : list CohortNode) (d : Diagram num) (i : nat) (node : CohortNode) :
  plot_cohort_flow_diagram cfg kwargs data = Ok d ->
  nth_error data i = Some node ->
  exists p wrapped,
    nth_error (processed_nodes d) i = Some p
    /\ wrap_lines (strip (get (exclusion_description node) "Excluded"))
                  (exclusion_text_width (layout cfg)) = Ok wrapped
    /\ excl_lines p = (wrapped ++ [count_line (excl_n p)])%list
    /\ last (excl_lines p) "" = count_line (excl_n p)
    /\ (exclusion_description node = None ->
        wrap_lines "Excluded" (exclusion_text_width (layout cfg)) = Ok wrapped)
    /\ (exclusion_description node = Some "" ->
        excl_lines p = [count_line (excl_n p)]).
Proof.
  intros Hd Hnode.
  apply plot_inv in Hd as (_ & main_pal & excl_pal & _ & _ & Hps & _).
  destruct (process_from_nth _ _ _ _ _ _ _ _ _ Hps Hnode) as (p & Hp & Hproc).
  apply process_node_inv in Hproc
    as (n_prev & title & body & wrapped & md & ed & _ & _ & _ & Hw & _ & _ & _
        & _ & _ & Hexcl & _ & _ & Hlines & _).
  exists p, wrapped. rewrite Hexcl.
  split; [assumption |]. split; [assumption |]. split; [assumption |].
  split; [rewrite Hlines; apply last_last |].
  split.
  - intros Hnone. rewrite Hnone in Hw. exact Hw.
  - intros Hempty. rewrite Hempty in Hw. cbn in Hw. injection Hw as <-.
    exact Hlines.
Qed.

(** C10.  An empty palette override is skipped: the call is the one without
    the override, and the palette is the gradient of the style's end points.
    A non-empty override is the palette: a node without colour keys gets the
    override's entry at its index as its default colour. *)
Theorem empty_palette_override_ignored :
  (forall (cfg : StyleConfig num) (excl : option (list string)) data,
      plot_cohort_flow_diagram cfg
        {| main_palette := Some []; exclusion_palette := excl |} data
      = plot_cohort_flow_diagram cfg
          {| main_palette := None; exclusion_palette := excl |} data)
  /\ (forall (cfg : StyleConfig num) (main : option (list string)) data,
      plot_cohort_flow_diagram cfg
        {| main_palette := main; exclusion_palette := Some [] |} data
      = plot_cohort_flow_diagram cfg
          {| main_palette := main; exclusion_palette := None |} data)
  /\ (forall start_hex end_hex count,
      choose_palette (Some []) start_hex end_hex count
      = gradient_palette start_hex end_hex count)
  /\ (forall (cfg : StyleConfig num) c cs excl data d i node,
      plot_cohort_flow_diagram cfg
        {| main_palette := Some (c :: cs); exclusion_palette := excl |} data
      = Ok d ->
      nth_error data i = Some node ->
      color node = None -> color_name node = None ->
      exists p entry,
        nth_error (processed_nodes d) i = Some p
        /\ nth_error (c :: cs) i = Some entry
        /\ resolve_color (Some entry) entry (allow_named_colors (colors cfg))
           = Ok (node_color p))
  /\ (forall (cfg : StyleConfig num) main c cs data d i node,
      plot_cohort_flow_diagram cfg
        {| main_palette := main; exclusion_palette := Some (c :: cs) |} data
      = Ok d ->
      nth_error data i = Some node ->
      exclusion_color node = None -> exclusion_color_name node = None ->
      exists p entry,
        nth_error (processed_nodes d) i = Some p
        /\ nth_error (c :: cs) i = Some entry
        /\ resolve_color (Some entry) entry (allow_named_colors (colors cfg))
           = Ok (excl_color p)).
Proof.
  split; [reflexivity |]. split; [reflexivity |]. split; [reflexivity |].
  split.
  - intros cfg c cs excl data d i node Hd Hnode Hc Hcn.
    apply plot_inv in Hd as (_ & main_pal & excl_pal & Hmain & _ & Hps & _).
    cbn in Hmain. injection Hmain as <-.
    destruct (process_from_nth _ _ _ _ _ _ _ _ _ Hps Hnode) as (p & Hp & Hproc).
    apply process_node_inv in Hproc
      as (n_prev & title & body & wrapped & md & ed & _ & _ & _ & _ & Hmd & _
          & Hres & _).
    rewrite Hc, Hcn in Hres. exists p, md. auto.
  - intros cfg main c cs data d i node Hd Hnode Hc Hcn.
    apply plot_inv in Hd as (_ & main_pal & excl_pal & _ & Hexcl & Hps & _).
    cbn in Hexcl. injection Hexcl as <-.
    destruct (process_from_nth _ _ _ _ _ _ _ _ _ Hps Hnode) as (p & Hp & Hproc).
    apply process_node_inv in Hproc
      as (n_prev & title & body & wrapped & md & ed & _ & _ & _ & _ & _ & Hed
          & _ & Hres & _).
    rewrite Hc, Hcn in Hres. exists p, ed. auto.
Qed.

End Rendering.

(** The second node of the sample cohort: description ["Not eligible"],
    twenty participants excluded. *)
Lemma exclusion_lines_of_node_witness :
  exists d,
    plot_cohort_flow_diagram (H0 := Samples.basic_colors)
      (H1 := Samples.whitespace_runs)
      (Samples.white_style Samples.dec_float) Samples.no_kwargs
      Samples.sample_data = Ok d
    /\ exists p wrapped,
         nth_error (processed_nodes d) 1 = Some p
         /\ wrap_lines (H := Samples.whitespace_runs) "Not eligible" 30
            = Ok wrapped
         /\ excl_lines p = (wrapped ++ [count_line (excl_n p)])%list
         /\ last (excl_lines p) "" = count_line (excl_n p)
         /\ (Some "Not eligible" = None ->
             wrap_lines (H := Samples.whitespace_runs) "Excluded" 30 = Ok wrapped)
         /\ (Some "Not eligible" = Some "" ->
             excl_lines p = [count_line (excl_n p)]).
Proof.
  eexists. split; [vm_compute; reflexivity |].
  apply (exclusion_lines_of_node (H0 := Samples.basic_colors)
           (H1 := Samples.whitespace_runs)
           (Samples.white_style Samples.dec_float) Samples.no_kwargs
           Samples.sample_data _ 1
           (Samples.node 80 (Some "Screened") (Some "Not eligible")));
    [vm_compute; reflexivity | reflexivity].
Defined.

(** C8 as stated fails: a node whose exclusion description is the empty
    string gets the count line alone, not ["Excluded"] and the count line. *)
Lemma empty_exclusion_description_counterexample :
  exists d p,
    plot_cohort_flow_diagram (H0 := Samples.basic_colors)
      (H1 := Samples.whitespace_runs)
      (Samples.white_style Samples.dec_float) Samples.no_kwargs
      [Samples.node 100 (Some "Registered") None;
       Samples.node 80 (Some "Screened") (Some "")] = Ok d
    /\ nth_error (processed_nodes d) 1 = Some p
    /\ excl_lines p = ["(n = 20)"]
    /\ wrap_lines (H := Samples.whitespace_runs) "Excluded" 30 = Ok ["Excluded"]
    /\ excl_lines p <> ["Excluded"; "(n = 20)"].
Proof.
  eexists. eexists.
  split; [vm_compute; reflexivity |].
  split; [cbn; reflexivity |].
  split; [reflexivity |].
  split; [vm_compute; reflexivity | discriminate].
Qed.

(** An override of two named colours on a cohort of two nodes: the nodes
    get the canonical hex of the override's entries. *)
Lemma palette_override_witness :
  exists d p entry,
    plot_cohort_flow_diagram (H0 := Samples.basic_colors)
      (H1 := Samples.whitespace_runs)
      (Samples.white_style Samples.dec_float)
      {| main_palette := Some ["red"; "blue"]; exclusion_palette := Some [] |}
      [Samples.node 100 None None; Samples.node 80 None None] = Ok d
    /\ nth_error (processed_nodes d) 1 = Some p
    /\ nth_error ["red"; "blue"] 1 = Some entry
    /\ resolve_color (H := Samples.basic_colors) (Some entry) entry true
       = Ok (node_color p).
Proof.
  pose proof (empty_palette_override_ignored (num := float)
                (H0 := Samples.basic_colors) (H1 := Samples.whitespace_runs))
    as (_ & _ & _ & Hmain & _).
  assert (Hd : exists d,
             plot_cohort_flow_diagram (H0 := Samples.basic_colors)
               (H1 := Samples.whitespace_runs)
               (Samples.white_style Samples.dec_float)
               {| main_palette := Some ["red"; "blue"];
                  exclusion_palette := Some [] |}
               [Samples.node 100 None None; Samples.node 80 None None] = Ok d)
    by (eexists; vm_compute; reflexivity).
  destruct Hd as (d & Hd).
  destruct (Hmain (Samples.white_style Samples.dec_float) "red" ["blue"]
              (Some []) [Samples.node 100 None None; Samples.node 80 None None]
              d 1%nat (Samples.node 80 None None) Hd eq_refl eq_refl eq_refl)
    as (p & entry & Hp & Hentry & Hres).
  exists d, p, entry. auto.
Defined.

(* ===================================================================== *)
(** * Text wrapping: [textwrap.wrap] and [wrap_lines]                       *)
(* ===================================================================== *)
Lemma len_join (chunks : list string) : len (join chunks) = total_len chunks.
Proof.
  unfold join. induction chunks as [| c chunks IH]; [reflexivity |].
  destruct chunks as [| c' chunks].
  - cbn [String.concat total_len]. lia.
  - change (String.concat "" (c :: c' :: chunks))
      with (c ++ "" ++ String.concat "" (c' :: chunks))%string.
    rewrite len_append. cbn [append]. rewrite IH. reflexivity.
Qed.

Lemma total_len_app (a b : list string) :
  total_len (a ++ b) = total_len a + total_len b.
Proof. induction a as [| c a IH]; cbn [app total_len]; lia. Qed.

Lemma total_len_nonneg (a : list string) : 0 <= total_len a.
Proof.
  induction a as [| c a IH]; cbn [total_len]; [lia |].
  pose proof (len_nonneg c). lia.
Qed.

Lemma total_len_removelast (a : list string) :
  total_len (removelast a) <= total_len a.
Proof.
  induction a as [| c a IH]; [reflexivity |].
  destruct a as [| c' a].
  - cbn. pose proof (len_nonneg c). lia.
  - change (removelast (c :: c' :: a)) with (c :: removelast (c' :: a)).
    cbn [total_len] in *. lia.
Qed.

(** The inner loop: what it moves is a prefix of the chunks, the line stays
    within the width, and it stops at a chunk that does not fit. *)
Lemma take_fitting_spec (width : Z) (chunks cur_line : list string) (cur_len : Z) :
  total_len cur_line = cur_len -> cur_len <= width ->
  exists taken rest,
    take_fitting width cur_line cur_len chunks
    = ((cur_line ++ taken)%list, total_len (cur_line ++ taken), rest)
    /\ chunks = (taken ++ rest)%list
    /\ total_len (cur_line ++ taken) <= width
    /\ match rest with
       | [] => True
       | c :: _ => width < total_len (cur_line ++ taken) + len c
       end.
Proof.
  revert cur_line cur_len.
  induction chunks as [| c chunks IH]; intros cur_line cur_len Hlen Hle.
  - exists [], []. rewrite app_nil_r. cbn [take_fitting]. subst cur_len. auto.
  - cbn [take_fitting]. destruct (Z.leb_spec (cur_len + len c) width) as [Hfit | Hno].
    + destruct (IH (cur_line ++ [c])%list (cur_len + len c)) as (taken & rest & Ht & Hc & Hw & Hr).
      * rewrite total_len_app. cbn [total_len]. lia.
      * assumption.
      * exists (c :: taken), rest. rewrite <- app_assoc in Ht, Hw, Hr.
        cbn [app] in *. rewrite Ht. subst chunks. auto.
    + exists [], (c :: chunks). rewrite app_nil_r. subst cur_len.
      repeat split; [lia | lia].
Qed.

Lemma drop_trailing_blank_spec (cur_line : list string) :
  drop_trailing_blank cur_line = cur_line
  \/ drop_trailing_blank cur_line = removelast cur_line.
Proof.
  unfold drop_trailing_blank. destruct (rev cur_line) as [| l r]; [now left |].
  destruct (is_blank l); [now right | now left].
Qed.

Lemma fits_join (width : Z) (chunks cur_line : list string) :
  total_len cur_line <= width -> fits width chunks (join cur_line).
Proof. intro Hle. left. now rewrite len_join. Qed.

Lemma fits_dropped (width : Z) (chunks cur_line : list string) :
  total_len cur_line <= width ->
  fits width chunks (join (drop_trailing_blank cur_line)).
Proof.
  intro Hle. apply fits_join.
  destruct (drop_trailing_blank_spec cur_line) as [-> | ->]; [assumption |].
  pose proof (total_len_removelast cur_line). lia.
Qed.

Lemma drop_trailing_blank_nil (cur_line : list string) :
  drop_trailing_blank cur_line = [] ->
  Forall (fun c => is_blank c = true) cur_line.
Proof.
  unfold drop_trailing_blank.
  destruct (rev cur_line) as [| l r] eqn:E.
  - intros ->. constructor.
  - assert (Hc : cur_line = (rev r ++ [l])%list).
    { rewrite <- (rev_involutive cur_line), E. reflexivity. }
    destruct (is_blank l) eqn:Hl.
    + rewrite Hc, removelast_last. intros ->. cbn [app].
      constructor; [assumption | constructor].
    + intros ->. discriminate E.
Qed.

(** One iteration of the outer loop: it uses up a non-empty prefix of the
    chunks; it adds at most one line, which fits or is a single wide chunk;
    and when it adds no line, every chunk it used was blank. *)
Lemma wrap_one_line_spec (width : Z) (lines chunks : list string) :
  0 < width -> chunks <> [] ->
  exists lines' chunks' used,
    wrap_one_line width lines chunks = (lines', chunks')
    /\ chunks = (used ++ chunks')%list
    /\ used <> []
    /\ ((lines' = lines /\ Forall (fun c => is_blank c = true) used)
        \/ exists line, lines' = (lines ++ [line])%list /\ fits width used line).
Proof.
  intros Hw Hne. unfold wrap_one_line.
  set (chunks1 := match chunks, lines with
                  | c :: rest, _ :: _ => if is_blank c then rest else chunks
                  | _, _ => chunks
                  end).
  assert (Hlead : exists lead, chunks = (lead ++ chunks1)%list
                               /\ Forall (fun c => is_blank c = true) lead).
  { subst chunks1. destruct chunks as [| c rest]; [now exists [] |].
    destruct lines as [| l0 ls]; [now exists [] |].
    destruct (is_blank c) eqn:Hc; [exists [c] | exists []]; split; auto. }
  destruct Hlead as (lead & Hlead & Hblank).
  destruct (take_fitting_spec width chunks1 [] 0 eq_refl ltac:(lia))
    as (taken & rest & Htake & Hsplit & Hlen & Hstop).
  cbn [app] in Htake, Hlen, Hstop. rewrite Htake.
  (* the part of the iteration after the inner loop *)
  assert (Hfin : forall cur_line rest',
             (lead ++ cur_line)%list <> [] ->
             chunks = ((lead ++ cur_line) ++ rest')%list ->
             fits width (lead ++ cur_line) (join (drop_trailing_blank cur_line)) ->
             exists lines' chunks' used,
               (let cl := drop_trailing_blank cur_line in
                match cl with
                | [] => (lines, rest')
                | _ :: _ => ((lines ++ [join cl])%list, rest')
                end) = (lines', chunks')
               /\ chunks = (used ++ chunks')%list /\ used <> []
               /\ ((lines' = lines /\ Forall (fun c => is_blank c = true) used)
                   \/ exists line, lines' = (lines ++ [line])%list
                                   /\ fits width used line)).
  { intros cur_line rest' Hu Hc Hf. cbv zeta.
    destruct (drop_trailing_blank cur_line) as [| x xs] eqn:E.
    - exists lines, rest', (lead ++ cur_line)%list.
      repeat split; auto. left. split; [reflexivity |].
      apply Forall_app. split; [assumption | now apply drop_trailing_blank_nil].
    - exists (lines ++ [join (x :: xs)])%list, rest', (lead ++ cur_line)%list.
      repeat split; auto. right. eauto. }
  destruct rest as [| c rest0].
  - (* every chunk was taken *)
    rewrite app_nil_r in Hsplit.
    apply (Hfin taken []).
    + rewrite <- Hsplit, <- Hlead. assumption.
    + rewrite app_nil_r. congruence.
    + apply fits_dropped. assumption.
  - destruct (Z.ltb_spec width (len c)) as [Hlong | Hshort].
    + (* a chunk wider than the line *)
      unfold _handle_long_word. destruct taken as [| t ts].
      * apply (Hfin [c] rest0).
        -- destruct lead; discriminate.
        -- rewrite <- app_assoc. cbn [app] in *. congruence.
        -- destruct (drop_trailing_blank_spec [c]) as [-> | ->].
           ++ right. unfold join. cbn [String.concat]. split; [assumption |].
              apply in_or_app. right. now left.
           ++ left. cbn. lia.
      * apply (Hfin (t :: ts) (c :: rest0)).
        -- destruct lead; discriminate.
        -- rewrite <- app_assoc. congruence.
        -- apply fits_dropped. assumption.
    + (* the next chunk fits an empty line, so something was taken *)
      destruct taken as [| t ts].
      * cbn [total_len] in Hstop. lia.
      * apply (Hfin (t :: ts) (c :: rest0)).
        -- destruct lead; discriminate.
        -- rewrite <- app_assoc. congruence.
        -- apply fits_dropped. assumption.
Qed.

Lemma fits_incl (width : Z) (used all : list string) (line : string) :
  incl used all -> fits width used line -> fits width all line.
Proof. intros Hi [Hle | [Hgt Hin]]; [now left | right; auto]. Qed.

(** The outer loop with one unit of fuel per chunk runs until no chunk is
    left; every line it adds fits or is a single wide chunk; and it returns
    at least one line as soon as it has one or a chunk is not blank. *)
Lemma wrap_loop_spec (fuel : nat) (width : Z) (all : list string) :
  0 < width ->
  forall lines chunks,
    (List.length chunks <= fuel)%nat ->
    incl chunks all ->
    Forall (fits width all) lines ->
    exists lines',
      wrap_loop fuel width lines chunks = (lines', [])
      /\ Forall (fits width all) lines'
      /\ (lines <> [] \/ (exists c, In c chunks /\ is_blank c = false) ->
          lines' <> []).
Proof.
  intro Hw. induction fuel as [| fuel IH]; intros lines chunks Hfuel Hincl Hlines.
  - destruct chunks; [| cbn in Hfuel; lia]. exists lines.
    split; [reflexivity |]. split; [assumption |].
    intros [Hl | (c & [] & _)]. assumption.
  - destruct chunks as [| c chunks].
    { exists lines. split; [reflexivity |]. split; [assumption |].
      intros [Hl | (c & [] & _)]. assumption. }
    cbn [wrap_loop].
    destruct (wrap_one_line_spec width lines (c :: chunks) Hw ltac:(discriminate))
      as (lines1 & chunks1 & used & Hstep & Hsplit & Hused & Hline).
    rewrite Hstep.
    destruct (IH lines1 chunks1) as (lines' & Hloop & Hfits & Hsome).
    + assert (Hl : List.length (c :: chunks)
                   = (List.length used + List.length chunks1)%nat)
        by (rewrite Hsplit; apply length_app).
      destruct used; [contradiction |]. cbn [List.length] in *. lia.
    + intros x Hx. apply Hincl. rewrite Hsplit. apply in_or_app. now right.
    + destruct Hline as [[-> _] | (line & -> & Hfit)]; [assumption |].
      apply Forall_app. split; [assumption |]. constructor; [| constructor].
      apply (fits_incl width used all); [| assumption].
      intros x Hx. apply Hincl. rewrite Hsplit. apply in_or_app. now left.
    + exists lines'. split; [assumption |]. split; [assumption |].
      intro Hcase. apply Hsome.
      destruct Hline as [[-> Hblank] | (line & -> & _)].
      * destruct Hcase as [Hl | (x & Hx & Hnb)]; [now left |].
        rewrite Hsplit in Hx. apply in_app_or in Hx as [Hx | Hx].
        -- rewrite Forall_forall in Hblank. rewrite (Hblank x Hx) in Hnb.
           discriminate.
        -- right. eauto.
      * left. destruct lines; discriminate.
Qed.

Lemma wrap_chunks_spec (width : Z) (chunks : list string) :
  0 < width ->
  exists lines, _wrap_chunks width chunks = Ok lines
                /\ Forall (fits width chunks) lines
                /\ ((exists c, In c chunks /\ is_blank c = false) ->
                    lines <> []).
Proof.
  intro Hw. unfold _wrap_chunks.
  destruct (Z.leb_spec width 0) as [Hle | _]; [lia |].
  destruct (wrap_loop_spec (List.length chunks) width chunks Hw [] chunks
              (le_n _) (incl_refl _) (Forall_nil _))
    as (lines & Hloop & Hfit & Hsome).
  exists lines. rewrite Hloop. cbn [fst].
  split; [reflexivity |]. split; [assumption |].
  intro Hnb. apply Hsome. now right.
Qed.

(** The loop leaves no chunk unprocessed. *)
Lemma wrap_loop_consumes_all (width : Z) (chunks : list string) :
  0 < width -> snd (wrap_loop (List.length chunks) width [] chunks) = [].
Proof.
  intro Hw.
  destruct (wrap_loop_spec (List.length chunks) width chunks Hw [] chunks
              (le_n _) (incl_refl _) (Forall_nil _)) as (lines & Hloop & _).
  now rewrite Hloop.
Qed.

Lemma wrap_one_line_blank (width : Z) (chunk : string) :
  is_blank chunk = true -> wrap_one_line width [] [chunk] = ([], []).
Proof.
  intro Hb. unfold wrap_one_line. cbn [take_fitting].
  destruct (Z.leb_spec (0 + len chunk) width) as [Hfit | Hno].
  - cbn [take_fitting app]. unfold drop_trailing_blank. cbn [rev app].
    rewrite Hb. reflexivity.
  - destruct (Z.ltb_spec width (len chunk)) as [_ | Hle]; [| lia].
    cbn [_handle_long_word]. unfold drop_trailing_blank. cbn [rev app].
    rewrite Hb. reflexivity.
Qed.

(** A text that is one blank chunk wraps to no line at all. *)
Lemma wrap_chunks_blank (width : Z) (chunk : string) :
  0 < width -> is_blank chunk = true -> _wrap_chunks width [chunk] = Ok [].
Proof.
  intros Hw Hb. unfold _wrap_chunks.
  destruct (Z.leb_spec width 0) as [Hle | _]; [lia |].
  cbn [List.length wrap_loop]. rewrite (wrap_one_line_blank width chunk Hb).
  reflexivity.
Qed.

(** What [wrap_lines] returns, case by case.  The empty string gives the
    empty list.  For any other text a width below one is refused by
    [textwrap]; with a width of at least one, [textwrap.wrap] returns lines
    each of which fits the width or is a single chunk of the text wider than
    the width; [wrap_lines] returns these lines, and when there are none it
    returns the text itself as the only line.  There are lines as soon as
    one chunk of the text is not blank; a text that is a single blank chunk
    comes back unchanged, whatever its length. *)
Theorem wrap_lines_behaviour `{WordSep} (text : string) (width : Z) :
  (text = "" -> wrap_lines text width = Ok [])
  /\ (text <> "" -> width <= 0 ->
      wrap_lines text width = Raise (invalid_width width))
  /\ (text <> "" -> 0 < width ->
      exists wrapped,
        textwrap_wrap text width = Ok wrapped
        /\ Forall (fits width (wordsep_split (_munge_whitespace text))) wrapped
        /\ wrap_lines text width
           = Ok (match wrapped with [] => [text] | _ :: _ => wrapped end)
        /\ ((exists c, In c (wordsep_split (_munge_whitespace text))
                       /\ is_blank c = false) ->
            wrapped <> [] /\ wrap_lines text width = Ok wrapped))
  /\ (text <> "" -> 0 < width ->
      wordsep_split (_munge_whitespace text) = [_munge_whitespace text] ->
      is_blank (_munge_whitespace text) = true ->
      wrap_lines text width = Ok [text]).
Proof.
  split; [intros ->; reflexivity |].
  split.
  { intros Hne Hw. unfold wrap_lines, textwrap_wrap, _wrap_chunks.
    apply String.eqb_neq in Hne. rewrite Hne.
    destruct (Z.leb_spec width 0) as [_ | Hgt]; [reflexivity | lia]. }
  split.
  { intros Hne Hw. unfold wrap_lines, textwrap_wrap.
    apply String.eqb_neq in Hne. rewrite Hne.
    destruct (wrap_chunks_spec width (wordsep_split (_munge_whitespace text)) Hw)
      as (wrapped & Hwrap & Hfit & Hsome).
    exists wrapped. rewrite Hwrap. cbn [bind].
    split; [reflexivity |]. split; [assumption |].
    split; [destruct wrapped; reflexivity |].
    intro Hnb. specialize (Hsome Hnb).
    split; [assumption |]. destruct wrapped; [contradiction | reflexivity]. }
  intros Hne Hw Hsplit Hblank. unfold wrap_lines, textwrap_wrap.
  apply String.eqb_neq in Hne. rewrite Hne, Hsplit.
  rewrite (wrap_chunks_blank width _ Hw Hblank). reflexivity.
Qed.

(** Three spaces at width ten, and the docstring's example at width fifteen. *)
Lemma wrap_lines_behaviour_witness :
  wrap_lines (H := Samples.whitespace_runs) "   " 10 = Ok ["   "]
  /\ exists wrapped,
       textwrap_wrap (H := Samples.whitespace_runs)
         "A rather long description text" 15 = Ok wrapped
       /\ Forall (fits 15 (Samples.runs "A rather long description text")) wrapped
       /\ wrap_lines (H := Samples.whitespace_runs)
            "A rather long description text" 15
          = Ok (match wrapped with [] => ["A rather long description text"]
                                 | _ :: _ => wrapped end)
       /\ ((exists c, In c (Samples.runs "A rather long description text")
                      /\ is_blank c = false) ->
           wrapped <> []
           /\ wrap_lines (H := Samples.whitespace_runs)
                "A rather long description text" 15 = Ok wrapped).
Proof.
  split.
  - apply (wrap_lines_behaviour (H := Samples.whitespace_runs) "   " 10);
      [discriminate | lia | reflexivity | reflexivity].
  - apply (wrap_lines_behaviour (H := Samples.whitespace_runs)
             "A rather long description text" 15); [discriminate | lia].
Defined.

(** C5, where the code departs from the claim and from its docstring
    ([Returns an empty list for blank input]).  The guard [if not text]
    catches the empty string only, so for every splitter and every width the
    empty list is returned for the empty string and for no other text.
    Blank text goes on to [textwrap]: three spaces come back as the line of
    three spaces, five spaces at width three as a line of length five that
    is no word, and two no-break spaces around a space as a line of two
    characters. *)
Theorem wrap_lines_blank_input :
  (forall (splitter : WordSep) (text : string) (width : Z),
      wrap_lines (H := splitter) text width = Ok [] <-> text = "")
  /\ wrap_lines (H := Samples.whitespace_runs) "   " 10 = Ok ["   "]
  /\ wrap_lines (H := Samples.whitespace_runs) "     " 3 = Ok ["     "]
  /\ 3 < len "     "
  /\ strip "     " = ""
  /\ (let nbsp := String (ascii_of_nat 160) "" in
      strip (nbsp ++ " " ++ nbsp) = ""
      /\ wrap_lines (H := Samples.whitespace_runs) (nbsp ++ " " ++ nbsp) 10
         = Ok [nbsp ++ " "]).
Proof.
  split.
  { intros splitter text width. split; [| intros ->; reflexivity].
    unfold wrap_lines, textwrap_wrap.
    destruct (String.eqb_spec text "") as [-> | Hne]; [reflexivity |].
    destruct (_wrap_chunks width (wordsep_split (_munge_whitespace text)))
      as [[| line wrapped] | e]; cbn [bind]; intro E; discriminate E. }
  repeat split; vm_compute; reflexivity.
Qed.

(** The docstring's example and the tests of the package. *)
Example wrap_lines_examples :
  wrap_lines (H := Samples.whitespace_runs) "A rather long description text" 15
  = Ok ["A rather long"; "description"; "text"]
  /\ wrap_lines (H := Samples.whitespace_runs) "" 20 = Ok []
  /\ wrap_lines (H := Samples.whitespace_runs) "hello" 20 = Ok ["hello"]
  /\ wrap_lines (H := Samples.whitespace_runs) "one two three four" 10
     = Ok ["one two"; "three four"]
  /\ wrap_lines (H := Samples.whitespace_runs) "supercalifragilistic is long" 5
     = Ok ["supercalifragilistic"; "is"; "long"].
Proof. repeat split; vm_compute; reflexivity. Qed.

(* ===================================================================== *)
(** * The layout engine                                                    *)
(* ===================================================================== *)

Section Geometry.
Context {num : Type} `{PyNum num}.

Lemma transition_gap_formula (cfg : StyleConfig num) (node : ProcessedNode num) :
  transition_gap cfg node = gap_formula cfg node.
Proof. reflexivity. Qed.

Lemma getitem_nth {A : Type} (xs : list A) (i : nat) (x : A) :
  nth_error xs i = Some x -> getitem xs i = Ok x.
Proof. intro Hx. unfold getitem. now rewrite Hx. Qed.

Lemma getlast_snoc {A : Type} (xs : list A) (x : A) :
  getlast (xs ++ [x]) = Ok x.
Proof. unfold getlast. rewrite rev_app_distr. reflexivity. Qed.

(** The first loop: one gap per node after the first, in order. *)
Lemma gaps_loop (cfg : StyleConfig num) (ps : list (ProcessedNode num)) :
  forall (rest : list (ProcessedNode num)) (k : nat),
    skipn k ps = rest ->
    mapM (fun i => node <- getitem ps i ;; Ok (transition_gap cfg node))
         (seq k (List.length rest))
    = Ok (map (gap_formula cfg) rest).
Proof.
  induction rest as [| q rest IH]; intros k Hk; [reflexivity |].
  cbn [List.length seq mapM map].
  assert (Hq : nth_error ps k = Some q).
  { rewrite <- (firstn_skipn k ps) at 1. rewrite Hk.
    destruct (Nat.le_gt_cases (List.length ps) k) as [Hle | Hlt].
    - rewrite skipn_all2 in Hk by assumption. discriminate.
    - rewrite nth_error_app2; rewrite length_firstn, Nat.min_l by lia; [| lia].
      now rewrite Nat.sub_diag. }
  rewrite (getitem_nth _ _ _ Hq). cbn [bind].
  rewrite (IH (S k)).
  - reflexivity.
  - replace (S k) with (1 + k)%nat by lia. rewrite <- skipn_skipn, Hk. reflexivity.
Qed.

Lemma gaps_of_closed (cfg : StyleConfig num) (p : ProcessedNode num)
  (rest : list (ProcessedNode num)) :
  gaps_of cfg (p :: rest) = Ok (map (gap_formula cfg) rest).
Proof.
  unfold gaps_of, range. cbn [List.length].
  replace (S (List.length rest) - 1)%nat with (List.length rest) by lia.
  apply gaps_loop. reflexivity.
Qed.

(** The second loop, entered with the centre [c] of node [p] last in
    [centers]: it appends the centres of the nodes after [p]. *)
Lemma center_loop_closed (cfg : StyleConfig num)
  (rest before : list (ProcessedNode num)) (p : ProcessedNode num)
  (acc : list num) (c : num) :
  center_loop (before ++ p :: rest)%list
    (map (gap_formula cfg) (tl (before ++ p :: rest)%list))
    (acc ++ [c])%list
    (seq (S (List.length before)) (List.length rest))
  = Ok (acc ++ centers_from cfg c p rest)%list.
Proof.
  revert before p acc c.
  induction rest as [| q rest IH]; intros before p acc c; [reflexivity |].
  cbn [List.length seq center_loop centers_from]. unfold next_center.
  rewrite getlast_snoc. cbn [bind].
  replace (S (List.length before) - 1)%nat with (List.length before) by lia.
  assert (Hq : nth_error (before ++ p :: q :: rest) (S (List.length before))
               = Some q).
  { rewrite nth_error_app2 by lia.
    replace (S (List.length before) - List.length before)%nat with 1%nat by lia.
    reflexivity. }
  assert (Hp : nth_error (before ++ p :: q :: rest) (List.length before)
               = Some p).
  { rewrite nth_error_app2 by lia. now rewrite Nat.sub_diag. }
  assert (Hgap : nth_error
                   (map (gap_formula cfg) (tl (before ++ p :: q :: rest)))
                   (List.length before)
                 = Some (gap_formula cfg q)).
  { rewrite nth_error_map.
    replace (nth_error (tl (before ++ p :: q :: rest)) (List.length before))
      with (nth_error (before ++ p :: q :: rest) (S (List.length before)))
      by (destruct before; reflexivity).
    now rewrite Hq. }
  rewrite (getitem_nth _ _ _ Hgap), (getitem_nth _ _ _ Hq), (getitem_nth _ _ _ Hp).
  cbn [bind].
  specialize (IH (before ++ [p])%list q (acc ++ [c])%list
                 (center_after cfg c p q)).
  rewrite <- !app_assoc in IH. cbn [app] in IH.
  rewrite length_app in IH. cbn [List.length] in IH.
  replace (List.length before + 1)%nat with (S (List.length before)) in IH by lia.
  rewrite <- app_assoc. exact IH.
Qed.

Lemma getlast_centers_from (cfg : StyleConfig num) (rest : list (ProcessedNode num))
  (p : ProcessedNode num) (c : num) :
  exists c_last p_last,
    getlast (centers_from cfg c p rest) = Ok c_last
    /\ getlast (p :: rest) = Ok p_last
    /\ nth_error (centers_from cfg c p rest) (List.length rest) = Some c_last
    /\ nth_error (p :: rest) (List.length rest) = Some p_last.
Proof.
  revert p c. induction rest as [| q rest IH]; intros p c.
  - exists c, p. repeat split; reflexivity.
  - destruct (IH q (center_after cfg c p q)) as (cl & pl & Hc & Hp & Hnc & Hnp).
    exists cl, pl. cbn [centers_from List.length nth_error].
    repeat split; try assumption.
    + unfold getlast in *. cbn [rev].
      destruct (rev (centers_from cfg (center_after cfg c p q) q rest));
        [discriminate | exact Hc].
    + unfold getlast in *. cbn [rev] in *.
      destruct (rev rest ++ [q])%list; [discriminate | exact Hp].
Qed.

(** The geometry step in closed form. *)
Lemma geometry_closed (cfg : StyleConfig num) (p : ProcessedNode num)
  (rest : list (ProcessedNode num)) :
  exists c_last p_last,
    geometry cfg (p :: rest)
    = Ok (map (gap_formula cfg) rest,
          centers_from cfg (top_margin (layout cfg) + main_h p / of_int 2)%num
                       p rest,
          (c_last + main_h p_last / of_int 2 + bottom_margin (layout cfg))%num)
    /\ nth_error
         (centers_from cfg (top_margin (layout cfg) + main_h p / of_int 2)%num
                       p rest) (List.length rest) = Some c_last
    /\ nth_error (p :: rest) (List.length rest) = Some p_last.
Proof.
  destruct (getlast_centers_from cfg rest p
              (top_margin (layout cfg) + main_h p / of_int 2)%num)
    as (cl & pl & Hc & Hp & Hnc & Hnp).
  exists cl, pl. split; [| split; assumption].
  unfold geometry. rewrite gaps_of_closed. cbn [bind getitem nth_error].
  unfold range. cbn [List.length].
  replace (S (List.length rest) - 1)%nat with (List.length rest) by lia.
  pose proof (center_loop_closed cfg rest [] p []
                (top_margin (layout cfg) + main_h p / of_int 2)%num) as Hloop.
  cbn [app tl List.length] in Hloop. rewrite Hloop. cbn [bind].
  rewrite Hc, Hp. reflexivity.
Qed.

Lemma centers_from_length (cfg : StyleConfig num) (rest : list (ProcessedNode num))
  (p : ProcessedNode num) (c : num) :
  List.length (centers_from cfg c p rest) = S (List.length rest).
Proof.
  revert p c. induction rest as [| q rest IH]; intros p c; [reflexivity |].
  cbn [centers_from List.length]. now rewrite IH.
Qed.

Lemma centers_from_head (cfg : StyleConfig num) (rest : list (ProcessedNode num))
  (p : ProcessedNode num) (c : num) :
  nth_error (centers_from cfg c p rest) 0 = Some c.
Proof. destruct rest; reflexivity. Qed.

Lemma centers_from_step (cfg : StyleConfig num) (rest : list (ProcessedNode num)) :
  forall (p : ProcessedNode num) (c : num) (i : nat)
         (a b : ProcessedNode num) (x : num),
    nth_error (p :: rest) i = Some a ->
    nth_error (p :: rest) (S i) = Some b ->
    nth_error (centers_from cfg c p rest) i = Some x ->
    nth_error (centers_from cfg c p rest) (S i) = Some (center_after cfg x a b).
Proof.
  induction rest as [| q rest IH]; intros p c i a b x Ha Hb Hx.
  - destruct i; discriminate.
  - destruct i as [| i].
    + cbn in Ha, Hb, Hx. injection Ha as <-. injection Hb as <-.
      injection Hx as <-. cbn [centers_from nth_error].
      apply centers_from_head.
    + cbn [centers_from nth_error] in *. now apply IH.
Qed.

(** C3.  For every non-empty list of processed nodes the geometry step
    succeeds, with one gap per transition and one centre per node:
    the gap into node [i+1] is [max(base_gap, excl_h + 2*clearance)] when the
    node excludes anyone and [max(base_gap, 0)] otherwise; the first centre
    is [top_margin + main_h/2]; each further centre is the previous centre
    plus half the previous height, the gap, and half the node's own height;
    and the total height is the last centre plus half the last height plus
    [bottom_margin]. *)
Theorem geometry_formulas (cfg : StyleConfig num) (ps : list (ProcessedNode num)) :
  ps <> [] ->
  exists gaps centers total,
    geometry cfg ps = Ok (gaps, centers, total)
    /\ List.length centers = List.length ps
    /\ S (List.length gaps) = List.length ps
    /\ (forall i q,
          nth_error ps (S i) = Some q ->
          nth_error gaps i
          = Some (pymax (base_gap (layout cfg))
                    (if 0 <? excl_n q
                     then (excl_h q + of_int 2 * clearance (box_geometry cfg))%num
                     else of_int 0)))
    /\ (forall p0,
          nth_error ps 0 = Some p0 ->
          nth_error centers 0
          = Some (top_margin (layout cfg) + main_h p0 / of_int 2)%num)
    /\ (forall i p q c g,
          nth_error ps i = Some p -> nth_error ps (S i) = Some q ->
          nth_error centers i = Some c -> nth_error gaps i = Some g ->
          nth_error centers (S i)
          = Some (c + main_h p / of_int 2 + g + main_h q / of_int 2)%num)
    /\ (exists c_last p_last,
          nth_error centers (List.length ps - 1) = Some c_last
          /\ nth_error ps (List.length ps - 1) = Some p_last
          /\ total = (c_last + main_h p_last / of_int 2
                      + bottom_margin (layout cfg))%num).
Proof.
  intro Hne. destruct ps as [| p rest]; [contradiction |].
  destruct (geometry_closed cfg p rest) as (cl & pl & Hgeo & Hcl & Hpl).
  eexists _, _, _. split; [exact Hgeo |].
  split; [apply centers_from_length |].
  split; [cbn [List.length]; now rewrite length_map |].
  assert (Hgaps : forall i q, nth_error (p :: rest) (S i) = Some q ->
                    nth_error (map (gap_formula cfg) rest) i
                    = Some (gap_formula cfg q)).
  { intros i q Hq. cbn [nth_error] in Hq. rewrite nth_error_map, Hq. reflexivity. }
  split; [exact Hgaps |].
  split.
  { intros p0 Hp0. injection Hp0 as <-. apply centers_from_head. }
  split.
  { intros i a b c g Ha Hb Hc Hg.
    rewrite (Hgaps i b Hb) in Hg. injection Hg as <-.
    apply (centers_from_step cfg rest p _ i a b c Ha Hb Hc). }
  exists cl, pl. cbn [List.length].
  replace (S (List.length rest) - 1)%nat with (List.length rest) by lia. auto.
Qed.

End Geometry.

(** The three nodes of the sample cohort, computed with doubles. *)
Lemma geometry_formulas_witness :
  exists gaps centers total,
    geometry (Samples.white_style Samples.dec_float) sample_processed
    = Ok (gaps, centers, total)
    /\ List.length centers = 3%nat
    /\ nth_error centers 0 = Some (Samples.dec_float 16 10)
    /\ nth_error gaps 0 = Some (Samples.dec_float 16 10).
Proof.
  destruct (geometry_formulas (Samples.white_style Samples.dec_float)
              sample_processed ltac:(discriminate))
    as (gaps & centers & total & Hgeo & Hlen & _ & Hgap & Hfirst & _).
  exists gaps, centers, total.
  split; [exact Hgeo |]. split; [exact Hlen |].
  split.
  - rewrite (Hfirst _ eq_refl). vm_compute. reflexivity.
  - rewrite (Hgap 0%nat _ eq_refl). vm_compute. reflexivity.
Defined.

(** The sample cohort under the white style: the layout of the model, run
    with doubles. *)
Example sample_layout :
  geometry (Samples.white_style Samples.dec_float) sample_processed
  = Ok ([1.6; 1.6], [1.6; 4.8; 7.999999999999999], 9.6)%float.
Proof. vm_compute. reflexivity. Qed.
(* ===================================================================== *)
(** * Binary64 rounding                                                    *)
(* ===================================================================== *)

(** What the layout needs of IEEE addition and halving, from the
    specification of binary64 in [SpecFloat]: a sum of two doubles that are
    not negative is at least its first operand, and strictly above it when
    the second operand is at least one unit in the last place of the first. *)

(** * Digits *)

Lemma digits2_bounds (p : positive) :
  2 ^ (Zpos (digits2_pos p) - 1) <= Zpos p < 2 ^ Zpos (digits2_pos p).
Proof.
  induction p as [p IH | p IH |]; cbn [digits2_pos].
  - rewrite Pos2Z.inj_succ, Pos2Z.inj_xI.
    replace (Z.succ (Zpos (digits2_pos p)) - 1) with (Z.succ (Zpos (digits2_pos p) - 1)) by lia.
    rewrite !Z.pow_succ_r by lia.
    generalize dependent (2 ^ (Zpos (digits2_pos p) - 1)).
    generalize (2 ^ Zpos (digits2_pos p)). intros; lia.
  - rewrite Pos2Z.inj_succ. change (Zpos p~0) with (2 * Zpos p).
    replace (Z.succ (Zpos (digits2_pos p)) - 1) with (Z.succ (Zpos (digits2_pos p) - 1)) by lia.
    rewrite !Z.pow_succ_r by lia.
    generalize dependent (2 ^ (Zpos (digits2_pos p) - 1)).
    generalize (2 ^ Zpos (digits2_pos p)). intros; lia.
  - cbn. lia.
Qed.

Lemma digits2_le (p q : positive) :
  Zpos p <= Zpos q -> Zpos (digits2_pos p) <= Zpos (digits2_pos q).
Proof.
  intro Hle. destruct (Z.le_gt_cases (Zpos (digits2_pos p)) (Zpos (digits2_pos q)))
    as [H | H]; [exact H | exfalso].
  pose proof (digits2_bounds p) as [Hp _]. pose proof (digits2_bounds q) as [_ Hq].
  assert (2 ^ Zpos (digits2_pos q) <= 2 ^ (Zpos (digits2_pos p) - 1))
    by (apply Z.pow_le_mono_r; lia).
  lia.
Qed.

Lemma digits2_unique (p : positive) (k : Z) :
  2 ^ (k - 1) <= Zpos p < 2 ^ k -> Zpos (digits2_pos p) = k.
Proof.
  intros [Hlo Hhi]. pose proof (digits2_bounds p) as [Hp Hq].
  assert (Hk : 0 < k).
  { destruct (Z.lt_ge_cases 0 k) as [H | H]; [exact H |].
    destruct (Z.eq_dec k 0) as [-> | Hn]; [cbn in Hhi; lia |].
    rewrite (Z.pow_neg_r 2 k) in Hhi by lia. lia. }
  destruct (Z.lt_trichotomy (Zpos (digits2_pos p)) k) as [H | [H | H]]; [| exact H |].
  - assert (2 ^ Zpos (digits2_pos p) <= 2 ^ (k - 1)) by (apply Z.pow_le_mono_r; lia). lia.
  - assert (2 ^ k <= 2 ^ (Zpos (digits2_pos p) - 1)) by (apply Z.pow_le_mono_r; lia). lia.
Qed.

(** * Shifts *)

Lemma iter_xO (p d : positive) : Zpos (Pos.iter xO p d) = Zpos p * 2 ^ Zpos d.
Proof.
  induction d as [| d IH] using Pos.peano_ind.
  - cbn. lia.
  - rewrite Pos.iter_succ, Pos2Z.inj_xO, IH, Pos2Z.inj_succ, Z.pow_succ_r by lia. lia.
Qed.

Lemma shl_align_fst (mx : positive) (ex ez : Z) :
  ez <= ex -> Zpos (fst (shl_align mx ex ez)) = Zpos mx * 2 ^ (ex - ez).
Proof.
  intro Hle. unfold shl_align.
  destruct (ez - ex) as [| d | d] eqn:E; cbn [fst].
  - replace (ex - ez) with 0 by lia. cbn. lia.
  - lia.
  - rewrite iter_xO. f_equal. f_equal. lia.
Qed.

Lemma iter_pos_eq {A : Type} (f : A -> A) (p : positive) (x : A) :
  iter_pos f p x = Pos.iter f x p.
Proof.
  revert x. induction p as [p IH | p IH |]; intro x; cbn [iter_pos Pos.iter].
  - rewrite !IH. rewrite <- Pos.iter_swap. f_equal. apply Pos.iter_swap.
  - now rewrite !IH.
  - reflexivity.
Qed.

Lemma shr_1_m (r : shr_record) :
  0 <= shr_m r -> shr_m (shr_1 r) = shr_m r / 2.
Proof.
  destruct r as [m r s]. cbn [shr_m]. intro Hm.
  destruct m as [| [p | p |] | p]; cbn [shr_1 shr_m]; try lia.
  - reflexivity.
  - apply Z.div_unique with 1; lia.
  - apply Z.div_unique with 0; lia.
  - reflexivity.
Qed.

Lemma shr_iter_m (r : shr_record) (p : positive) :
  0 <= shr_m r ->
  shr_m (iter_pos shr_1 p r) = shr_m r / 2 ^ Zpos p.
Proof.
  intro Hm. rewrite iter_pos_eq.
  induction p as [| p IH] using Pos.peano_ind.
  - cbn [Pos.iter]. rewrite shr_1_m by assumption. reflexivity.
  - rewrite Pos.iter_succ, shr_1_m.
    + rewrite IH, Pos2Z.inj_succ, Z.pow_succ_r by lia.
      rewrite Z.div_div by lia. f_equal. lia.
    + rewrite IH. apply Z.div_pos; [assumption | lia].
Qed.

Lemma round_nearest_even_bounds (m : Z) (l : location) :
  m <= round_nearest_even m l <= m + 1.
Proof.
  destruct l as [| []]; cbn [round_nearest_even]; try lia.
  destruct (Z.even m); lia.
Qed.

(** * Rounding *)

Lemma fexp_eq (e : Z) : fexp prec emax e = Z.max (e - 53) (-1074).
Proof. reflexivity. Qed.

Lemma shr_spec (mrs : shr_record) (e n : Z) :
  0 <= shr_m mrs ->
  snd (shr mrs e n) = e + Z.max n 0
  /\ shr_m (fst (shr mrs e n)) = shr_m mrs / 2 ^ Z.max n 0
  /\ (n <= 0 -> fst (shr mrs e n) = mrs).
Proof.
  intro Hm. unfold shr. destruct n as [| p | p]; cbn [fst snd].
  - rewrite Z.max_id, Z.add_0_r. change (2 ^ 0) with 1. rewrite Z.div_1_r. auto.
  - rewrite Z.max_l by lia. split; [reflexivity |].
    split; [now apply shr_iter_m | lia].
  - rewrite Z.max_r by lia. rewrite Z.add_0_r. change (2 ^ 0) with 1.
    rewrite Z.div_1_r. auto.
Qed.

Lemma shr_record_of_loc_m (m : Z) (l : location) :
  shr_m (shr_record_of_loc m l) = m.
Proof. destruct l as [| []]; reflexivity. Qed.

Lemma shr_fexp_spec (m e : Z) (l : location) :
  0 <= m ->
  let n := Z.max (Zdigits2 m + e - 53) (-1074) - e in
  snd (shr_fexp prec emax m e l) = e + Z.max n 0
  /\ shr_m (fst (shr_fexp prec emax m e l)) = m / 2 ^ Z.max n 0
  /\ (n <= 0 -> fst (shr_fexp prec emax m e l) = shr_record_of_loc m l).
Proof.
  intros Hm n. unfold shr_fexp. rewrite fexp_eq.
  change (Z.sub (Z.max (Zdigits2 m + e - 53) (-1074)) e) with n.
  destruct (shr_spec (shr_record_of_loc m l) e n) as (H1 & H2 & H3).
  - now rewrite shr_record_of_loc_m.
  - rewrite shr_record_of_loc_m in H2. auto.
Qed.

(** The result of rounding, without its [let]s. *)
Lemma binary_round_aux_shape (sx : bool) (mx ex : Z) (lx : location) :
  let r1 := shr_fexp prec emax mx ex lx in
  let m_r := round_nearest_even (shr_m (fst r1)) (loc_of_shr_record (fst r1)) in
  let r2 := shr_fexp prec emax m_r (snd r1) loc_Exact in
  binary_round_aux prec emax sx mx ex lx
  = match shr_m (fst r2) with
    | Z0 => S754_zero sx
    | Zpos m => if snd r2 <=? 971 then S754_finite sx m (snd r2)
                else S754_infinity sx
    | Zneg _ => S754_nan
    end.
Proof.
  intros r1 m_r r2. unfold binary_round_aux. subst r2 m_r r1.
  destruct (shr_fexp prec emax mx ex lx) as [mrs' e']. cbn [fst snd].
  destruct (shr_fexp prec emax _ e' loc_Exact) as [mrs'' e'']. reflexivity.
Qed.

(** Rounding a non-negative mantissa gives a non-negative float. *)
Lemma binary_round_aux_nonneg (mx ex : Z) (lx : location) :
  0 <= mx ->
  match binary_round_aux prec emax false mx ex lx with
  | S754_zero false | S754_infinity false | S754_finite false _ _ => True
  | _ => False
  end.
Proof.
  intro Hm. rewrite binary_round_aux_shape.
  destruct (shr_fexp_spec mx ex lx Hm) as (_ & Hq & _).
  set (r1 := shr_fexp prec emax mx ex lx) in *.
  set (m_r := round_nearest_even (shr_m (fst r1)) (loc_of_shr_record (fst r1))).
  assert (Hr : 0 <= m_r).
  { pose proof (round_nearest_even_bounds (shr_m (fst r1)) (loc_of_shr_record (fst r1))).
    assert (0 <= shr_m (fst r1)) by (rewrite Hq; apply Z.div_pos; lia).
    subst m_r. lia. }
  destruct (shr_fexp_spec m_r (snd r1) loc_Exact Hr) as (_ & Hq2 & _).
  set (r2 := shr_fexp prec emax m_r (snd r1) loc_Exact) in *.
  assert (H2 : 0 <= shr_m (fst r2)) by (rewrite Hq2; apply Z.div_pos; lia).
  destruct (shr_m (fst r2)) as [| p | p]; [exact I | | lia].
  destruct (snd r2 <=? 971); exact I.
Qed.

(** Rounding a positive mantissa whose exponent needs no left shift: the
    result is infinite, or finite with an exponent above the target one, or
    at the target exponent with at least the truncated mantissa. *)
Lemma binary_round_ge (m : positive) (e : Z) :
  let f := Z.max (Zpos (digits2_pos m) + e - 53) (-1074) in
  -1074 <= e -> e <= f ->
  binary_round prec emax false m e = S754_infinity false
  \/ exists m' e',
       binary_round prec emax false m e = S754_finite false m' e'
       /\ (f < e' \/ (e' = f /\ Zpos m / 2 ^ (f - e) <= Zpos m')).
Proof.
  intros f He Hf. unfold binary_round. rewrite fexp_eq. fold f.
  assert (Halign : shl_align m e f = (m, e)).
  { unfold shl_align. destruct (f - e) eqn:E; try reflexivity. lia. }
  rewrite Halign. rewrite binary_round_aux_shape.
  destruct (shr_fexp_spec (Zpos m) e loc_Exact ltac:(lia)) as (He1 & Hq & Hsame).
  cbn [Zdigits2] in He1, Hq, Hsame. fold f in He1, Hq, Hsame.
  rewrite Z.max_l in He1, Hq by lia.
  set (r1 := shr_fexp prec emax (Zpos m) e loc_Exact) in *.
  replace (e + (f - e)) with f in He1 by lia.
  set (q := Zpos m / 2 ^ (f - e)) in *.
  set (m_r := round_nearest_even (shr_m (fst r1)) (loc_of_shr_record (fst r1))).
  pose proof (round_nearest_even_bounds (shr_m (fst r1)) (loc_of_shr_record (fst r1)))
    as Hrne. fold m_r in Hrne. rewrite Hq in Hrne. rewrite He1.
  pose proof (digits2_bounds m) as [Hlo Hhi].
  set (D := Zpos (digits2_pos m)) in *.
  (* the truncated mantissa is positive, with 53 digits when bits were lost *)
  assert (Hqpos : 0 < q).
  { subst q. apply Z.div_str_pos. split; [apply Z.pow_pos_nonneg; lia |].
    destruct (Z.eq_dec f e) as [-> | Hne].
    - rewrite Z.sub_diag. cbn. lia.
    - assert (Ef : f = D + e - 53) by lia.
      apply Z.le_trans with (2 ^ (D - 1)); [| lia].
      apply Z.pow_le_mono_r; lia. }
  assert (Hrpos : 0 < m_r) by lia.
  destruct (shr_fexp_spec m_r f loc_Exact ltac:(lia)) as (He2 & Hq2 & _).
  set (r2 := shr_fexp prec emax m_r f loc_Exact) in *.
  set (n2 := Z.max (Zdigits2 m_r + f - 53) (-1074) - f) in *.
  assert (Hn2 : (n2 <= 0) \/ (f < e /\ False) \/ (0 < n2 /\ e < f)).
  { destruct (Z.le_gt_cases n2 0) as [H | H]; [now left |].
    right. right. split; [lia |].
    destruct (Z.eq_dec f e) as [Efe | Hne]; [| lia].
    exfalso.
    (* no bit was lost: the mantissa is [m], already in format *)
    assert (Er : m_r = Zpos m).
    { assert (Hr1 : fst r1 = shr_record_of_loc (Zpos m) loc_Exact) by (apply Hsame; lia).
      subst m_r. rewrite Hr1. reflexivity. }
    subst n2. rewrite Er in H. cbn [Zdigits2] in H. fold D in H. lia. }
  destruct Hn2 as [Hn2 | [[_ []] | [Hn2 Hlt]]].
  - (* the rounded mantissa is in format *)
    rewrite Z.max_r in He2, Hq2 by lia. rewrite Z.add_0_r in He2.
    change (2 ^ 0) with 1 in Hq2. rewrite Z.div_1_r in Hq2. rewrite Hq2, He2.
    destruct m_r as [| pr | pr]; [lia | | lia].
    destruct (f <=? 971); [| now left].
    right. exists pr, f. split; [reflexivity |]. right. split; [reflexivity | lia].
  - (* rounding up gave one more digit *)
    rewrite Z.max_l in He2, Hq2 by lia. rewrite He2.
    assert (H2 : 0 < shr_m (fst r2)).
    { rewrite Hq2. apply Z.div_str_pos. split; [apply Z.pow_pos_nonneg; lia |].
      (* [n2 <= 1] and [m_r >= 2^52] *)
      assert (Ef : f = D + e - 53) by lia.
      assert (Hq53 : 2 ^ 52 <= q < 2 ^ 53).
      { subst q. rewrite Ef. replace (D + e - 53 - e) with (D - 53) by lia. split.
        - apply Z.div_le_lower_bound; [apply Z.pow_pos_nonneg; lia |].
          rewrite <- Z.pow_add_r by lia. replace (D - 53 + 52) with (D - 1) by lia.
          exact Hlo.
        - apply Z.div_lt_upper_bound; [apply Z.pow_pos_nonneg; lia |].
          rewrite <- Z.pow_add_r by lia. replace (D - 53 + 53) with D by lia.
          exact Hhi. }
      destruct m_r as [| pr | pr]; [lia | | lia].
      assert (Hd : Zdigits2 (Zpos pr) <= 54).
      { cbn [Zdigits2]. destruct (Z.le_gt_cases (Zpos (digits2_pos pr)) 54) as [Hle | Hgt];
          [exact Hle | exfalso].
        pose proof (digits2_bounds pr) as [Hl _].
        assert (2 ^ 54 <= 2 ^ (Zpos (digits2_pos pr) - 1))
          by (apply Z.pow_le_mono_r; lia).
        change (2 ^ 53) with 9007199254740992 in Hq53.
        change (2 ^ 54) with 18014398509481984 in *. lia. }
      subst n2. assert (Hn : Z.max (Zdigits2 (Zpos pr) + f - 53) (-1074) - f <= 1) by lia.
      apply Z.le_trans with (2 ^ 1); [apply Z.pow_le_mono_r; lia |].
      change (2 ^ 1) with 2. change (2 ^ 52) with 4503599627370496 in Hq53. lia. }
    destruct (shr_m (fst r2)) as [| p2 | p2]; [lia | | lia].
    destruct (f + n2 <=? 971); [| now left].
    right. exists p2, (f + n2). split; [reflexivity |]. left. lia.
Qed.

(** * Order on non-negative floats *)


Lemma SFleb_zero (s : spec_float) :
  SFleb (S754_zero false) s = true <-> SFnonneg s.
Proof.
  destruct s as [[] | [] | | [] m e]; cbn; intuition discriminate.
Qed.

Lemma SFcompare_finite (m1 : positive) (e1 : Z) (m2 : positive) (e2 : Z) :
  SFcompare (S754_finite false m1 e1) (S754_finite false m2 e2)
  = Some (match e1 ?= e2 with
          | Lt => Lt
          | Gt => Gt
          | Eq => (m1 ?= m2)%positive
          end).
Proof. reflexivity. Qed.

Lemma SFleb_finite (m1 : positive) (e1 : Z) (m2 : positive) (e2 : Z) :
  SFleb (S754_finite false m1 e1) (S754_finite false m2 e2) = true
  <-> e1 < e2 \/ (e1 = e2 /\ Zpos m1 <= Zpos m2).
Proof.
  unfold SFleb. rewrite SFcompare_finite.
  destruct (Z.compare_spec e1 e2) as [-> | H | H].
  - destruct (Pos.compare_spec m1 m2) as [-> | Hm | Hm]; split; intro Hx;
      try reflexivity; try discriminate; try lia.
  - split; [left; assumption | reflexivity].
  - split; [discriminate | lia].
Qed.

Lemma SFltb_finite (m1 : positive) (e1 : Z) (m2 : positive) (e2 : Z) :
  SFltb (S754_finite false m1 e1) (S754_finite false m2 e2) = true
  <-> e1 < e2 \/ (e1 = e2 /\ Zpos m1 < Zpos m2).
Proof.
  unfold SFltb. rewrite SFcompare_finite.
  destruct (Z.compare_spec e1 e2) as [-> | H | H].
  - destruct (Pos.compare_spec m1 m2) as [-> | Hm | Hm]; split; intro Hx;
      try reflexivity; try discriminate; try lia.
  - split; [left; assumption | reflexivity].
  - split; [discriminate | lia].
Qed.

Ltac order_cases a b c :=
  destruct a as [[] | [] | | [] ma ea]; try contradiction;
  destruct b as [[] | [] | | [] mb eb]; try discriminate;
  destruct c as [[] | [] | | [] mc ec]; try discriminate; try reflexivity.

Lemma SFleb_trans (a b c : spec_float) :
  SFnonneg a -> SFleb a b = true -> SFleb b c = true -> SFleb a c = true.
Proof.
  intros Ha Hab Hbc. order_cases a b c.
  apply SFleb_finite in Hab, Hbc. apply SFleb_finite. lia.
Qed.

Lemma SFltb_leb_trans (a b c : spec_float) :
  SFnonneg a -> SFltb a b = true -> SFleb b c = true -> SFltb a c = true.
Proof.
  intros Ha Hab Hbc. order_cases a b c.
  apply SFltb_finite in Hab. apply SFleb_finite in Hbc. apply SFltb_finite. lia.
Qed.

Lemma SFleb_ltb_trans (a b c : spec_float) :
  SFnonneg a -> SFleb a b = true -> SFltb b c = true -> SFltb a c = true.
Proof.
  intros Ha Hab Hbc. order_cases a b c.
  apply SFleb_finite in Hab. apply SFltb_finite in Hbc. apply SFltb_finite. lia.
Qed.

Lemma SFltb_leb (a b : spec_float) : SFltb a b = true -> SFleb a b = true.
Proof.
  unfold SFltb, SFleb. destruct (SFcompare a b) as [[] |]; congruence.
Qed.

Lemma SFleb_nonneg (a b : spec_float) :
  SFnonneg a -> SFleb a b = true -> SFnonneg b.
Proof.
  intros Ha Hab.
  destruct a as [[] | [] | | [] ma ea]; try contradiction;
    destruct b as [[] | [] | | [] mb eb]; try discriminate; exact I.
Qed.

Lemma SFleb_refl (a : spec_float) : SFnonneg a -> SFleb a a = true.
Proof.
  destruct a as [[] | [] | | [] ma ea]; try contradiction; try reflexivity.
  intros _. apply SFleb_finite. lia.
Qed.

(** * Addition of non-negative floats *)

Lemma bounded_spec (m : positive) (e : Z) :
  bounded prec emax m e = true ->
  Z.max (Zpos (digits2_pos m) + e - 53) (-1074) = e /\ e <= 971.
Proof.
  unfold bounded, canonical_mantissa. intro Hb.
  apply andb_true_iff in Hb as [Hc He]. rewrite fexp_eq in Hc.
  apply Z.eqb_eq in Hc. apply Z.leb_le in He. split; [exact Hc | exact He].
Qed.

Lemma SFadd_finite_eq (mx : positive) (ex : Z) (my : positive) (ey : Z) :
  SFadd prec emax (S754_finite false mx ex) (S754_finite false my ey)
  = binary_round prec emax false
      (fst (shl_align mx ex (Z.min ex ey)) + fst (shl_align my ey (Z.min ex ey)))
      (Z.min ex ey).
Proof. reflexivity. Qed.

Lemma SFadd_finite_ge (mx : positive) (ex : Z) (my : positive) (ey : Z) :
  bounded prec emax mx ex = true -> bounded prec emax my ey = true ->
  let r := SFadd prec emax (S754_finite false mx ex) (S754_finite false my ey) in
  r = S754_infinity false
  \/ exists m' e',
       r = S754_finite false m' e'
       /\ (ex < e'
           \/ (e' = ex /\ Zpos mx <= Zpos m'
               /\ (ex <= ey + Zpos (digits2_pos my) - 1 -> Zpos mx < Zpos m'))).
Proof.
  intros Hx Hy r. subst r. rewrite SFadd_finite_eq.
  apply bounded_spec in Hx as [Hcx Hex]. apply bounded_spec in Hy as [Hcy Hey].
  set (ez := Z.min ex ey).
  set (m := (fst (shl_align mx ex ez) + fst (shl_align my ey ez))%positive).
  assert (Hm : Zpos m = Zpos mx * 2 ^ (ex - ez) + Zpos my * 2 ^ (ey - ez)).
  { subst m. rewrite Pos2Z.inj_add, !shl_align_fst by lia. reflexivity. }
  pose proof (digits2_bounds mx) as [Hxlo Hxhi].
  pose proof (digits2_bounds my) as [Hylo Hyhi].
  set (Dx := Zpos (digits2_pos mx)) in *. set (Dy := Zpos (digits2_pos my)) in *.
  assert (Hpx : 0 < 2 ^ (ex - ez)) by (apply Z.pow_pos_nonneg; lia).
  assert (Hpy : 0 < 2 ^ (ey - ez)) by (apply Z.pow_pos_nonneg; lia).
  (* the sum has at least the digits of the shifted [mx] *)
  assert (HD : Dx + (ex - ez) <= Zpos (digits2_pos m)).
  { destruct (Z.le_gt_cases (Dx + (ex - ez)) (Zpos (digits2_pos m))) as [H | H];
      [exact H | exfalso].
    pose proof (digits2_bounds m) as [_ Hmhi].
    assert (2 ^ Zpos (digits2_pos m) <= 2 ^ (Dx - 1 + (ex - ez)))
      by (apply Z.pow_le_mono_r; lia).
    rewrite Z.pow_add_r in H0 by lia. nia. }
  destruct (binary_round_ge m ez) as [Hinf | (m' & e' & Hr & Hcase)];
    [lia | lia | now left |].
  right. exists m', e'. split; [exact Hr |].
  set (f := Z.max (Zpos (digits2_pos m) + ez - 53) (-1074)) in *.
  assert (Hf : ex <= f) by lia.
  destruct Hcase as [Hlt | [-> Hq]]; [left; lia |].
  destruct (Z.eq_dec ex f) as [Ef | Hne]; [| left; lia].
  right. split; [now symmetry |]. rewrite <- Ef in Hq.
  rewrite Hm, Z.div_add_l in Hq by lia.
  assert (0 <= Zpos my * 2 ^ (ey - ez) / 2 ^ (ex - ez))
    by (apply Z.div_pos; lia).
  split; [lia |]. intro Hbig.
  assert (1 <= Zpos my * 2 ^ (ey - ez) / 2 ^ (ex - ez)); [| lia].
  apply Z.div_le_lower_bound; [lia |]. rewrite Z.mul_1_r.
  apply Z.le_trans with (2 ^ (Dy - 1) * 2 ^ (ey - ez)); [| nia].
  rewrite <- Z.pow_add_r by lia. apply Z.pow_le_mono_r; lia.
Qed.

Lemma SFadd_nonneg_le (x y : spec_float) :
  valid_binary x = true -> valid_binary y = true ->
  SFnonneg x -> SFnonneg y ->
  SFleb x (SFadd prec emax x y) = true /\ SFnonneg (SFadd prec emax x y).
Proof.
  intros Vx Vy Hx Hy.
  destruct x as [sx | [] | | [] mx ex]; try contradiction;
    destruct y as [sy | [] | | [] my ey]; try contradiction.
  - destruct sx, sy; split; reflexivity || exact I.
  - destruct sx; split; reflexivity || exact I.
  - destruct sx; split; reflexivity || exact I.
  - split; reflexivity || exact I.
  - split; reflexivity || exact I.
  - split; reflexivity || exact I.
  - cbn [SFadd]. split; [| exact I]. apply SFleb_finite. lia.
  - split; reflexivity || exact I.
  - cbn [valid_binary] in Vx, Vy.
    destruct (SFadd_finite_ge mx ex my ey Vx Vy) as [-> | (m' & e' & -> & Hc)].
    + split; reflexivity || exact I.
    + split; [| exact I]. apply SFleb_finite. lia.
Qed.

(** Adding a positive finite float that is at least one unit in the last
    place of the other operand gives a greater float. *)
Lemma SFadd_finite_lt (mx : positive) (ex : Z) (my : positive) (ey : Z) :
  bounded prec emax mx ex = true -> bounded prec emax my ey = true ->
  ex <= ey + Zpos (digits2_pos my) - 1 ->
  SFltb (S754_finite false mx ex)
        (SFadd prec emax (S754_finite false mx ex) (S754_finite false my ey))
  = true.
Proof.
  intros Vx Vy Hulp.
  destruct (SFadd_finite_ge mx ex my ey Vx Vy) as [-> | (m' & e' & -> & Hc)];
    [reflexivity |].
  apply SFltb_finite. lia.
Qed.

(** * Division by two *)


Lemma SFdiv_two_nonneg (h : spec_float) :
  SFnonneg h -> SFnonneg (SFdiv prec emax h SFtwo).
Proof.
  intro Hh. destruct h as [s | [] | | [] m e]; try contradiction.
  - destruct s; exact I.
  - exact I.
  - unfold SFtwo. cbn [SFdiv xorb].
    pose proof (binary_round_aux_nonneg
                  (fst (fst (SFdiv_core_binary prec emax (Zpos m) e
                               4503599627370496 (-51))))
                  (snd (fst (SFdiv_core_binary prec emax (Zpos m) e
                               4503599627370496 (-51))))
                  (snd (SFdiv_core_binary prec emax (Zpos m) e
                          4503599627370496 (-51)))) as Hr.
    destruct (SFdiv_core_binary prec emax (Zpos m) e 4503599627370496 (-51))
      as [[mz ez] lz] eqn:E.
    cbn [fst snd] in Hr.
    assert (Hmz : 0 <= mz).
    { unfold SFdiv_core_binary in E.
      set (s := Z.sub _ _) in E.
      set (m' := match s with Zpos _ => _ | Z0 => _ | Zneg _ => _ end) in E.
      assert (Hm' : 0 <= m').
      { subst m'. destruct s; [lia | | lia].
        change (0 <= Z.shiftl (Zpos m) (Zpos p)). apply Z.shiftl_nonneg. lia. }
      pose proof (Z_div_mod m' 4503599627370496 ltac:(lia)) as Hdm.
      change (Z.div_eucl m' 4503599627370496)
        with (IntDef.Z.div_eucl m' 4503599627370496) in Hdm.
      destruct (IntDef.Z.div_eucl m' 4503599627370496) as [q r].
      injection E as <- _ _. nia. }
    specialize (Hr Hmz).
    destruct (binary_round_aux prec emax false mz ez lz) as [[] | [] | | [] ? ?];
      try contradiction; exact I.
Qed.

(** Rounding a float that is in format returns it. *)
Lemma binary_round_exact (m : positive) (e : Z) :
  bounded prec emax m e = true ->
  binary_round prec emax false m e = S754_finite false m e.
Proof.
  intro Hb. apply bounded_spec in Hb as [Hc He].
  unfold binary_round. rewrite fexp_eq, Hc.
  assert (Halign : shl_align m e e = (m, e))
    by (unfold shl_align; now rewrite Z.sub_diag).
  rewrite Halign, binary_round_aux_shape.
  destruct (shr_fexp_spec (Zpos m) e loc_Exact ltac:(lia)) as (He1 & _ & Hsame).
  cbn [Zdigits2] in He1, Hsame. rewrite Hc, Z.sub_diag in He1, Hsame.
  rewrite Hsame by lia. cbn [shr_record_of_loc shr_m loc_of_shr_record
                              round_nearest_even].
  rewrite He1. cbn [Z.max Z.compare]. rewrite Z.add_0_r.
  destruct (shr_fexp_spec (Zpos m) e loc_Exact ltac:(lia)) as (He2 & _ & Hsame2).
  cbn [Zdigits2] in He2, Hsame2. rewrite Hc, Z.sub_diag in He2, Hsame2.
  rewrite Hsame2 by lia. cbn [shr_record_of_loc shr_m fst].
  rewrite He2. cbn [Z.max Z.compare]. rewrite Z.add_0_r.
  apply Z.leb_le in He. now rewrite He.
Qed.

(** [2^J] as a float. *)
Lemma ldexp_one (J : Z) :
  -1022 <= J <= 1023 ->
  Prim2SF (Z.ldexp 1 J) = S754_finite false 4503599627370496 (J - 52).
Proof.
  intro HJ. rewrite Z_ldexp_spec.
  change (Prim2SF 1) with (S754_finite false 4503599627370496 (-52)).
  cbn [SFldexp]. replace (-52 + J) with (J - 52) by lia.
  apply binary_round_exact. unfold bounded, canonical_mantissa.
  rewrite fexp_eq. cbn [digits2_pos Pos.succ].
  apply andb_true_iff. split; [apply Z.eqb_eq; lia | apply Z.leb_le].
  change (emax - prec) with 971. lia.
Qed.

(** A gap of at least [2^J] is not absorbed by a position below
    [2^(J+53)]: it is at least one unit in the last place there. *)
Lemma SFadd_lt_threshold (a g : spec_float) (J : Z) :
  valid_binary a = true -> valid_binary g = true -> SFnonneg a ->
  -1022 <= J <= 970 ->
  SFleb (S754_finite false 4503599627370496 (J - 52)) g = true ->
  SFltb (SFadd prec emax a g) (S754_finite false 4503599627370496 (J + 1))
  = true ->
  SFltb a (SFadd prec emax a g) = true.
Proof.
  intros Va Vg Ha HJ Hg Hbound.
  assert (Hgn : SFnonneg g) by (eapply SFleb_nonneg; [| exact Hg]; exact I).
  destruct (SFadd_nonneg_le a g Va Vg Ha Hgn) as (Hle & _).
  pose proof (SFleb_ltb_trans _ _ _ Ha Hle Hbound) as Ha_lt.
  destruct g as [sg | [] | | [] mg eg]; try contradiction; try discriminate Hg.
  - (* an infinite gap gives an infinite sum *)
    destruct a as [sa | [] | | [] ma ea]; try contradiction; discriminate Hbound.
  - apply SFleb_finite in Hg. cbn [valid_binary] in Vg.
    pose proof (bounded_spec mg eg Vg) as [Hcg _].
    assert (HD : Zpos (digits2_pos mg) = 53).
    { destruct (Z.eq_dec eg (-1074)) as [E | Hne]; [| lia].
      assert (Hmg : 4503599627370496 <= Zpos mg) by lia.
      pose proof (digits2_le 4503599627370496 mg Hmg) as Hd.
      change (Zpos (digits2_pos 4503599627370496)) with 53 in Hd. lia. }
    destruct a as [sa | [] | | [] ma ea]; try contradiction.
    + destruct sa; reflexivity.
    + discriminate Ha_lt.
    + apply SFltb_finite in Ha_lt. cbn [valid_binary] in Va.
      pose proof (bounded_spec ma ea Va) as [Hca _].
      pose proof (digits2_bounds ma) as [Hlow _].
      assert (Hea : ea <= J).
      { destruct Ha_lt as [Hlt | [E Hm]]; [lia |].
        assert (HDa : Zpos (digits2_pos ma) = 53) by lia.
        rewrite HDa in Hlow. change (2 ^ (53 - 1)) with 4503599627370496 in Hlow.
        lia. }
      apply SFadd_finite_lt; [assumption | assumption | lia].
Qed.

(** * The order of doubles *)

Lemma float_zero : of_int (PyNum := float_num) 0 = 0%float.
Proof. vm_compute. reflexivity. Qed.

Lemma float_two : Prim2SF (of_int (PyNum := float_num) 2) = SFtwo.
Proof. vm_compute. reflexivity. Qed.

Lemma fltb_nonneg (a b : float) :
  fnonneg a -> (a <? b)%float = true -> fnonneg b.
Proof.
  unfold fnonneg. rewrite ltb_spec. intros Ha Hab.
  eapply SFleb_nonneg; [exact Ha | apply SFltb_leb; exact Hab].
Qed.

Lemma positive_nonneg (x : float) :
  is_positive (num := float) x = true -> fnonneg x.
Proof.
  unfold is_positive. rewrite float_zero. cbn [ltb float_num].
  apply fltb_nonneg. exact I.
Qed.

Lemma fadd_nonneg (x y : float) :
  fnonneg x -> fnonneg y ->
  (x <=? x + y)%float = true /\ fnonneg (x + y)%float.
Proof.
  unfold fnonneg. intros Hx Hy. rewrite leb_spec, add_spec.
  apply SFadd_nonneg_le; try assumption; apply Prim2SF_valid.
Qed.

Lemma fhalf_nonneg (h : float) :
  fnonneg h -> fnonneg (h / of_int (PyNum := float_num) 2)%float.
Proof.
  unfold fnonneg. intro Hh. rewrite div_spec, float_two.
  now apply SFdiv_two_nonneg.
Qed.

Lemma fleb_trans (a b c : float) :
  fnonneg a -> (a <=? b)%float = true -> (b <=? c)%float = true ->
  (a <=? c)%float = true.
Proof. unfold fnonneg. rewrite !leb_spec. apply SFleb_trans. Qed.

Lemma fleb_ltb_trans (a b c : float) :
  fnonneg a -> (a <=? b)%float = true -> (b <? c)%float = true ->
  (a <? c)%float = true.
Proof. unfold fnonneg. rewrite leb_spec, !ltb_spec. apply SFleb_ltb_trans. Qed.

Lemma fltb_leb_trans (a b c : float) :
  fnonneg a -> (a <? b)%float = true -> (b <=? c)%float = true ->
  (a <? c)%float = true.
Proof. unfold fnonneg. rewrite leb_spec, !ltb_spec. apply SFltb_leb_trans. Qed.

(** [max(a, b)] of a double [a] that is not negative. *)
Lemma pymax_nonneg (a b : float) :
  fnonneg a ->
  (a <=? pymax (H := float_num) a b)%float = true
  /\ fnonneg (pymax (H := float_num) a b).
Proof.
  intro Ha. unfold pymax. cbn [ltb float_num].
  destruct (a <? b)%float eqn:E.
  - split; [| eapply fltb_nonneg; eassumption].
    rewrite leb_spec. apply SFltb_leb. now rewrite <- ltb_spec.
  - split; [| exact Ha]. rewrite leb_spec. now apply SFleb_refl.
Qed.

(** A gap that is at least [2^J] moves every position below [2^(J+53)]. *)
Lemma fadd_lt_threshold (a g : float) (J : Z) :
  fnonneg a -> -1022 <= J <= 970 ->
  (two_to J <=? g)%float = true ->
  (a + g <? two_to (J + 53))%float = true ->
  (a <? a + g)%float = true.
Proof.
  unfold fnonneg, two_to. intros Ha HJ.
  rewrite leb_spec, !ltb_spec, add_spec, !ldexp_one by lia.
  replace (J + 53 - 52) with (J + 1) by lia.
  apply SFadd_lt_threshold; try assumption; apply Prim2SF_valid.
Qed.

(** * The centres in binary64 *)

Lemma center_after_float (cfg : StyleConfig float) (c : float)
  (p q : ProcessedNode float) :
  fnonneg c -> fnonneg (main_h p) -> fnonneg (main_h q) ->
  fnonneg (base_gap (layout cfg)) ->
  fnonneg (center_after cfg c p q)
  /\ (c <=? center_after cfg c p q)%float = true
  /\ (forall J, -1022 <= J <= 970 ->
        (two_to J <=? base_gap (layout cfg))%float = true ->
        (center_after cfg c p q <? two_to (J + 53))%float = true ->
        (c <? center_after cfg c p q)%float = true).
Proof.
  intros Hc Hp Hq Hb. unfold center_after. cbn [add div float_num].
  destruct (pymax_nonneg (base_gap (layout cfg))
              (if 0 <? excl_n q
               then (excl_h q + of_int 2 * clearance (box_geometry cfg))%num
               else of_int 0) Hb) as (Hbg & Hg).
  fold (gap_formula cfg q) in Hbg, Hg.
  set (g := gap_formula cfg q) in *.
  pose proof (fhalf_nonneg _ Hp) as Hp2. pose proof (fhalf_nonneg _ Hq) as Hq2.
  set (hp := (main_h p / of_int 2)%float) in *.
  set (hq := (main_h q / of_int 2)%float) in *.
  destruct (fadd_nonneg c hp Hc Hp2) as (L1 & N1).
  destruct (fadd_nonneg (c + hp) g N1 Hg) as (L2 & N2).
  destruct (fadd_nonneg (c + hp + g) hq N2 Hq2) as (L3 & N3).
  split; [exact N3 |]. split.
  - eapply fleb_trans; [exact Hc | exact L1 |].
    eapply fleb_trans; [exact N1 | exact L2 | exact L3].
  - intros J HJ Hgap Hy.
    assert (Hjg : (two_to J <=? g)%float = true).
    { eapply fleb_trans; [| exact Hgap | exact Hbg].
      unfold fnonneg, two_to. rewrite ldexp_one by lia. exact I. }
    assert (H2 : (c + hp + g <? two_to (J + 53))%float = true)
      by (eapply fleb_ltb_trans; [exact N2 | exact L3 | exact Hy]).
    pose proof (fadd_lt_threshold (c + hp) g J N1 HJ Hjg H2) as Hstrict.
    eapply fleb_ltb_trans; [exact Hc | exact L1 |].
    eapply fltb_leb_trans; [exact N1 | exact Hstrict | exact L3].
Qed.



(* ===================================================================== *)
(** * Monotone centres                                                     *)
(* ===================================================================== *)

Section FloatLayout.
Context `{MplColors} `{WordSep}.

Lemma process_from_all {num : Type} `{PyNum num} (cfg : StyleConfig num)
  (main_pal excl_pal : list string)
  (data nodes : list CohortNode) (i : nat) (ps : list (ProcessedNode num)) :
  process_from cfg main_pal excl_pal data i nodes = Ok ps ->
  Forall (fun p => exists k node,
              process_node cfg main_pal excl_pal data k node = Ok p) ps.
Proof.
  revert i ps. induction nodes as [| nd nodes IH]; intros i ps Hps;
    cbn [process_from] in Hps.
  - injection Hps as <-. constructor.
  - apply bind_ok in Hps as (p0 & Hp0 & Hps).
    apply bind_ok in Hps as (ps' & Hps' & Hps). injection Hps as <-.
    constructor; [eauto | eapply IH; eassumption].
Qed.

(** The layout of a computed diagram under the positivity assumptions: box
    heights, base gap and first centre are doubles that are not negative. *)
Lemma plot_float_layout (cfg : StyleConfig float) (kwargs : Kwargs)
  (data : list CohortNode) (d : Diagram float) :
  plot_cohort_flow_diagram cfg kwargs data = Ok d ->
  positive_style cfg = true ->
  exists p rest c_last p_last,
    List.length (p :: rest) = List.length data
    /\ centers_y d
       = centers_from cfg
           (top_margin (layout cfg) + main_h p / of_int 2)%num p rest
    /\ total_height d
       = (c_last + main_h p_last / of_int 2 + bottom_margin (layout cfg))%num
    /\ nth_error (centers_y d) (List.length rest) = Some c_last
    /\ nth_error (p :: rest) (List.length rest) = Some p_last
    /\ fnonneg (top_margin (layout cfg))
    /\ fnonneg (base_gap (layout cfg))
    /\ Forall (fun node => fnonneg (main_h node)) (p :: rest)
    /\ fnonneg (top_margin (layout cfg) + main_h p / of_int 2)%num.
Proof.
  intros Hd Hpos.
  unfold positive_style in Hpos.
  repeat (apply andb_true_iff in Hpos as [Hpos ?]).
  assert (Htop : fnonneg (top_margin (layout cfg))) by now apply positive_nonneg.
  assert (Hgap : fnonneg (base_gap (layout cfg))) by now apply positive_nonneg.
  assert (Hmin : fnonneg (min_main_height (box_geometry cfg)))
    by now apply positive_nonneg.
  apply plot_inv in Hd as (Hne & main_pal & excl_pal & _ & _ & Hps & Hgeo).
  pose proof (process_from_length _ _ _ _ _ _ _ Hps) as Hlen.
  pose proof (process_from_all _ _ _ _ _ _ _ Hps) as Hall.
  destruct (processed_nodes d) as [| p rest].
  { destruct data; [contradiction | discriminate]. }
  destruct (geometry_closed cfg p rest) as (cl & pl & Hclosed & Hcl & Hpl).
  rewrite Hclosed in Hgeo. injection Hgeo as _ Hcenters Htotal.
  assert (Hheights : Forall (fun node => fnonneg (main_h node)) (p :: rest)).
  { eapply Forall_impl; [| exact Hall].
    intros q (k & node & Hq). apply process_node_inv in Hq
      as (n_prev & title & body & wrapped & md & ed & _ & _ & _ & _ & _ & _ & _
          & _ & _ & _ & _ & _ & _ & Hh & _).
    rewrite Hh. now apply pymax_nonneg. }
  exists p, rest, cl, pl.
  split; [exact Hlen |]. split; [symmetry; exact Hcenters |].
  split; [symmetry; exact Htotal |].
  split; [rewrite <- Hcenters; exact Hcl |].
  split; [exact Hpl |]. split; [exact Htop |]. split; [exact Hgap |].
  split; [exact Hheights |].
  cbn [add div float_num]. apply fadd_nonneg; [exact Htop |].
  apply fhalf_nonneg. now inversion Hheights.
Qed.


End FloatLayout.




(* ===================================================================== *)
(** * The configuration merge: [_recursive_update]                         *)
(* ===================================================================== *)

Lemma recursive_update_nil (default : value) :
  _recursive_update default (VDict []) = Ok default.
Proof. reflexivity. Qed.

Lemma recursive_update_cons (default : value) (key : string) (v : value)
  (rest : dict) :
  _recursive_update default (VDict ((key, v) :: rest))
  = (default' <- merge_step default key v ;;
     _recursive_update default' (VDict rest)).
Proof. destruct v; reflexivity. Qed.

Lemma dict_get_set_same (d : dict) (key : string) (v : value) :
  dict_get (dict_set d key v) key = Some v.
Proof.
  induction d as [| [k v'] d IH]; cbn [dict_set dict_get].
  - now rewrite String.eqb_refl.
  - destruct (String.eqb_spec k key) as [-> | Hne]; cbn [dict_get].
    + now rewrite String.eqb_refl.
    + apply String.eqb_neq in Hne. now rewrite Hne.
Qed.

Lemma dict_get_set_other (d : dict) (key k : string) (v : value) :
  key <> k -> dict_get (dict_set d key v) k = dict_get d k.
Proof.
  intro Hne. induction d as [| [k' v'] d IH]; cbn [dict_set dict_get].
  - apply String.eqb_neq in Hne. now rewrite Hne.
  - destruct (String.eqb_spec k' key) as [-> | Hne']; cbn [dict_get].
    + apply String.eqb_neq in Hne. now rewrite Hne.
    + now rewrite IH.
Qed.

Lemma dict_get_not_in (items : dict) (k : string) :
  ~ In k (map fst items) -> dict_get items k = None.
Proof.
  induction items as [| [k' v'] items IH]; intro Hn; [reflexivity |].
  cbn [dict_get]. cbn [map fst In] in Hn.
  destruct (String.eqb_spec k' k) as [-> | Hne]; [tauto |].
  apply IH. tauto.
Qed.

(** What one iteration does to a table. *)
Lemma merge_step_table (d : dict) (key : string) (v : value) (r : value) :
  merge_step (VDict d) key v = Ok r ->
  exists x, r = VDict (dict_set d key x)
    /\ match v, dict_get d key with
       | VDict _, Some old => _recursive_update old v = Ok x
       | _, _ => x = v
       end.
Proof.
  unfold merge_step. destruct v as [b | z | f | s | l | sub];
    try (cbn; intro Hr; injection Hr as <-; eexists; split; [reflexivity |];
         destruct (dict_get d key); reflexivity).
  cbn [py_contains bind py_getitem].
  destruct (dict_get d key) as [old |]; cbn [bind py_setitem].
  - intro Hr. apply bind_ok in Hr as (merged & Hm & Hr). injection Hr as <-.
    exists merged. auto.
  - intro Hr. injection Hr as <-. eexists. split; reflexivity.
Qed.

(** The merge, entry by entry, when it returns: keys absent from the
    override keep their value; a key of the override holds the override's
    value, unless that value is a table and the base has the key, in which
    case it holds the recursive merge of the two. *)
Lemma recursive_update_entries (items : dict) :
  forall (d : dict) (r : value),
    NoDup (map fst items) ->
    _recursive_update (VDict d) (VDict items) = Ok r ->
    exists d', r = VDict d'
      /\ forall k,
           (dict_get items k = None -> dict_get d' k = dict_get d k)
           /\ (forall v, dict_get items k = Some v ->
                 is_table v = false \/ dict_get d k = None ->
                 dict_get d' k = Some v)
           /\ (forall v old, dict_get items k = Some v ->
                 is_table v = true -> dict_get d k = Some old ->
                 exists m, _recursive_update old v = Ok m
                           /\ dict_get d' k = Some m).
Proof.
  induction items as [| [k0 v0] rest IH]; intros d r Hnd Hr.
  - rewrite recursive_update_nil in Hr. injection Hr as <-.
    exists d. split; [reflexivity |]. intro k.
    split; [reflexivity |]. split; intros; discriminate.
  - rewrite recursive_update_cons in Hr.
    apply bind_ok in Hr as (d1 & Hstep & Hr).
    apply merge_step_table in Hstep as (x0 & -> & Hx0).
    inversion Hnd as [| k0' rest' Hnotin Hnd']; subst.
    destruct (IH _ _ Hnd' Hr) as (d' & -> & Hd').
    exists d'. split; [reflexivity |]. intro k.
    destruct (Hd' k) as (Hnone & Hrepl & Hmerge).
    cbn [dict_get].
    destruct (String.eqb_spec k0 k) as [-> | Hne].
    + (* the key of this iteration: later items do not touch it *)
      pose proof (dict_get_not_in rest k Hnotin) as Hrest.
      specialize (Hnone Hrest). rewrite dict_get_set_same in Hnone.
      split; [discriminate |]. split.
      * intros v Hv Hcase. injection Hv as <-. rewrite Hnone. f_equal.
        destruct Hcase as [Ht | Hk].
        -- destruct v0; try discriminate Ht; destruct (dict_get d k); assumption.
        -- rewrite Hk in Hx0. destruct v0; assumption.
      * intros v old Hv Ht Hold. injection Hv as <-. rewrite Hold in Hx0.
        destruct v0; try discriminate Ht. exists x0. auto.
    + (* another key: this iteration left it as it was *)
      rewrite (dict_get_set_other d k0 k x0 Hne) in Hnone, Hrepl, Hmerge.
      auto.
Qed.

(** A non-empty table of the override over a value of the base that is not
    a table: the merge raises. *)
Lemma recursive_update_table_over_scalar_raises (items : dict) :
  forall (d : dict) (k : string) (entry : string * value) (sub : dict)
         (old : value),
    NoDup (map fst items) ->
    dict_get items k = Some (VDict (entry :: sub)) ->
    dict_get d k = Some old -> is_table old = false ->
    exists e, _recursive_update (VDict d) (VDict items) = Raise e.
Proof.
  induction items as [| [k0 v0] rest IH]; intros d k entry sub old Hnd Hk Hold Ht;
    [discriminate |].
  rewrite recursive_update_cons.
  inversion Hnd as [| k0' rest' Hnotin Hnd']; subst.
  cbn [dict_get] in Hk.
  destruct (String.eqb_spec k0 k) as [-> | Hne].
  - injection Hk as ->. unfold merge_step.
    cbn [py_contains bind py_getitem]. rewrite Hold. cbn [bind].
    assert (Hraise : exists e, _recursive_update old (VDict (entry :: sub)) = Raise e).
    { destruct entry as [k1 v1]. rewrite recursive_update_cons.
      unfold merge_step.
      destruct old as [b | z | f | s | l | t]; try discriminate Ht;
        destruct v1; cbn; try (eexists; reflexivity);
        match goal with
        | |- context [if ?c then _ else _] => destruct c
        end; cbn; eexists; reflexivity. }
    destruct Hraise as (e & ->). exists e. reflexivity.
  - destruct (merge_step (VDict d) k0 v0) as [d1 | e] eqn:Hstep;
      [| exists e; reflexivity].
    apply merge_step_table in Hstep as (x0 & -> & _). cbn [bind].
    apply (IH _ k entry sub old Hnd' Hk); [| assumption].
    now rewrite dict_get_set_other.
Qed.

(** C1, where the code departs from the claim.  A table in the override
    does not replace a scalar of the base: the recursive call indexes the
    scalar and raises [TypeError]; when the table is empty the loop does not
    run and the scalar is kept.  The last line is the same defect on the
    bundled white style.  (A scalar in the override does replace a table.) *)
Theorem recursive_update_table_over_scalar :
  _recursive_update (VDict [("a", VInt 1)]) (VDict [("a", VDict [("b", VInt 2)])])
  = Raise TypeError
  /\ _recursive_update (VDict [("a", VInt 1)]) (VDict [("a", VDict [])])
     = Ok (VDict [("a", VInt 1)])
  /\ _recursive_update (VDict [("a", VDict [("b", VInt 2)])]) (VDict [("a", VInt 1)])
     = Ok (VDict [("a", VInt 1)])
  /\ _recursive_update fallback_config
       (VDict [("colors", VDict [("main_start", VDict [("hex", VStr "#000000")])])])
     = Raise TypeError.
Proof. repeat split; vm_compute; reflexivity. Qed.

(** The tests of the package. *)
Example recursive_update_tests :
  _recursive_update (VDict [("a", VInt 1); ("b", VInt 2)])
                    (VDict [("b", VInt 99); ("c", VInt 3)])
  = Ok (VDict [("a", VInt 1); ("b", VInt 99); ("c", VInt 3)])
  /\ _recursive_update (VDict [("x", VDict [("y", VInt 1); ("z", VInt 2)])])
                       (VDict [("x", VDict [("z", VInt 99)])])
     = Ok (VDict [("x", VDict [("y", VInt 1); ("z", VInt 99)])]).
Proof. repeat split; vm_compute; reflexivity. Qed.

(* ===================================================================== *)
(** * The two ends of a gradient                                           *)
(* ===================================================================== *)

(** The interpolation factor is [0/(n-1)] at the first entry and
    [(n-1)/(n-1)] at the last.  In binary64 the first is a zero and the
    second is one (or NaN, were the divisor not a finite non-zero number),
    and at these factors every channel comes out exact.  The facts about the
    small integers involved are checked by evaluation over all of them. *)

Lemma all_differences_ok : forallb difference_ok difference_values = true.
Proof. vm_compute. reflexivity. Qed.

Lemma all_channel_values_ok : forallb channel_value_ok channel_values = true.
Proof. vm_compute. reflexivity. Qed.

Lemma all_sums_ok :
  forallb (fun s => forallb (sum_ok s) channel_values) channel_values = true.
Proof. vm_compute. reflexivity. Qed.

Lemma in_channel_values (v : Z) : 0 <= v <= 255 -> In v channel_values.
Proof.
  intro Hv. unfold channel_values. rewrite <- (Z2Nat.id v) by lia.
  apply in_map, in_seq. lia.
Qed.

Lemma in_difference_values (d : Z) : -255 <= d <= 255 -> In d difference_values.
Proof.
  intro Hd. unfold difference_values.
  replace d with (Z.of_nat (Z.to_nat (d + 255)) - 255) by lia.
  apply (in_map (fun k => Z.of_nat k - 255)), in_seq. lia.
Qed.

Lemma is_zero_cases (x : float) : is_zero x = true -> x = 0%float \/ x = (-0)%float.
Proof.
  unfold is_zero. intro Hx. apply orb_true_iff in Hx as [Hx | Hx];
    apply Leibniz.eqb_spec in Hx; auto.
Qed.

Lemma difference_facts (d : Z) :
  -255 <= d <= 255 ->
  float_of_int d = Ok (small_float d)
  /\ (small_float d * 1)%float = small_float d
  /\ ((small_float d * 0)%float = 0%float \/ (small_float d * 0)%float = (-0)%float)
  /\ ((small_float d * (-0))%float = 0%float
      \/ (small_float d * (-0))%float = (-0)%float)
  /\ (small_float d * nan)%float = nan.
Proof.
  intro Hd. pose proof all_differences_ok as Hall.
  rewrite forallb_forall in Hall.
  specialize (Hall d (in_difference_values d Hd)). unfold difference_ok in Hall.
  apply andb_true_iff in Hall as [Hall Hnan].
  apply andb_true_iff in Hall as [Hall Hneg].
  apply andb_true_iff in Hall as [Hall Hzero].
  apply andb_true_iff in Hall as [Hconv Hone].
  apply Leibniz.eqb_spec in Hnan, Hone.
  apply is_zero_cases in Hneg, Hzero.
  destruct (float_of_int d) as [f |]; [| discriminate].
  apply Leibniz.eqb_spec in Hconv. subst f. auto.
Qed.

Lemma channel_value_facts (s : Z) :
  0 <= s <= 255 ->
  round (small_float s) = Ok s
  /\ (small_float s + 0)%float = small_float s
  /\ (small_float s + (-0))%float = small_float s
  /\ (small_float s + nan)%float = nan.
Proof.
  intro Hs. pose proof all_channel_values_ok as Hall.
  rewrite forallb_forall in Hall.
  specialize (Hall s (in_channel_values s Hs)). unfold channel_value_ok in Hall.
  apply andb_true_iff in Hall as [Hall Hnan].
  apply andb_true_iff in Hall as [Hall Hneg].
  apply andb_true_iff in Hall as [Hround Hzero].
  apply Leibniz.eqb_spec in Hnan, Hneg, Hzero.
  destruct (round (small_float s)) as [v |]; [| discriminate].
  apply Z.eqb_eq in Hround. subst v. auto.
Qed.

Lemma sum_fact (s e : Z) :
  0 <= s <= 255 -> 0 <= e <= 255 ->
  (small_float s + small_float (e - s))%float = small_float e.
Proof.
  intros Hs He. pose proof all_sums_ok as Hall.
  rewrite forallb_forall in Hall.
  specialize (Hall s (in_channel_values s Hs)). rewrite forallb_forall in Hall.
  specialize (Hall e (in_channel_values e He)).
  now apply Leibniz.eqb_spec in Hall.
Qed.

(** One channel at the interpolation factors that occur at the two ends. *)
Lemma interpolate_channel_ends (s e : Z) :
  0 <= s <= 255 -> 0 <= e <= 255 ->
  interpolate_channel s e 0%float = Ok s
  /\ interpolate_channel s e (-0)%float = Ok s
  /\ interpolate_channel s e 1%float = Ok e
  /\ exists err, interpolate_channel s e nan = Raise err.
Proof.
  intros Hs He.
  assert (Hde : -255 <= e - s <= 255) by lia.
  assert (Hds : -255 <= s <= 255) by lia.
  destruct (difference_facts (e - s) Hde) as (Hconv & Hone & Hzero & Hneg & Hnan).
  destruct (difference_facts s Hds) as (Hstart & _).
  destruct (channel_value_facts s Hs) as (Hround & Hs0 & Hsn & Hsnan).
  destruct (channel_value_facts e He) as (Hround_e & _).
  pose proof (sum_fact s e Hs He) as Hsum.
  unfold interpolate_channel. rewrite Hconv, Hstart. cbn [bind].
  split; [| split; [| split]].
  - destruct Hzero as [-> | ->]; [rewrite Hs0 | rewrite Hsn]; exact Hround.
  - destruct Hneg as [-> | ->]; [rewrite Hs0 | rewrite Hsn]; exact Hround.
  - rewrite Hone, Hsum. exact Hround_e.
  - rewrite Hnan, Hsnan. eexists. reflexivity.
Qed.

Lemma div_zero_cases (y : float) :
  (0 / y)%float = 0%float \/ (0 / y)%float = (-0)%float \/ (0 / y)%float = nan.
Proof.
  pose proof (div_spec 0 y) as Hd.
  change (Prim2SF 0) with (S754_zero false) in Hd.
  destruct (Prim2SF y) as [sy | sy | | sy my ey]; cbn in Hd.
  - right. right. apply Prim2SF_inj. rewrite Hd. reflexivity.
  - destruct sy; [right; left | left]; apply Prim2SF_inj; rewrite Hd; reflexivity.
  - right. right. apply Prim2SF_inj. rewrite Hd. reflexivity.
  - destruct sy; [right; left | left]; apply Prim2SF_inj; rewrite Hd; reflexivity.
Qed.

Lemma div_eucl_shift_self (m : positive) :
  Z.div_eucl (Z.shiftl (Zpos m) 53) (Zpos m) = (2 ^ 53, 0).
Proof.
  rewrite Z.shiftl_mul_pow2 by lia.
  pose proof (Z_div_mod (Zpos m * 2 ^ 53) (Zpos m) ltac:(lia)) as Hdm.
  destruct (Z.div_eucl (Zpos m * 2 ^ 53) (Zpos m)) as [q r].
  destruct Hdm as [Heq Hr].
  assert (Hr0 : r = 0).
  { assert (Hdiv : (Zpos m | r)).
    { exists (2 ^ 53 - q). lia. }
    destruct Hdiv as [k Hk]. subst r.
    assert (k = 0) by nia. subst k. lia. }
  subst r. f_equal. nia.
Qed.

Lemma SFdiv_self (s : bool) (m : positive) (e : Z) :
  SF64div (S754_finite s m e) (S754_finite s m e) = Prim2SF 1.
Proof.
  unfold SF64div, SFdiv, SFdiv_core_binary.
  rewrite !Z.sub_diag.
  change (Z.min (fexp prec emax 0) 0) with (-53).
  change (0 - -53) with 53. cbv iota.
  change (IntDef.Z.div_eucl (IntDef.Z.shiftl (Z.pos m) 53) (Z.pos m))
    with (Z.div_eucl (Z.shiftl (Z.pos m) 53) (Z.pos m)).
  rewrite div_eucl_shift_self.
  assert (Hloc : new_location (Zpos m) 0 = loc_Exact).
  { unfold new_location. destruct (Z.even (Zpos m)); reflexivity. }
  rewrite Hloc. rewrite xorb_nilpotent. vm_compute. reflexivity.
Qed.

Lemma div_self_cases (y : float) :
  (y / y)%float = 1%float \/ (y / y)%float = nan.
Proof.
  pose proof (div_spec y y) as Hd.
  destruct (Prim2SF y) as [sy | sy | | sy my ey] eqn:Ey.
  - right. apply Prim2SF_inj. rewrite Hd. reflexivity.
  - right. apply Prim2SF_inj. rewrite Hd. reflexivity.
  - right. apply Prim2SF_inj. rewrite Hd. reflexivity.
  - left. apply Prim2SF_inj. rewrite Hd. apply SFdiv_self.
Qed.

(** A colour between two six-digit hex colours at the factors of the ends. *)
Lemma interpolate_color_ends (hs he : string) :
  is_hex6 hs = true -> is_hex6 he = true ->
  _interpolate_color hs he 0%float = Ok (lower hs)
  /\ _interpolate_color hs he (-0)%float = Ok (lower hs)
  /\ _interpolate_color hs he 1%float = Ok (lower he)
  /\ exists err, _interpolate_color hs he nan = Raise err.
Proof.
  intros Hs He.
  destruct (hex6_channels hs Hs) as (sr & sg & sb & Hsrgb & Rsr & Rsg & Rsb & Hshex).
  destruct (hex6_channels he He) as (er & eg & eb & Hergb & Rer & Reg & Reb & Hehex).
  destruct (interpolate_channel_ends sr er Rsr Rer) as (Hr0 & Hrn & Hr1 & (xr & Hrx)).
  destruct (interpolate_channel_ends sg eg Rsg Reg) as (Hg0 & Hgn & Hg1 & _).
  destruct (interpolate_channel_ends sb eb Rsb Reb) as (Hb0 & Hbn & Hb1 & _).
  unfold _interpolate_color. rewrite Hsrgb, Hergb. cbn [bind].
  rewrite Hr0, Hg0, Hb0, Hrn, Hgn, Hbn, Hr1, Hg1, Hb1, Hrx. cbn [bind].
  rewrite Hshex, Hehex. repeat split. eexists. reflexivity.
Qed.

Lemma range_first (hi : nat) : (0 < hi)%nat -> nth_error (range 0 hi) 0 = Some 0%nat.
Proof. intro Hh. unfold range. destruct hi; [lia | reflexivity]. Qed.

Lemma range_last (hi : nat) :
  (0 < hi)%nat -> nth_error (range 0 hi) (hi - 1) = Some (hi - 1)%nat.
Proof.
  intro Hh. unfold range. rewrite Nat.sub_0_r.
  rewrite nth_error_nth' with (d := 0%nat) by (rewrite length_seq; lia).
  rewrite seq_nth by lia. reflexivity.
Qed.

(** For [n > 1], a palette that is returned starts with the canonical start
    colour and ends with the canonical end colour, and has [n] entries. *)
Lemma gradient_palette_ends `{MplColors} (start_hex end_hex hs he : string)
  (n : Z) (palette : list string) :
  1 < n ->
  to_hex start_hex = Some hs -> to_hex end_hex = Some he ->
  is_hex6 hs = true -> is_hex6 he = true ->
  gradient_palette start_hex end_hex n = Ok palette ->
  Z.of_nat (List.length palette) = n
  /\ nth_error palette 0 = Some (lower hs)
  /\ nth_error palette (Z.to_nat n - 1) = Some (lower he).
Proof.
  intros Hn Hstart Hend Hs6 He6 Hp.
  split; [now apply (gradient_palette_length start_hex end_hex) |].
  unfold gradient_palette, mcolors_to_hex in Hp.
  destruct (Z.leb_spec n 1) as [Hle | _]; [lia |].
  rewrite Hstart, Hend in Hp. cbn [bind] in Hp.
  destruct (interpolate_color_ends hs he Hs6 He6)
    as (H0 & Hneg & H1 & (err & Hnan)).
  assert (Hpos : (0 < Z.to_nat n)%nat) by lia.
  split.
  - destruct (mapM_nth_error _ _ _ 0%nat 0%nat Hp (range_first _ Hpos))
      as (c & Hc & Hf).
    rewrite Hc. f_equal.
    apply bind_ok in Hf as (t & Ht & Hcol). unfold true_div in Ht.
    apply bind_ok in Ht as (x & Hx & Ht).
    apply bind_ok in Ht as (y & Hy & Ht). injection Ht as <-.
    change (float_of_int (Z.of_nat 0)) with (Ok 0%float) in Hx.
    injection Hx as <-.
    destruct (div_zero_cases y) as [E | [E | E]]; rewrite E in Hcol; congruence.
  - destruct (mapM_nth_error _ _ _ _ _ Hp (range_last _ Hpos)) as (c & Hc & Hf).
    rewrite Hc. f_equal.
    apply bind_ok in Hf as (t & Ht & Hcol). unfold true_div in Ht.
    apply bind_ok in Ht as (x & Hx & Ht).
    apply bind_ok in Ht as (y & Hy & Ht). injection Ht as <-.
    replace (Z.of_nat (Z.to_nat n - 1)) with (n - 1) in Hx by lia.
    rewrite Hx in Hy. injection Hy as <-.
    destruct (div_self_cases x) as [E | E]; rewrite E in Hcol; congruence.
Qed.

(* ===================================================================== *)
(** * Further properties: colours                                          *)
(* ===================================================================== *)

(** A gradient of three colours from red to blue. *)
Lemma gradient_palette_ends_witness :
  exists palette,
    gradient_palette (H := Samples.basic_colors) "red" "blue" 3 = Ok palette
    /\ Z.of_nat (List.length palette) = 3
    /\ nth_error palette 0 = Some (lower "#ff0000")
    /\ nth_error palette (Z.to_nat 3 - 1) = Some (lower "#0000ff").
Proof.
  assert (Hp : exists palette,
             gradient_palette (H := Samples.basic_colors) "red" "blue" 3
             = Ok palette) by (eexists; vm_compute; reflexivity).
  destruct Hp as (palette & Hp). exists palette. split; [exact Hp |].
  apply (gradient_palette_ends (H := Samples.basic_colors)
           "red" "blue" "#ff0000" "#0000ff" 3 palette);
    [lia | reflexivity | reflexivity | reflexivity | reflexivity | exact Hp].
Defined.

(** [_interpolate_color] between two six-digit hex colours returns the start
    colour at [t = 0] and the end colour at [t = 1], both in lowercase. *)
Theorem interpolate_color_endpoints (start_hex end_hex : string) :
  is_hex6 start_hex = true -> is_hex6 end_hex = true ->
  _interpolate_color start_hex end_hex 0%float = Ok (lower start_hex)
  /\ _interpolate_color start_hex end_hex 1%float = Ok (lower end_hex).
Proof.
  intros Hs He.
  destruct (interpolate_color_ends start_hex end_hex Hs He) as (H0 & _ & H1 & _).
  split; assumption.
Qed.

Lemma interpolate_color_endpoints_witness :
  _interpolate_color "#1A2b3c" "#ffffff" 0%float = Ok "#1a2b3c"
  /\ _interpolate_color "#1A2b3c" "#ffffff" 1%float = Ok "#ffffff".
Proof.
  apply (interpolate_color_endpoints "#1A2b3c" "#ffffff"); reflexivity.
Defined.

Lemma all_format_parse_ok : forallb format_parse_ok channel_values = true.
Proof. vm_compute. reflexivity. Qed.

Lemma format_parse (v : Z) :
  0 <= v <= 255 ->
  exists c1 c2,
    format_02x v = String c1 (String c2 "")
    /\ is_hex_digit c1 = true /\ is_hex_digit c2 = true
    /\ lower_char c1 = c1 /\ lower_char c2 = c2
    /\ int16 (String c1 (String c2 "")) = Ok v.
Proof.
  intro Hv. pose proof all_format_parse_ok as Hall.
  rewrite forallb_forall in Hall. specialize (Hall v (in_channel_values v Hv)).
  unfold format_parse_ok in Hall.
  destruct (format_02x v) as [| c1 [| c2 [| c3 rest]]]; try discriminate Hall.
  exists c1, c2.
  apply andb_true_iff in Hall as [Hall Hint].
  apply andb_true_iff in Hall as [Hall Hl2].
  apply andb_true_iff in Hall as [Hall Hl1].
  apply andb_true_iff in Hall as [H1 H2].
  apply Ascii.eqb_eq in Hl1, Hl2.
  destruct (int16 (String c1 (String c2 ""))) as [w |]; [| discriminate].
  apply Z.eqb_eq in Hint. subst w. auto 10.
Qed.

(** The other round trip: channels from 0 to 255 print as a lowercase
    six-digit hex colour that parses back to the same channels. *)
Theorem rgb_hex_roundtrip (r g b : Z) :
  0 <= r <= 255 -> 0 <= g <= 255 -> 0 <= b <= 255 ->
  is_hex6 (_rgb_to_hex (r, g, b)) = true
  /\ lower (_rgb_to_hex (r, g, b)) = _rgb_to_hex (r, g, b)
  /\ _hex_to_rgb (_rgb_to_hex (r, g, b)) = Ok (r, g, b).
Proof.
  intros Hr Hg Hb.
  destruct (format_parse r Hr) as (r1 & r2 & Fr & Hr1 & Hr2 & Lr1 & Lr2 & Pr).
  destruct (format_parse g Hg) as (g1 & g2 & Fg & Hg1 & Hg2 & Lg1 & Lg2 & Pg).
  destruct (format_parse b Hb) as (b1 & b2 & Fb & Hb1 & Hb2 & Lb1 & Lb2 & Pb).
  unfold _rgb_to_hex. rewrite Fr, Fg, Fb. cbn [append].
  split; [| split].
  - cbn [is_hex6 String.length Nat.eqb list_ascii_of_string forallb andb].
    change (Ascii.eqb "#" "#") with true. cbv iota.
    rewrite Hr1, Hr2, Hg1, Hg2, Hb1, Hb2. reflexivity.
  - cbn [lower]. rewrite Lr1, Lr2, Lg1, Lg2, Lb1, Lb2. reflexivity.
  - unfold _hex_to_rgb. cbn [lstrip_char].
    rewrite (hex_digit_not_hash r1 Hr1).
    change (Ascii.eqb "#" "#") with true. cbn iota.
    cbn [String.length Nat.eqb slice substring Nat.sub].
    rewrite Pr, Pg, Pb. reflexivity.
Qed.

Lemma rgb_hex_roundtrip_witness :
  is_hex6 (_rgb_to_hex (26, 43, 60)) = true
  /\ lower (_rgb_to_hex (26, 43, 60)) = _rgb_to_hex (26, 43, 60)
  /\ _hex_to_rgb (_rgb_to_hex (26, 43, 60)) = Ok (26, 43, 60).
Proof. apply (rgb_hex_roundtrip 26 43 60); lia. Defined.

Lemma int16_raises (s : string) (e : exn) :
  int16 s = Raise e -> e = invalid_literal s.
Proof.
  unfold int16.
  destruct (match int_rstrip (int_lstrip s) with
            | String "+" r => (1, r)
            | String "-" r => (-1, r)
            | _ => (1, int_rstrip (int_lstrip s))
            end) as [sign unsigned].
  match goal with
  | |- match ?p with Some _ => _ | None => _ end = _ -> _ => destruct p
  end; [discriminate | intro E; now injection E].
Qed.

Lemma substring_beyond (s : string) (a m : nat) :
  (String.length s <= a)%nat -> substring a m s = "".
Proof.
  revert a. induction s as [| c s IH]; intros a Ha.
  - destruct a, m; reflexivity.
  - destruct a as [| a]; [cbn in Ha; lia |].
    cbn [substring]. apply IH. cbn in Ha. lia.
Qed.

(** A colour string with fewer than five characters after its leading [#]
    signs has no blue channel: [_hex_to_rgb] raises the [ValueError] of
    [int()].  The three-digit form [#abc] is such a string. *)
Theorem hex_to_rgb_short_raises (hex_color : string) :
  (String.length (lstrip_char "#" hex_color) <= 4)%nat ->
  exists literal, _hex_to_rgb hex_color = Raise (invalid_literal literal).
Proof.
  intro Hlen. unfold _hex_to_rgb.
  set (s := lstrip_char "#" hex_color) in *.
  destruct (Nat.eqb_spec (String.length s) 8) as [E | _]; [lia |].
  assert (Hblue : slice s 4 6 = "") by (apply substring_beyond; assumption).
  rewrite Hblue.
  destruct (int16 (slice s 0 2)) as [r | e] eqn:Er.
  2:{ apply int16_raises in Er. subst e. eexists. reflexivity. }
  destruct (int16 (slice s 2 4)) as [g | e] eqn:Eg.
  2:{ apply int16_raises in Eg. subst e. eexists. reflexivity. }
  exists "". reflexivity.
Qed.

Lemma hex_to_rgb_short_raises_witness :
  exists literal, _hex_to_rgb "#abc" = Raise (invalid_literal literal).
Proof. apply (hex_to_rgb_short_raises "#abc"). cbn. lia. Defined.

(** The messages as CPython words them: the literal is shown by [repr],
    between double quotes when it holds an apostrophe. *)
Example hex_to_rgb_messages :
  _hex_to_rgb "#abc"
  = Raise (ValueError "invalid literal for int() with base 16: ''")
  /\ _hex_to_rgb "#a'"
     = Raise (ValueError ("invalid literal for int() with base 16: "
                          ++ String dquote ("a'" ++ String dquote ""))).
Proof. split; vm_compute; reflexivity. Qed.

(** An eight-digit hex colour is read as its first six digits: the alpha
    channel is dropped. *)
Theorem hex_to_rgb_drops_alpha (h : string) :
  is_hex8 h = true ->
  is_hex6 (slice h 0 7) = true
  /\ _hex_to_rgb h = _hex_to_rgb (slice h 0 7).
Proof.
  unfold is_hex8. destruct h as [| c0 ds]; [discriminate |].
  destruct (Ascii.eqb_spec c0 "#") as [-> | Hne].
  2:{ intro Hf. exfalso.
      destruct c0 as [[] [] [] [] [] [] [] []]; try discriminate Hf.
      now apply Hne. }
  intro Hh. apply andb_true_iff in Hh as [Hlen Hall].
  apply Nat.eqb_eq in Hlen.
  destruct ds as [| c1 [| c2 [| c3 [| c4 [| c5 [| c6 [| c7 [| c8 [| c9 ds]]]]]]]]];
    try discriminate Hlen.
  cbn [list_ascii_of_string forallb] in Hall.
  repeat (apply andb_true_iff in Hall as [? Hall]).
  cbn [slice substring Nat.sub].
  split.
  - cbn [is_hex6 String.length Nat.eqb list_ascii_of_string forallb andb].
    change (Ascii.eqb "#" "#") with true. cbv iota.
    repeat match goal with H : is_hex_digit _ = true |- _ => rewrite H; clear H end.
    reflexivity.
  - unfold _hex_to_rgb. cbn [lstrip_char].
    rewrite (hex_digit_not_hash c1) by assumption.
    change (Ascii.eqb "#" "#") with true. cbn iota.
    cbn [String.length Nat.eqb slice substring Nat.sub]. reflexivity.
Qed.

Lemma hex_to_rgb_drops_alpha_witness :
  is_hex6 (slice "#ff000080" 0 7) = true
  /\ _hex_to_rgb "#ff000080" = _hex_to_rgb (slice "#ff000080" 0 7).
Proof. apply (hex_to_rgb_drops_alpha "#ff000080"). reflexivity. Defined.

(* ===================================================================== *)
(** * Further properties: the configuration merge                          *)
(* ===================================================================== *)

Lemma merge_step_raises (default : value) (key : string) (v : value) (e : exn) :
  (forall old e', _recursive_update old v = Raise e' -> is_table v = true ->
                  e' = TypeError) ->
  merge_step default key v = Raise e -> e = TypeError.
Proof.
  intros IH. unfold merge_step.
  assert (Hset : forall x, py_setitem default key x = Raise e -> e = TypeError).
  { intros x. unfold py_setitem. destruct default; intro Hx;
      first [discriminate Hx | now injection Hx]. }
  destruct v as [b | z | f | s | l | sub]; try apply Hset.
  destruct (py_contains default key) as [present | e0] eqn:Hc; cbn [bind].
  2:{ intro He. injection He as <-. unfold py_contains in Hc.
      destruct default; first [discriminate Hc | now injection Hc]. }
  destruct present; [| apply Hset].
  destruct (py_getitem default key) as [old | e0] eqn:Hg; cbn [bind].
  2:{ intro He. injection He as <-. unfold py_getitem, py_contains in *.
      destruct default; try (now injection Hg).
      destruct (dict_get items key); [discriminate Hg | discriminate Hc]. }
  destruct (_recursive_update old (VDict sub)) as [m | e0] eqn:Hm; cbn [bind].
  - apply Hset.
  - intro He. injection He as <-. apply (IH old e0 Hm eq_refl).
Qed.

Lemma recursive_update_raises_type_error_sized (size : nat) :
  forall (override default : value) (e : exn),
    (value_size override <= size)%nat ->
    is_table override = true ->
    _recursive_update default override = Raise e -> e = TypeError.
Proof.
  induction size as [| size IH]; intros override default e Hsize Ht.
  - destruct override; cbn in Hsize; lia.
  - destruct override as [b | z | f | s | l | items]; try discriminate Ht.
    clear Ht. cbn [value_size] in Hsize. apply le_S_n in Hsize.
    revert default. induction items as [| [k v] rest IHrest]; intros default He.
    + discriminate He.
    + cbn [fold_right snd] in Hsize. rewrite recursive_update_cons in He.
      destruct (merge_step default k v) as [d1 | e1] eqn:Hstep; cbn [bind] in He.
      * apply (IHrest ltac:(lia) d1 He).
      * injection He as <-. apply (merge_step_raises default k v e1); [| exact Hstep].
        intros old e' He' Hv. apply (IH v old e'); [lia | exact Hv | exact He'].
Qed.

Lemma recursive_update_raises_type_error (default : value) (items : dict) (e : exn) :
  _recursive_update default (VDict items) = Raise e -> e = TypeError.
Proof.
  apply (recursive_update_raises_type_error_sized (value_size (VDict items)));
    [apply le_n | reflexivity].
Qed.

(** A non-empty table of the override over an entry of the base that is not
    a table makes the whole merge raise [TypeError], wherever the entry
    stands among the items of the override. *)
Theorem recursive_update_table_over_non_table (d items : dict) (k : string)
  (entry : string * value) (sub : dict) (old : value) :
  NoDup (map fst items) ->
  dict_get items k = Some (VDict (entry :: sub)) ->
  dict_get d k = Some old -> is_table old = false ->
  _recursive_update (VDict d) (VDict items) = Raise TypeError.
Proof.
  intros Hnd Hk Hold Ht.
  destruct (recursive_update_table_over_scalar_raises items d k entry sub old
              Hnd Hk Hold Ht) as (e & He).
  rewrite He. f_equal. apply (recursive_update_raises_type_error _ _ _ He).
Qed.

Lemma recursive_update_table_over_non_table_witness :
  _recursive_update
    (VDict [("figure", VDict [("dpi", VInt 200)]); ("layout", VStr "wide")])
    (VDict [("figure", VDict [("dpi", VInt 300)]);
            ("layout", VDict [("base_gap", VInt 1)])])
  = Raise TypeError.
Proof.
  apply (recursive_update_table_over_non_table
           [("figure", VDict [("dpi", VInt 200)]); ("layout", VStr "wide")]
           [("figure", VDict [("dpi", VInt 300)]);
            ("layout", VDict [("base_gap", VInt 1)])]
           "layout" ("base_gap", VInt 1) [] (VStr "wide")).
  - repeat constructor; cbn; intuition discriminate.
  - reflexivity.
  - reflexivity.
  - reflexivity.
Defined.

(** The merge of an override without tables, key by key. *)
Lemma recursive_update_flat (d items : dict) :
  NoDup (map fst items) -> flat items = true ->
  exists d',
    _recursive_update (VDict d) (VDict items) = Ok (VDict d')
    /\ forall k, dict_get d' k = match dict_get items k with
                                 | Some v => Some v
                                 | None => dict_get d k
                                 end.
Proof.
  revert d. induction items as [| [k0 v0] rest IH]; intros d Hnd Hflat.
  - exists d. split; reflexivity.
  - cbn [flat forallb snd] in Hflat. apply andb_true_iff in Hflat as [Hv0 Hrest].
    inversion Hnd as [| k0' rest' Hnotin Hnd']; subst.
    rewrite recursive_update_cons.
    assert (Hstep : merge_step (VDict d) k0 v0 = Ok (VDict (dict_set d k0 v0)))
      by (destruct v0; first [reflexivity | discriminate Hv0]).
    rewrite Hstep. cbn [bind].
    destruct (IH (dict_set d k0 v0) Hnd' Hrest) as (d' & Hd' & Hget).
    exists d'. split; [exact Hd' |]. intro k. rewrite Hget. cbn [dict_get].
    destruct (String.eqb_spec k0 k) as [-> | Hne].
    + rewrite (dict_get_not_in rest k Hnotin). apply dict_get_set_same.
    + destruct (dict_get rest k); [reflexivity |].
      now apply dict_get_set_other.
Qed.

(** An override without tables never fails on a table: the result holds the
    override's value at every key of the override and the base's value at
    every other key. *)
Theorem recursive_update_flat_override (d items : dict) :
  NoDup (map fst items) -> flat items = true ->
  exists d',
    _recursive_update (VDict d) (VDict items) = Ok (VDict d')
    /\ forall k, dict_get d' k = match dict_get items k with
                                 | Some v => Some v
                                 | None => dict_get d k
                                 end.
Proof. intros Hnd Hflat. now apply recursive_update_flat. Qed.

Lemma recursive_update_flat_override_witness :
  exists d',
    _recursive_update (VDict [("a", VInt 1); ("b", VInt 2)])
                      (VDict [("b", VInt 99); ("c", VInt 3)]) = Ok (VDict d')
    /\ forall k, dict_get d' k
                 = match dict_get [("b", VInt 99); ("c", VInt 3)] k with
                   | Some v => Some v
                   | None => dict_get [("a", VInt 1); ("b", VInt 2)] k
                   end.
Proof.
  apply (recursive_update_flat_override
           [("a", VInt 1); ("b", VInt 2)] [("b", VInt 99); ("c", VInt 3)]).
  - repeat constructor; cbn; intuition discriminate.
  - reflexivity.
Defined.

(** A merge that returns, entry by entry: a key the override does not have
    keeps the base's value; a key whose override value is a table, where the
    base has the key too, holds the recursive merge of the two values; any
    other key of the override holds the override's value. *)
Theorem recursive_update_merges_entries (d items : dict) (r : value) :
  NoDup (map fst items) ->
  _recursive_update (VDict d) (VDict items) = Ok r ->
  exists d',
    r = VDict d'
    /\ forall k,
         match dict_get items k, dict_get d k with
         | None, old => dict_get d' k = old
         | Some (VDict sub), Some old =>
             exists m, _recursive_update old (VDict sub) = Ok m
                       /\ dict_get d' k = Some m
         | Some v, _ => dict_get d' k = Some v
         end.
Proof.
  intros Hnd Hr.
  destruct (recursive_update_entries items d r Hnd Hr) as (d' & -> & Hd').
  exists d'. split; [reflexivity |]. intro k.
  destruct (Hd' k) as (Hnone & Hrepl & Hmerge).
  destruct (dict_get items k) as [v |] eqn:Hv; [| now apply Hnone].
  destruct (dict_get d k) as [old |] eqn:Hold.
  - destruct v as [b | z | f | s | l | sub];
      try (apply Hrepl; [reflexivity | now left]).
    apply (Hmerge (VDict sub) old); reflexivity.
  - assert (Hd : dict_get d' k = Some v) by (apply Hrepl; [reflexivity | now right]).
    destruct v; exact Hd.
Qed.

(** The nested test of the package. *)
Lemma recursive_update_merges_entries_witness :
  exists d',
    VDict [("x", VDict [("y", VInt 1); ("z", VInt 99)])] = VDict d'
    /\ forall k,
         match dict_get [("x", VDict [("z", VInt 99)])] k,
               dict_get [("x", VDict [("y", VInt 1); ("z", VInt 2)])] k with
         | None, old => dict_get d' k = old
         | Some (VDict sub), Some old =>
             exists m, _recursive_update old (VDict sub) = Ok m
                       /\ dict_get d' k = Some m
         | Some v, _ => dict_get d' k = Some v
         end.
Proof.
  apply (recursive_update_merges_entries
           [("x", VDict [("y", VInt 1); ("z", VInt 2)])]
           [("x", VDict [("z", VInt 99)])]
           (VDict [("x", VDict [("y", VInt 1); ("z", VInt 99)])])).
  - repeat constructor; cbn; intuition discriminate.
  - reflexivity.
Defined.

(** A custom file with one section of plain settings changes these settings
    and nothing else: in the loaded configuration the section holds the
    file's value at every key of the file and the built-in value at every
    other key, and every other section is the built-in one. *)
Theorem load_style_config_overrides_section (fs : Files)
  (style path section : string) (items base_doc sec : dict) :
  load_style_config fs style None = Ok (VDict base_doc) ->
  dict_get base_doc section = Some (VDict sec) ->
  path <> "" -> path_exists fs path = true ->
  load_toml fs path = Ok (VDict [(section, VDict items)]) ->
  NoDup (map fst items) -> flat items = true ->
  exists doc sec',
    load_style_config fs style (Some path) = Ok (VDict doc)
    /\ dict_get doc section = Some (VDict sec')
    /\ (forall k, dict_get sec' k = match dict_get items k with
                                    | Some v => Some v
                                    | None => dict_get sec k
                                    end)
    /\ (forall s, s <> section -> dict_get doc s = dict_get base_doc s).
Proof.
  intros Hbase Hsec Hpath Hexists Hload Hnd Hflat.
  unfold load_style_config in *.
  destruct (find (fun kv => String.eqb (fst kv) style) _BUILTIN_STYLES)
    as [[name toml_filename] |]; [| discriminate].
  apply String.eqb_neq in Hpath. rewrite Hpath, Hexists, Hload. cbn [bind].
  injection Hbase as ->.
  destruct (recursive_update_flat sec items Hnd Hflat) as (sec' & Hmerge & Hget).
  exists (dict_set base_doc section (VDict sec')), sec'.
  rewrite recursive_update_cons. unfold merge_step.
  cbn [py_contains bind py_getitem]. rewrite Hsec. cbn [bind].
  rewrite Hmerge. cbn [bind py_setitem]. rewrite recursive_update_nil.
  split; [reflexivity |]. split; [apply dict_get_set_same |].
  split; [exact Hget |].
  intros s Hs. apply dict_get_set_other. congruence.
Qed.

Lemma load_style_config_overrides_section_witness :
  exists doc sec',
    load_style_config custom_files "colorful" (Some "my.toml") = Ok (VDict doc)
    /\ dict_get doc "layout" = Some (VDict sec')
    /\ dict_get sec' "base_gap" = Some (VFloat 1.5%float)
    /\ dict_get sec' "side_gap" = Some (VFloat 1.2%float)
    /\ dict_get doc "colors" = dict_get (match fallback_config with
                                         | VDict sections => sections
                                         | _ => []
                                         end) "colors".
Proof.
  edestruct (load_style_config_overrides_section custom_files "colorful"
               "my.toml" "layout" [("base_gap", VFloat 1.5%float)])
    as (doc & sec' & Hload & Hlayout & Hsec & Hother).
  - reflexivity.
  - reflexivity.
  - discriminate.
  - reflexivity.
  - reflexivity.
  - repeat constructor; cbn; intuition discriminate.
  - reflexivity.
  - exists doc, sec'. split; [exact Hload |]. split; [exact Hlayout |].
    split; [exact (Hsec "base_gap") |]. split; [exact (Hsec "side_gap") |].
    apply Hother. discriminate.
Defined.

(* ===================================================================== *)
(** * Further properties: wrapping                                       *)
(* ===================================================================== *)

Lemma squeeze_append (a b : string) : squeeze (a ++ b) = squeeze a ++ squeeze b.
Proof.
  induction a as [| c a IH]; [reflexivity |].
  cbn [append squeeze]. rewrite IH. now destruct (isspace c).
Qed.

Lemma join_cons (c : string) (cs : list string) : join (c :: cs) = c ++ join cs.
Proof.
  unfold join. destruct cs as [| c' cs]; cbn [concat].
  - now rewrite append_nil_r.
  - reflexivity.
Qed.

Lemma join_app (a b : list string) : join (a ++ b) = join a ++ join b.
Proof.
  induction a as [| c a IH]; [reflexivity |].
  cbn [app]. rewrite !join_cons, IH. now rewrite append_assoc.
Qed.

Lemma squeeze_spaces (k : nat) : squeeze (spaces k) = "".
Proof. induction k as [| k IH]; [reflexivity | exact IH]. Qed.

Lemma textwrap_whitespace_isspace (c : ascii) :
  is_textwrap_whitespace c = true -> isspace c = true.
Proof.
  unfold is_textwrap_whitespace, isspace.
  set (k := N.to_nat (N_of_ascii c)). intro Hc.
  apply orb_true_iff in Hc as [Hc | Hc].
  - rewrite Hc. reflexivity.
  - apply Nat.eqb_eq in Hc. rewrite Hc. reflexivity.
Qed.

Lemma squeeze_expandtabs (s : string) (col : nat) :
  squeeze (expandtabs col s) = squeeze s.
Proof.
  revert col. induction s as [| c s IH]; intro col; [reflexivity |].
  cbn [expandtabs].
  destruct (Ascii.eqb_spec c tab) as [-> | Hne].
  - rewrite squeeze_append, squeeze_spaces, IH. reflexivity.
  - destruct (Ascii.eqb c (ascii_of_nat 10) || Ascii.eqb c (ascii_of_nat 13));
      cbn [squeeze]; rewrite IH; reflexivity.
Qed.

Lemma squeeze_translate_whitespace (s : string) :
  squeeze (translate_whitespace s) = squeeze s.
Proof.
  induction s as [| c s IH]; [reflexivity |].
  cbn [translate_whitespace squeeze]. rewrite IH.
  destruct (is_textwrap_whitespace c) eqn:Hc; [| reflexivity].
  rewrite (textwrap_whitespace_isspace c Hc). reflexivity.
Qed.

Lemma squeeze_munge_whitespace (text : string) :
  squeeze (_munge_whitespace text) = squeeze text.
Proof.
  unfold _munge_whitespace.
  now rewrite squeeze_translate_whitespace, squeeze_expandtabs.
Qed.

Lemma squeeze_lstrip (s : string) : squeeze (lstrip s) = squeeze s.
Proof.
  induction s as [| c s IH]; [reflexivity |].
  cbn [lstrip squeeze]. destruct (isspace c) eqn:E; [exact IH |].
  cbn [squeeze]. now rewrite E.
Qed.

Lemma rstrip_empty (s : string) : rstrip s = "" -> squeeze s = "".
Proof.
  induction s as [| c s IH]; [reflexivity |].
  cbn [rstrip squeeze]. destruct (rstrip s) as [| r rs].
  - destruct (isspace c); [intros _; now apply IH | discriminate].
  - discriminate.
Qed.

Lemma squeeze_blank (c : string) : is_blank c = true -> squeeze c = "".
Proof.
  unfold is_blank, strip. intro Hb. apply String.eqb_eq in Hb.
  rewrite <- squeeze_lstrip. now apply rstrip_empty.
Qed.

Lemma take_fitting_keeps (width : Z) (chunks cur_line : list string) (cur_len : Z) :
  let '(cur_line', _, rest) := take_fitting width cur_line cur_len chunks in
  (cur_line' ++ rest)%list = (cur_line ++ chunks)%list.
Proof.
  revert cur_line cur_len. induction chunks as [| c chunks IH]; intros cur_line cur_len.
  - reflexivity.
  - cbn [take_fitting]. destruct (cur_len + len c <=? width); [| reflexivity].
    specialize (IH (cur_line ++ [c])%list (cur_len + len c)).
    destruct (take_fitting width (cur_line ++ [c]) (cur_len + len c) chunks)
      as [[cl n] rest].
    rewrite IH, <- app_assoc. reflexivity.
Qed.

Lemma squeeze_drop_trailing_blank (cur_line : list string) :
  squeeze (join (drop_trailing_blank cur_line)) = squeeze (join cur_line).
Proof.
  unfold drop_trailing_blank. destruct (rev cur_line) as [| l r] eqn:E; [reflexivity |].
  destruct (is_blank l) eqn:Hl; [| reflexivity].
  assert (Hc : cur_line = (rev r ++ [l])%list).
  { rewrite <- (rev_involutive cur_line), E. reflexivity. }
  rewrite Hc, removelast_last, join_app, squeeze_append, join_cons.
  cbn [join concat]. rewrite squeeze_append, (squeeze_blank l Hl).
  cbn [squeeze]. now rewrite !append_nil_r.
Qed.

(** One iteration of the outer loop moves characters from the chunks to the
    lines and drops white space only. *)
Lemma wrap_one_line_keeps (width : Z) (lines chunks : list string) :
  let '(lines', chunks') := wrap_one_line width lines chunks in
  squeeze (join lines') ++ squeeze (join chunks')
  = squeeze (join lines) ++ squeeze (join chunks).
Proof.
  unfold wrap_one_line.
  set (chunks1 := match chunks, lines with
                  | c :: rest, _ :: _ => if is_blank c then rest else chunks
                  | _, _ => chunks
                  end).
  assert (H1 : squeeze (join chunks1) = squeeze (join chunks)).
  { subst chunks1. destruct chunks as [| c rest]; [reflexivity |].
    destruct lines as [| l0 ls]; [reflexivity |].
    destruct (is_blank c) eqn:Hc; [| reflexivity].
    rewrite join_cons, squeeze_append, (squeeze_blank c Hc). reflexivity. }
  rewrite <- H1. clear H1.
  pose proof (take_fitting_keeps width chunks1 [] 0) as Htake.
  destruct (take_fitting width [] 0 chunks1) as [[cur_line n] rest].
  cbn [app] in Htake. rewrite <- Htake. clear Htake.
  assert (Hfin : forall cl ch,
             (cl ++ ch)%list = (cur_line ++ rest)%list ->
             let '(lines', chunks') :=
               match drop_trailing_blank cl with
               | [] => (lines, ch)
               | _ :: _ => ((lines ++ [join (drop_trailing_blank cl)])%list, ch)
               end in
             squeeze (join lines') ++ squeeze (join chunks')
             = squeeze (join lines) ++ squeeze (join (cur_line ++ rest)%list)).
  { intros cl ch Heq. rewrite <- Heq, (join_app cl ch), squeeze_append.
    rewrite <- (squeeze_drop_trailing_blank cl).
    destruct (drop_trailing_blank cl) as [| x xs]; [reflexivity |].
    rewrite join_app, squeeze_append, join_cons. cbn [join concat].
    rewrite append_nil_r, <- append_assoc. reflexivity. }
  destruct rest as [| c rest'].
  - apply (Hfin cur_line []). reflexivity.
  - destruct (width <? len c).
    + unfold _handle_long_word. destruct cur_line as [| x xs].
      * apply (Hfin [c] rest'). reflexivity.
      * apply (Hfin (x :: xs) (c :: rest')). reflexivity.
    + apply (Hfin cur_line (c :: rest')). reflexivity.
Qed.

Lemma wrap_loop_keeps (fuel : nat) (width : Z) :
  forall lines chunks,
    squeeze (join (fst (wrap_loop fuel width lines chunks)))
    ++ squeeze (join (snd (wrap_loop fuel width lines chunks)))
    = squeeze (join lines) ++ squeeze (join chunks).
Proof.
  induction fuel as [| fuel IH]; intros lines chunks.
  - destruct chunks; reflexivity.
  - destruct chunks as [| c chunks]; [reflexivity |].
    cbn [wrap_loop].
    pose proof (wrap_one_line_keeps width lines (c :: chunks)) as Hstep.
    destruct (wrap_one_line width lines (c :: chunks)) as [lines1 chunks1].
    rewrite IH. exact Hstep.
Qed.

(** Wrapping loses no visible character and keeps their order: the
    characters of the returned lines that are not white space are those of
    the text.  The splitter only has to cut the text into pieces, as
    [re.split] with one capturing group does. *)
Theorem wrap_lines_keeps_visible_characters `{WordSep} (text : string)
  (width : Z) :
  0 < width ->
  join (wordsep_split (_munge_whitespace text)) = _munge_whitespace text ->
  exists lines,
    wrap_lines text width = Ok lines
    /\ squeeze (join lines) = squeeze text.
Proof.
  intros Hw Hsplit. unfold wrap_lines.
  destruct (String.eqb_spec text "") as [-> | Hne]; [exists []; split; reflexivity |].
  unfold textwrap_wrap, _wrap_chunks.
  destruct (Z.leb_spec width 0) as [Hle | _]; [lia |].
  cbn [bind].
  set (chunks := wordsep_split (_munge_whitespace text)) in *.
  pose proof (wrap_loop_keeps (List.length chunks) width [] chunks) as Hkeep.
  rewrite (wrap_loop_consumes_all width chunks Hw) in Hkeep.
  cbn [join concat squeeze] in Hkeep. rewrite append_nil_r in Hkeep.
  change (squeeze (String.concat "" chunks)) with (squeeze (join chunks)) in Hkeep.
  rewrite Hsplit, squeeze_munge_whitespace in Hkeep.
  destruct (fst (wrap_loop (List.length chunks) width [] chunks)) as [| l ls].
  - exists [text]. split; [reflexivity |]. cbn [join concat]. reflexivity.
  - exists (l :: ls). split; [reflexivity | exact Hkeep].
Qed.

Lemma wrap_lines_keeps_visible_characters_witness :
  exists lines,
    wrap_lines (H := Samples.whitespace_runs)
      "A rather long  description text " 15 = Ok lines
    /\ squeeze (join lines) = squeeze "A rather long  description text ".
Proof.
  apply (wrap_lines_keeps_visible_characters (H := Samples.whitespace_runs)
           "A rather long  description text " 15); [lia | reflexivity].
Defined.

(* ===================================================================== *)
(** * Further properties: the diagram                                    *)
(* ===================================================================== *)

Section Diagram.
Context {num : Type} `{PyNum num} `{MplColors} `{WordSep}.

(** A call on non-empty text returns, and returns at least one line. *)
Lemma wrap_lines_returns (text : string) (width : Z) :
  0 < width ->
  exists lines, wrap_lines text width = Ok lines /\ (text <> "" -> lines <> []).
Proof.
  intro Hw. unfold wrap_lines.
  destruct (String.eqb_spec text "") as [-> | Hne].
  - exists []. split; [reflexivity | intro Hc; now contradiction Hc].
  - unfold textwrap_wrap.
    destruct (wrap_chunks_spec width (wordsep_split (_munge_whitespace text)) Hw)
      as (wrapped & -> & _). cbn [bind].
    destruct wrapped as [| l ls]; eexists; (split; [reflexivity | discriminate]).
Qed.

Lemma wrap_lines_ok_nonempty (text : string) (width : Z) (lines : list string) :
  text <> "" -> wrap_lines text width = Ok lines -> 0 < width /\ lines <> [].
Proof.
  intros Hne Hl. destruct (Z.ltb_spec 0 width) as [Hw | Hw].
  - split; [assumption |].
    destruct (wrap_lines_returns text width Hw) as (lines' & Hl' & Hnn).
    rewrite Hl in Hl'. injection Hl' as <-. now apply Hnn.
  - exfalso. unfold wrap_lines, textwrap_wrap, _wrap_chunks in Hl.
    apply String.eqb_neq in Hne. rewrite Hne in Hl.
    destruct (Z.leb_spec width 0) as [_ | Hgt]; [discriminate Hl | lia].
Qed.

(** The text of the main box that a successful iteration computes. *)
Lemma process_node_text_inv (cfg : StyleConfig num) (main_pal excl_pal : list string)
  (data : list CohortNode) (i : nat) (node : CohortNode) (p : ProcessedNode num) :
  process_node cfg main_pal excl_pal data i node = Ok p ->
  wrap_lines (str_or (strip (get (heading node) ""))
                     ("Step " ++ str_of_int (Z.of_nat i + 1)))
             (main_title_width (layout cfg)) = Ok (title_lines p)
  /\ ((strip (get (description node) "") = ""
       /\ body_lines p = [count_line (N node)])
      \/ (strip (get (description node) "") <> ""
          /\ exists wrapped,
               wrap_lines (strip (get (description node) ""))
                          (main_text_width (layout cfg)) = Ok wrapped
               /\ body_lines p = count_line (N node) :: "" :: wrapped)).
Proof.
  unfold process_node. intro Hp.
  apply bind_ok in Hp as (n_prev & _ & Hp).
  destruct (n_prev - N node <? 0); [discriminate |].
  apply bind_ok in Hp as (title & Htitle & Hp).
  apply bind_ok in Hp as (body & Hbody & Hp).
  apply bind_ok in Hp as (wrapped & _ & Hp).
  apply bind_ok in Hp as (main_default & _ & Hp).
  apply bind_ok in Hp as (excl_default & _ & Hp).
  apply bind_ok in Hp as (c & _ & Hp).
  apply bind_ok in Hp as (ec & _ & Hp).
  injection Hp as <-. cbn [title_lines body_lines].
  split; [exact Htitle |].
  destruct (String.eqb_spec (strip (get (description node) "")) "") as [He | Hne].
  - left. injection Hbody as <-. auto.
  - right. split; [assumption |].
    apply bind_ok in Hbody as (w & Hw & Hbody). injection Hbody as <-.
    exists w. auto.
Qed.

Lemma str_or_step_nonempty (a : string) (k : Z) :
  str_or a ("Step " ++ str_of_int k) <> "".
Proof.
  unfold str_or. destruct (String.eqb_spec a "") as [-> | Hne];
    [discriminate | assumption].
Qed.

(** The title and the body of the main box of every node.  The title is the
    wrapped heading, trimmed, and [Step i+1] when the heading is missing or
    blank; it always has a line.  The body starts with the count line; a
    description that is not blank adds an empty line and its wrapped text, a
    missing or blank one adds nothing. *)
Theorem main_box_text (cfg : StyleConfig num) (kwargs : Kwargs)
  (data : list CohortNode) (d : Diagram num) (i : nat) (node : CohortNode) :
  plot_cohort_flow_diagram cfg kwargs data = Ok d ->
  nth_error data i = Some node ->
  exists p,
    nth_error (processed_nodes d) i = Some p
    /\ title_lines p <> []
    /\ (strip (get (heading node) "") <> "" ->
        wrap_lines (strip (get (heading node) ""))
                   (main_title_width (layout cfg)) = Ok (title_lines p))
    /\ (strip (get (heading node) "") = "" ->
        wrap_lines ("Step " ++ str_of_int (Z.of_nat i + 1))
                   (main_title_width (layout cfg)) = Ok (title_lines p))
    /\ (strip (get (description node) "") = "" ->
        body_lines p = [count_line (N node)])
    /\ (strip (get (description node) "") <> "" ->
        exists wrapped,
          wrap_lines (strip (get (description node) ""))
                     (main_text_width (layout cfg)) = Ok wrapped
          /\ wrapped <> []
          /\ body_lines p = count_line (N node) :: "" :: wrapped).
Proof.
  intros Hd Hnode.
  apply plot_inv in Hd as (_ & main_pal & excl_pal & _ & _ & Hps & _).
  destruct (process_from_nth _ _ _ _ _ _ _ _ _ Hps Hnode) as (p & Hp & Hproc).
  cbn [Nat.add] in Hproc.
  apply process_node_text_inv in Hproc as (Htitle & Hbody).
  exists p. split; [exact Hp |].
  split.
  { apply (wrap_lines_ok_nonempty _ _ _ (str_or_step_nonempty _ _) Htitle). }
  unfold str_or in Htitle.
  destruct (String.eqb_spec (strip (get (heading node) "")) "") as [He | Hne].
  - split; [intro Hc; now contradiction Hc |]. split; [intros _; exact Htitle |].
    destruct Hbody as [[Hb Hl] | (Hb & w & Hw & Hl)].
    + split; [intros _; exact Hl | intro Hc; now contradiction Hc].
    + split; [intro Hc; now contradiction Hb |]. intros _. exists w.
      split; [exact Hw |]. split; [| exact Hl].
      apply (wrap_lines_ok_nonempty _ _ _ Hb Hw).
  - split; [intros _; exact Htitle |]. split; [intro Hc; now contradiction Hne |].
    destruct Hbody as [[Hb Hl] | (Hb & w & Hw & Hl)].
    + split; [intros _; exact Hl | intro Hc; now contradiction Hc].
    + split; [intro Hc; now contradiction Hb |]. intros _. exists w.
      split; [exact Hw |]. split; [| exact Hl].
      apply (wrap_lines_ok_nonempty _ _ _ Hb Hw).
Qed.

Lemma resolve_color_ok_inv (v d : string) (allow : bool) (h : string) :
  resolve_color (Some v) d allow = Ok h ->
  to_hex v = Some h /\ (allow = false -> startswith v "#" = true).
Proof.
  unfold resolve_color.
  destruct allow; cbn [negb andb].
  - destruct (to_hex v) as [h' |]; [| discriminate].
    intro E. injection E as <-. split; [reflexivity | discriminate].
  - destruct (startswith v "#"); cbn [negb]; [| discriminate].
    destruct (to_hex v) as [h' |]; [| discriminate].
    intro E. injection E as <-. split; reflexivity.
Qed.

(** The colour of a main box: the node's [color] when it has one, else its
    [color_name], else the palette entry at the node's index; the diagram
    holds what Matplotlib makes of that one value.  When named colours are
    disallowed the value starts with [#]. *)
Theorem node_colour_precedence (cfg : StyleConfig num) (kwargs : Kwargs)
  (data : list CohortNode) (d : Diagram num) (i : nat) (node : CohortNode) :
  plot_cohort_flow_diagram cfg kwargs data = Ok d ->
  nth_error data i = Some node ->
  exists p main_pal excl_pal main_entry excl_entry,
    nth_error (processed_nodes d) i = Some p
    /\ choose_palette (main_palette kwargs) (main_start (colors cfg))
         (main_end (colors cfg)) (Z.of_nat (List.length data)) = Ok main_pal
    /\ choose_palette (exclusion_palette kwargs) (exclusion_start (colors cfg))
         (exclusion_end (colors cfg)) (Z.of_nat (List.length data)) = Ok excl_pal
    /\ nth_error main_pal i = Some main_entry
    /\ nth_error excl_pal i = Some excl_entry
    /\ (let chosen := match color node, color_name node with
                      | Some c, _ => c
                      | None, Some c => c
                      | None, None => main_entry
                      end in
        to_hex chosen = Some (node_color p)
        /\ (allow_named_colors (colors cfg) = false ->
            startswith chosen "#" = true))
    /\ (let chosen := match exclusion_color node, exclusion_color_name node with
                      | Some c, _ => c
                      | None, Some c => c
                      | None, None => excl_entry
                      end in
        to_hex chosen = Some (excl_color p)
        /\ (allow_named_colors (colors cfg) = false ->
            startswith chosen "#" = true)).
Proof.
  intros Hd Hnode.
  apply plot_inv in Hd as (_ & main_pal & excl_pal & Hmain & Hexcl & Hps & _).
  destruct (process_from_nth _ _ _ _ _ _ _ _ _ Hps Hnode) as (p & Hp & Hproc).
  cbn [Nat.add] in Hproc.
  apply process_node_inv in Hproc
    as (n_prev & title & body & wrapped & md & ed & _ & _ & _ & _ & Hmd & Hed
        & Hc & Hec & _).
  exists p, main_pal, excl_pal, md, ed.
  repeat (split; [assumption |]).
  apply resolve_color_ok_inv in Hc, Hec.
  split.
  - destruct (color node) as [c |]; [exact Hc |].
    destruct (color_name node) as [c |]; exact Hc.
  - destruct (exclusion_color node) as [c |]; [exact Hec |].
    destruct (exclusion_color_name node) as [c |]; exact Hec.
Qed.

Lemma choose_palette_override (c : string) (cs : list string)
  (start_hex end_hex : string) (count : Z) :
  choose_palette (Some (c :: cs)) start_hex end_hex count = Ok (c :: cs).
Proof. reflexivity. Qed.

(** A palette override with fewer colours than nodes never gives a diagram,
    not even when every node brings its own colours: the palette is indexed
    for every node before the node's colour keys are looked at. *)
Theorem short_palette_override_raises (cfg : StyleConfig num)
  (kwargs : Kwargs) (data : list CohortNode) (c : string) (cs : list string) :
  (main_palette kwargs = Some (c :: cs)
   \/ exclusion_palette kwargs = Some (c :: cs)) ->
  (List.length (c :: cs) < List.length data)%nat ->
  exists e, plot_cohort_flow_diagram cfg kwargs data = Raise e.
Proof.
  intros Hpal Hlen.
  destruct (plot_cohort_flow_diagram cfg kwargs data) as [d | e] eqn:Hd;
    [exfalso | now exists e].
  apply plot_inv in Hd as (_ & main_pal & excl_pal & Hmain & Hexcl & Hps & _).
  destruct (nth_error data (List.length (c :: cs))) as [node |] eqn:Hnode.
  2:{ apply nth_error_None in Hnode. lia. }
  destruct (process_from_nth _ _ _ _ _ _ _ _ _ Hps Hnode) as (p & _ & Hproc).
  cbn [Nat.add] in Hproc.
  apply process_node_inv in Hproc
    as (n_prev & title & body & wrapped & md & ed & _ & _ & _ & _ & Hmd & Hed & _).
  destruct Hpal as [Hk | Hk]; rewrite Hk in *.
  - rewrite choose_palette_override in Hmain. injection Hmain as <-.
    assert (Hn : nth_error (c :: cs) (List.length (c :: cs)) = None)
      by (apply nth_error_None; lia).
    rewrite Hn in Hmd. discriminate.
  - rewrite choose_palette_override in Hexcl. injection Hexcl as <-.
    assert (Hn : nth_error (c :: cs) (List.length (c :: cs)) = None)
      by (apply nth_error_None; lia).
    rewrite Hn in Hed. discriminate.
Qed.


Lemma skipn_cons_nth {A : Type} (xs rest : list A) (i : nat) (x : A) :
  skipn i xs = x :: rest -> nth_error xs i = Some x /\ skipn (S i) xs = rest.
Proof.
  revert i. induction xs as [| y xs IH]; intros i Hs.
  - destruct i; discriminate.
  - destruct i as [| i]; cbn [skipn nth_error] in *.
    + injection Hs as -> ->. auto.
    + apply IH. exact Hs.
Qed.

Lemma last_cons {A : Type} (xs : list A) (a b : A) :
  last (a :: xs) b = last xs a.
Proof.
  revert a b. induction xs as [| x xs IH]; intros a b; [reflexivity |].
  change (last (a :: x :: xs) b) with (last (x :: xs) b).
  now rewrite (IH x b), (IH x a).
Qed.

(** The exclusions of a run of the loop add up to what the count lost over
    the run. *)
Lemma process_from_excluded_sum (cfg : StyleConfig num)
  (main_pal excl_pal : list string) (data : list CohortNode) :
  forall (nodes : list CohortNode) (i : nat) (node : CohortNode)
         (ps : list (ProcessedNode num)) (n_before : Z),
    skipn i data = node :: nodes ->
    (i = 0%nat -> n_before = N node) ->
    (forall prev, nth_error data (i - 1) = Some prev -> (0 < i)%nat ->
                  n_before = N prev) ->
    process_from cfg main_pal excl_pal data i (node :: nodes) = Ok ps ->
    fold_right Z.add 0 (map excl_n ps) = n_before - N (last nodes node).
Proof.
  induction nodes as [| nxt nodes IH]; intros i node ps n_before Hskip Hzero Hprev Hps;
    cbn [process_from] in Hps;
    apply bind_ok in Hps as (p & Hp & Hps);
    apply bind_ok in Hps as (ps' & Hps' & Hps); injection Hps as <-;
    apply process_node_inv in Hp
      as (n_prev & title & body & wrapped & md & ed & Hn & _ & _ & _ & _ & _ & _
          & _ & _ & Hexcl & _);
    assert (Hnb : n_prev = n_before)
      by (destruct Hn as [[Hi ->] | (prev & Hi & Hnth & ->)];
          [symmetry; now apply Hzero | symmetry; now apply (Hprev prev)]);
    subst n_prev; cbn [map fold_right]; rewrite Hexcl.
  - cbn [process_from] in Hps'. injection Hps' as <-. cbn. lia.
  - apply skipn_cons_nth in Hskip as (Hnode & Hskip).
    rewrite (IH (S i) nxt ps' (N node) Hskip); [| discriminate | | exact Hps'].
    + rewrite (last_cons nodes nxt node). lia.
    + intros prev Hnth _. cbn [Nat.sub] in Hnth. rewrite Nat.sub_0_r in Hnth.
      rewrite Hnode in Hnth. now injection Hnth as <-.
Qed.

(** The exclusions shown in a diagram add up to the difference between the
    first and the last count. *)
Theorem exclusion_counts_add_up (cfg : StyleConfig num) (kwargs : Kwargs)
  (first : CohortNode) (rest : list CohortNode) (d : Diagram num) :
  plot_cohort_flow_diagram cfg kwargs (first :: rest) = Ok d ->
  fold_right Z.add 0 (map excl_n (processed_nodes d))
  = N first - N (last rest first).
Proof.
  intro Hd.
  apply plot_inv in Hd as (_ & main_pal & excl_pal & _ & _ & Hps & _).
  apply (process_from_excluded_sum cfg main_pal excl_pal (first :: rest)
           rest 0 first (processed_nodes d) (N first));
    [reflexivity | reflexivity | intros prev _ Hi; lia | exact Hps].
Qed.

(** The shape of a diagram: one processed node and one centre per node of
    the data, one gap per transition; every processed node carries the count
    of its node and the number excluded since the node before, which is zero
    for the first node and never negative. *)
Theorem diagram_counts (cfg : StyleConfig num) (kwargs : Kwargs)
  (data : list CohortNode) (d : Diagram num) :
  plot_cohort_flow_diagram cfg kwargs data = Ok d ->
  data <> []
  /\ List.length (processed_nodes d) = List.length data
  /\ List.length (centers_y d) = List.length data
  /\ S (List.length (transition_gaps d)) = List.length data
  /\ forall i node,
       nth_error data i = Some node ->
       exists p,
         nth_error (processed_nodes d) i = Some p
         /\ n p = N node
         /\ 0 <= excl_n p
         /\ (i = 0%nat -> excl_n p = 0)
         /\ (forall prev, nth_error data (i - 1) = Some prev -> (0 < i)%nat ->
               excl_n p = N prev - N node).
Proof.
  intro Hd.
  apply plot_inv in Hd as (Hne & main_pal & excl_pal & _ & _ & Hps & Hgeo).
  pose proof (process_from_length _ _ _ _ _ _ _ Hps) as Hlen.
  split; [exact Hne |]. split; [exact Hlen |].
  assert (Hpne : processed_nodes d <> []).
  { intro He. rewrite He in Hlen. destruct data; [now apply Hne | discriminate]. }
  destruct (processed_nodes d) as [| p0 ps] eqn:Eps; [now contradiction Hpne |].
  destruct (geometry_closed cfg p0 ps) as (c_last & p_last & Hclosed & _).
  rewrite Hclosed in Hgeo. injection Hgeo as Hg Hc _.
  split; [rewrite <- Hc, centers_from_length, <- Hlen; reflexivity |].
  split; [rewrite <- Hg, length_map, <- Hlen; reflexivity |].
  intros i node Hnode. rewrite <- Eps in Hps.
  destruct (process_from_nth _ _ _ _ _ _ _ _ _ Hps Hnode) as (p & Hp & Hproc).
  cbn [Nat.add] in Hproc.
  apply process_node_inv in Hproc
    as (n_prev & title & body & wrapped & md & ed & Hn & Hle & _ & _ & _ & _ & _
        & _ & Hcount & Hexcl & _).
  exists p. rewrite <- Eps. split; [exact Hp |]. split; [exact Hcount |].
  rewrite Hexcl. split; [lia |]. split.
  - intros ->. destruct Hn as [[_ ->] | (prev & Hi & _)]; lia.
  - intros prev Hprev Hi. destruct Hn as [[Hz _] | (prev' & _ & Hprev' & ->)]; [lia |].
    rewrite Hprev in Hprev'. now injection Hprev' as <-.
Qed.


Lemma resolve_color_accepted (v default : string) (allow : bool) :
  colour_accepted allow v = true ->
  exists h, resolve_color (Some v) default allow = Ok h.
Proof.
  unfold colour_accepted, resolve_color. intro Ha.
  apply andb_true_iff in Ha as [Hpol Hhex].
  destruct (to_hex v) as [h |]; [| discriminate].
  exists h. destruct allow; cbn [negb andb]; [reflexivity |].
  cbn [orb] in Hpol. rewrite Hpol. reflexivity.
Qed.

(** One iteration of the loop returns when the node's count does not exceed
    the previous one, the widths are positive, the palettes reach the index
    and the colours are accepted. *)
Lemma process_node_returns (cfg : StyleConfig num) (main_pal excl_pal : list string)
  (data : list CohortNode) (i : nat) (node : CohortNode) (m e : string) :
  0 < main_title_width (layout cfg) ->
  0 < main_text_width (layout cfg) ->
  0 < exclusion_text_width (layout cfg) ->
  nth_error data i = Some node ->
  (forall prev, nth_error data (i - 1) = Some prev -> (0 < i)%nat ->
                N node <= N prev) ->
  nth_error main_pal i = Some m ->
  nth_error excl_pal i = Some e ->
  colour_accepted (allow_named_colors (colors cfg))
    (get (color node) (get (color_name node) m)) = true ->
  colour_accepted (allow_named_colors (colors cfg))
    (get (exclusion_color node) (get (exclusion_color_name node) e)) = true ->
  exists p, process_node cfg main_pal excl_pal data i node = Ok p.
Proof.
  intros Hw1 Hw2 Hw3 Hnode Hsorted Hm He Hcm Hce. unfold process_node.
  assert (Hprev : exists n_prev,
             (if (0 <? i)%nat then prev <- getitem data (i - 1) ;; Ok (N prev)
              else Ok (N node)) = Ok n_prev /\ N node <= n_prev).
  { destruct (Nat.ltb_spec 0 i) as [Hi | Hi].
    - destruct (nth_error data (i - 1)) as [prev |] eqn:Hp.
      + exists (N prev). rewrite (getitem_nth _ _ _ Hp). cbn [bind].
        split; [reflexivity | now apply Hsorted].
      + apply nth_error_None in Hp.
        assert (i < List.length data)%nat
          by (apply nth_error_Some; rewrite Hnode; discriminate).
        lia.
    - exists (N node). split; [reflexivity | lia]. }
  destruct Hprev as (n_prev & -> & Hle). cbn [bind].
  destruct (Z.ltb_spec (n_prev - N node) 0) as [Hneg | _]; [lia |].
  destruct (wrap_lines_returns
              (str_or (strip (get (heading node) ""))
                      ("Step " ++ str_of_int (Z.of_nat i + 1)))
              _ Hw1) as (title & -> & _).
  cbn [bind].
  assert (Hbody : exists body,
             (if String.eqb (strip (get (description node) "")) ""
              then Ok [count_line (N node)]
              else wrapped <- wrap_lines (strip (get (description node) ""))
                                (main_text_width (layout cfg)) ;;
                   Ok (([count_line (N node)] ++ [""]) ++ wrapped)%list)
             = Ok body).
  { destruct (String.eqb (strip (get (description node) "")) "");
      [eexists; reflexivity |].
    destruct (wrap_lines_returns (strip (get (description node) "")) _ Hw2)
      as (wrapped & -> & _).
    eexists. reflexivity. }
  destruct Hbody as (body & ->). cbn [bind].
  destruct (wrap_lines_returns
              (strip (get (exclusion_description node) "Excluded")) _ Hw3)
    as (wrapped & -> & _).
  cbn [bind].
  rewrite (getitem_nth _ _ _ Hm), (getitem_nth _ _ _ He). cbn [bind].
  destruct (resolve_color_accepted _ m _ Hcm) as (c & ->).
  destruct (resolve_color_accepted _ e _ Hce) as (ec & ->).
  cbn [bind]. eexists. reflexivity.
Qed.

Lemma process_from_returns (cfg : StyleConfig num) (main_pal excl_pal : list string)
  (data : list CohortNode) :
  0 < main_title_width (layout cfg) ->
  0 < main_text_width (layout cfg) ->
  0 < exclusion_text_width (layout cfg) ->
  (List.length data <= List.length main_pal)%nat ->
  (List.length data <= List.length excl_pal)%nat ->
  (forall i a b, nth_error data i = Some a -> nth_error data (S i) = Some b ->
                 N b <= N a) ->
  (forall i node m e,
      nth_error data i = Some node ->
      nth_error main_pal i = Some m -> nth_error excl_pal i = Some e ->
      colour_accepted (allow_named_colors (colors cfg))
        (get (color node) (get (color_name node) m)) = true
      /\ colour_accepted (allow_named_colors (colors cfg))
           (get (exclusion_color node) (get (exclusion_color_name node) e))
         = true) ->
  forall nodes i,
    skipn i data = nodes ->
    exists ps, process_from cfg main_pal excl_pal data i nodes = Ok ps.
Proof.
  intros Hw1 Hw2 Hw3 Hlm Hle Hsorted Hcol.
  induction nodes as [| node nodes IH]; intros i Hskip.
  - exists []. reflexivity.
  - apply skipn_cons_nth in Hskip as (Hnode & Hskip).
    assert (Hi : (i < List.length data)%nat)
      by (apply nth_error_Some; rewrite Hnode; discriminate).
    destruct (nth_error main_pal i) as [m |] eqn:Hm;
      [| apply nth_error_None in Hm; lia].
    destruct (nth_error excl_pal i) as [e |] eqn:He;
      [| apply nth_error_None in He; lia].
    destruct (Hcol i node m e Hnode Hm He) as (Hcm & Hce).
    destruct (process_node_returns cfg main_pal excl_pal data i node m e
                Hw1 Hw2 Hw3 Hnode) as (p & Hp); try assumption.
    { intros prev Hprev Hpos. apply (Hsorted (i - 1)%nat prev node Hprev).
      replace (S (i - 1)) with i by lia. exact Hnode. }
    destruct (IH (S i) Hskip) as (ps & Hps).
    exists (p :: ps). cbn [process_from]. rewrite Hp. cbn [bind].
    rewrite Hps. reflexivity.
Qed.

(** What is enough for the function to reach the drawing step: with data
    that is not empty and whose counts never increase, positive wrapping
    widths, palettes that are computed and have a colour for every node, and
    colours that [resolve_color] accepts, the diagram is computed; in
    particular the indexing of the geometry step never fails. *)
Theorem plot_returns (cfg : StyleConfig num) (kwargs : Kwargs)
  (data : list CohortNode) (main_pal excl_pal : list string) :
  data <> [] ->
  0 < main_title_width (layout cfg) ->
  0 < main_text_width (layout cfg) ->
  0 < exclusion_text_width (layout cfg) ->
  (forall i a b, nth_error data i = Some a -> nth_error data (S i) = Some b ->
                 N b <= N a) ->
  choose_palette (main_palette kwargs) (main_start (colors cfg))
    (main_end (colors cfg)) (Z.of_nat (List.length data)) = Ok main_pal ->
  choose_palette (exclusion_palette kwargs) (exclusion_start (colors cfg))
    (exclusion_end (colors cfg)) (Z.of_nat (List.length data)) = Ok excl_pal ->
  (List.length data <= List.length main_pal)%nat ->
  (List.length data <= List.length excl_pal)%nat ->
  (forall i node m e,
      nth_error data i = Some node ->
      nth_error main_pal i = Some m -> nth_error excl_pal i = Some e ->
      colour_accepted (allow_named_colors (colors cfg))
        (get (color node) (get (color_name node) m)) = true
      /\ colour_accepted (allow_named_colors (colors cfg))
           (get (exclusion_color node) (get (exclusion_color_name node) e))
         = true) ->
  exists d, plot_cohort_flow_diagram cfg kwargs data = Ok d.
Proof.
  intros Hne Hw1 Hw2 Hw3 Hsorted Hmain Hexcl Hlm Hle Hcol.
  unfold plot_cohort_flow_diagram.
  destruct data as [| d0 rest] eqn:Edata; [now contradiction Hne |].
  rewrite <- Edata in *. rewrite Hmain, Hexcl. cbn [bind].
  destruct (process_from_returns cfg main_pal excl_pal data Hw1 Hw2 Hw3 Hlm Hle
              Hsorted Hcol data 0 eq_refl) as (ps & Hps).
  rewrite Hps. cbn [bind].
  pose proof (process_from_length _ _ _ _ _ _ _ Hps) as Hlen.
  destruct ps as [| p0 ps]; [rewrite Edata in Hlen; discriminate |].
  destruct (geometry_closed cfg p0 ps) as (c_last & p_last & Hgeo & _).
  rewrite Hgeo. cbn [bind]. eexists. reflexivity.
Qed.

End Diagram.

(** A node with a blank heading and a description. *)
Lemma main_box_text_witness :
  exists d p,
    plot_cohort_flow_diagram (H0 := Samples.basic_colors)
      (H1 := Samples.whitespace_runs)
      (Samples.white_style Samples.dec_float) Samples.no_kwargs
      [described_node] = Ok d
    /\ nth_error (processed_nodes d) 0 = Some p
    /\ title_lines p = ["Step 1"]
    /\ body_lines p = ["(n = 100)"; ""; "Adults only"].
Proof.
  assert (Hd : exists d,
             plot_cohort_flow_diagram (H0 := Samples.basic_colors)
               (H1 := Samples.whitespace_runs)
               (Samples.white_style Samples.dec_float) Samples.no_kwargs
               [described_node] = Ok d) by (eexists; vm_compute; reflexivity).
  destruct Hd as (d & Hd). exists d.
  destruct (main_box_text (H0 := Samples.basic_colors)
              (H1 := Samples.whitespace_runs)
              (Samples.white_style Samples.dec_float) Samples.no_kwargs
              [described_node] d 0 described_node Hd eq_refl)
    as (p & Hp & _ & _ & Htitle & _ & Hbody).
  exists p. split; [exact Hd |]. split; [exact Hp |].
  specialize (Htitle eq_refl).
  destruct (Hbody ltac:(discriminate)) as (wrapped & Hw & _ & ->).
  assert (Ht : wrap_lines (H := Samples.whitespace_runs) "Step 1" 26
               = Ok ["Step 1"]) by (vm_compute; reflexivity).
  assert (Hb : wrap_lines (H := Samples.whitespace_runs) "Adults only" 34
               = Ok ["Adults only"]) by (vm_compute; reflexivity).
  pose proof (eq_trans (eq_sym Htitle) Ht) as E1.
  pose proof (eq_trans (eq_sym Hw) Hb) as E2.
  injection E1 as ->. injection E2 as ->. split; reflexivity.
Defined.

(** [color] wins over [color_name]; the exclusion box has a name only. *)
Lemma node_colour_precedence_witness :
  exists d p,
    plot_cohort_flow_diagram (H0 := Samples.basic_colors)
      (H1 := Samples.whitespace_runs)
      (Samples.white_style Samples.dec_float) Samples.no_kwargs
      [described_node] = Ok d
    /\ nth_error (processed_nodes d) 0 = Some p
    /\ node_color p = "#ff0000"
    /\ excl_color p = "#008000".
Proof.
  assert (Hd : exists d,
             plot_cohort_flow_diagram (H0 := Samples.basic_colors)
               (H1 := Samples.whitespace_runs)
               (Samples.white_style Samples.dec_float) Samples.no_kwargs
               [described_node] = Ok d) by (eexists; vm_compute; reflexivity).
  destruct Hd as (d & Hd). exists d.
  destruct (node_colour_precedence (H0 := Samples.basic_colors)
              (H1 := Samples.whitespace_runs)
              (Samples.white_style Samples.dec_float) Samples.no_kwargs
              [described_node] d 0 described_node Hd eq_refl)
    as (p & mp & ep & me & ee & Hp & _ & _ & _ & _ & (Hc & _) & (Hec & _)).
  exists p. split; [exact Hd |]. split; [exact Hp |].
  cbn in Hc, Hec. injection Hc as <-. injection Hec as <-. split; reflexivity.
Defined.

(** One colour for the three nodes of the sample cohort. *)
Lemma short_palette_override_raises_witness :
  exists e,
    plot_cohort_flow_diagram (H0 := Samples.basic_colors)
      (H1 := Samples.whitespace_runs)
      (Samples.white_style Samples.dec_float) one_colour_kwargs
      Samples.sample_data = Raise e.
Proof.
  apply (short_palette_override_raises (H0 := Samples.basic_colors)
           (H1 := Samples.whitespace_runs)
           (Samples.white_style Samples.dec_float) one_colour_kwargs
           Samples.sample_data "#ffffff" []).
  - left. reflexivity.
  - cbn. lia.
Defined.

(** The sample cohort: 100, 80, 60. *)
Lemma exclusion_counts_add_up_witness :
  exists d,
    plot_cohort_flow_diagram (H0 := Samples.basic_colors)
      (H1 := Samples.whitespace_runs)
      (Samples.white_style Samples.dec_float) Samples.no_kwargs
      Samples.sample_data = Ok d
    /\ fold_right Z.add 0 (map excl_n (processed_nodes d)) = 100 - 60.
Proof.
  assert (Hd : exists d,
             plot_cohort_flow_diagram (H0 := Samples.basic_colors)
               (H1 := Samples.whitespace_runs)
               (Samples.white_style Samples.dec_float) Samples.no_kwargs
               Samples.sample_data = Ok d) by (eexists; vm_compute; reflexivity).
  destruct Hd as (d & Hd). exists d. split; [exact Hd |].
  apply (exclusion_counts_add_up (H0 := Samples.basic_colors)
           (H1 := Samples.whitespace_runs)
           (Samples.white_style Samples.dec_float) Samples.no_kwargs
           (Samples.node 100 (Some "Registered") None)
           [Samples.node 80 (Some "Screened") (Some "Not eligible");
            Samples.node 60 (Some "Analysed") (Some "Withdrew")] d Hd).
Defined.

Lemma diagram_counts_witness :
  exists d,
    plot_cohort_flow_diagram (H0 := Samples.basic_colors)
      (H1 := Samples.whitespace_runs)
      (Samples.white_style Samples.dec_float) Samples.no_kwargs
      Samples.sample_data = Ok d
    /\ List.length (processed_nodes d) = 3%nat
    /\ List.length (centers_y d) = 3%nat
    /\ List.length (transition_gaps d) = 2%nat.
Proof.
  assert (Hd : exists d,
             plot_cohort_flow_diagram (H0 := Samples.basic_colors)
               (H1 := Samples.whitespace_runs)
               (Samples.white_style Samples.dec_float) Samples.no_kwargs
               Samples.sample_data = Ok d) by (eexists; vm_compute; reflexivity).
  destruct Hd as (d & Hd). exists d. split; [exact Hd |].
  destruct (diagram_counts (H0 := Samples.basic_colors)
              (H1 := Samples.whitespace_runs)
              (Samples.white_style Samples.dec_float) Samples.no_kwargs
              Samples.sample_data d Hd) as (_ & Hp & Hc & Hg & _).
  cbn [List.length Samples.sample_data] in Hp, Hc, Hg.
  split; [exact Hp |]. split; [exact Hc |]. now injection Hg.
Defined.

Lemma plot_returns_witness :
  exists d,
    plot_cohort_flow_diagram (H0 := Samples.basic_colors)
      (H1 := Samples.whitespace_runs)
      (Samples.white_style Samples.dec_float) Samples.no_kwargs
      Samples.sample_data = Ok d.
Proof.
  apply (plot_returns (H0 := Samples.basic_colors)
           (H1 := Samples.whitespace_runs)
           (Samples.white_style Samples.dec_float) Samples.no_kwargs
           Samples.sample_data
           ["#ffffff"; "#ffffff"; "#ffffff"] ["#ffffff"; "#ffffff"; "#ffffff"]).
  - discriminate.
  - cbn. lia.
  - cbn. lia.
  - cbn. lia.
  - intros [| [| [| i]]] a b Ha Hb; cbn in Ha, Hb;
      try discriminate; try (destruct i; discriminate);
      injection Ha as <-; injection Hb as <-; cbn; lia.
  - vm_compute. reflexivity.
  - vm_compute. reflexivity.
  - cbn. lia.
  - cbn. lia.
  - intros [| [| [| i]]] node m e Hn Hm He; cbn in Hn, Hm, He;
      try discriminate; try (destruct i; discriminate);
      injection Hn as <-; injection Hm as <-; injection He as <-;
      split; reflexivity.
Defined.

Section BoxHeights.
Context {num : Type} `{PyNum num} `{MplColors} `{WordSep}.

Lemma max_one_length {A : Type} (xs : list A) :
  xs <> [] -> Z.max 1 (Z.of_nat (List.length xs)) = Z.of_nat (List.length xs).
Proof. destruct xs; [intro Hc; now contradiction Hc | cbn [List.length]; lia]. Qed.

(** The heights of the boxes of a computed diagram.  Every text block has at
    least one line, so the guards [max(1, len(...))] of the source never
    change a line count: a main box is as high as its padding, its title
    lines, the gap and its body lines, an exclusion box as high as its
    padding and its lines, or as high as its configured minimum when that
    is more. *)
Theorem box_heights (cfg : StyleConfig num) (kwargs : Kwargs)
  (data : list CohortNode) (d : Diagram num) (i : nat) (p : ProcessedNode num) :
  plot_cohort_flow_diagram cfg kwargs data = Ok d ->
  nth_error (processed_nodes d) i = Some p ->
  let geom := box_geometry cfg in
  let lines_of (xs : list string) := of_int (Z.of_nat (List.length xs)) in
  title_lines p <> [] /\ body_lines p <> [] /\ excl_lines p <> []
  /\ main_h p
     = pymax (min_main_height geom)
         (padding geom + title_line_height geom * lines_of (title_lines p)
          + title_body_gap geom
          + body_line_height geom * lines_of (body_lines p))%num
  /\ excl_h p
     = pymax (min_exclusion_height geom)
         (padding geom + body_line_height geom * lines_of (excl_lines p))%num.
Proof.
  intros Hd Hp geom lines_of. subst geom lines_of.
  apply plot_inv in Hd as (_ & main_pal & excl_pal & _ & _ & Hps & _).
  assert (Hi : (i < List.length (processed_nodes d))%nat)
    by (apply nth_error_Some; rewrite Hp; discriminate).
  rewrite (process_from_length _ _ _ _ _ _ _ Hps) in Hi.
  destruct (nth_error data i) as [node |] eqn:Hnode;
    [| apply nth_error_None in Hnode; lia].
  destruct (process_from_nth _ _ _ _ _ _ _ _ _ Hps Hnode) as (p' & Hp' & Hproc).
  rewrite Hp in Hp'. injection Hp' as <-. cbn [Nat.add] in Hproc.
  pose proof (process_node_text_inv _ _ _ _ _ _ _ Hproc) as (Htitle & Hbody).
  apply process_node_inv in Hproc
    as (n_prev & title & body & wrapped & md & ed & _ & _ & _ & _ & _ & _ & _
        & _ & _ & _ & <- & <- & Hexcl & Hmain & Hexclh).
  assert (Ht : title_lines p <> [])
    by apply (wrap_lines_ok_nonempty _ _ _ (str_or_step_nonempty _ _) Htitle).
  assert (Hb : body_lines p <> [])
    by (destruct Hbody as [[_ ->] | (_ & w & _ & ->)]; discriminate).
  assert (He : excl_lines p <> [])
    by (rewrite Hexcl; intro Hc; now apply app_eq_nil in Hc as [_ Hc]).
  split; [exact Ht |]. split; [exact Hb |]. split; [exact He |].
  rewrite <- Hexcl in Hexclh.
  rewrite (max_one_length _ Ht), (max_one_length _ Hb) in Hmain.
  rewrite (max_one_length _ He) in Hexclh. split; assumption.
Qed.

End BoxHeights.

Lemma box_heights_witness :
  exists d p,
    plot_cohort_flow_diagram (H0 := Samples.basic_colors)
      (H1 := Samples.whitespace_runs)
      (Samples.white_style Samples.dec_float) Samples.no_kwargs
      Samples.sample_data = Ok d
    /\ nth_error (processed_nodes d) 1 = Some p
    /\ title_lines p <> [] /\ body_lines p <> [] /\ excl_lines p <> [].
Proof.
  assert (Hd : exists d p,
             plot_cohort_flow_diagram (H0 := Samples.basic_colors)
               (H1 := Samples.whitespace_runs)
               (Samples.white_style Samples.dec_float) Samples.no_kwargs
               Samples.sample_data = Ok d
             /\ nth_error (processed_nodes d) 1 = Some p).
  { do 2 eexists. split; vm_compute; reflexivity. }
  destruct Hd as (d & p & Hd & Hp). exists d, p.
  split; [exact Hd |]. split; [exact Hp |].
  destruct (box_heights (H0 := Samples.basic_colors)
              (H1 := Samples.whitespace_runs)
              (Samples.white_style Samples.dec_float) Samples.no_kwargs
              Samples.sample_data d 1 p Hd Hp) as (Ht & Hb & He & _).
  auto.
Defined.

Section Widths.
Context {num : Type} `{PyNum num} `{MplColors} `{WordSep}.

(** A diagram is computed only with positive wrapping widths: the title
    width always, since every node has a title; the body width as soon as
    one node has a description that is not blank; the exclusion width as
    soon as one node, the first included, has an exclusion description that
    is not blank, and a node without the key has the description
    [Excluded]. *)
Theorem widths_required (cfg : StyleConfig num) (kwargs : Kwargs)
  (data : list CohortNode) (d : Diagram num) :
  plot_cohort_flow_diagram cfg kwargs data = Ok d ->
  0 < main_title_width (layout cfg)
  /\ (forall node, In node data ->
        strip (get (description node) "") <> "" ->
        0 < main_text_width (layout cfg))
  /\ (forall node, In node data ->
        strip (get (exclusion_description node) "Excluded") <> "" ->
        0 < exclusion_text_width (layout cfg)).
Proof.
  intro Hd.
  apply plot_inv in Hd as (Hne & main_pal & excl_pal & _ & _ & Hps & _).
  assert (Hnode : forall node, In node data ->
            exists i p, process_node cfg main_pal excl_pal data i node = Ok p).
  { intros node Hin. apply In_nth_error in Hin as (i & Hi).
    destruct (process_from_nth _ _ _ _ _ _ _ _ _ Hps Hi) as (p & _ & Hp).
    eauto. }
  split; [| split].
  - destruct data as [| d0 rest]; [now contradiction Hne |].
    destruct (Hnode d0 (or_introl eq_refl)) as (i & p & Hp).
    apply process_node_text_inv in Hp as (Htitle & _).
    apply (wrap_lines_ok_nonempty _ _ _ (str_or_step_nonempty _ _) Htitle).
  - intros node Hin Hdesc. destruct (Hnode node Hin) as (i & p & Hp).
    apply process_node_text_inv in Hp as (_ & [[Hb _] | (_ & w & Hw & _)]);
      [now contradiction Hdesc |].
    apply (wrap_lines_ok_nonempty _ _ _ Hdesc Hw).
  - intros node Hin Hdesc. destruct (Hnode node Hin) as (i & p & Hp).
    apply process_node_inv in Hp
      as (n_prev & title & body & wrapped & md & ed & _ & _ & _ & Hw & _).
    apply (wrap_lines_ok_nonempty _ _ _ Hdesc Hw).
Qed.

End Widths.

Lemma widths_required_witness :
  exists d,
    plot_cohort_flow_diagram (H0 := Samples.basic_colors)
      (H1 := Samples.whitespace_runs)
      (Samples.white_style Samples.dec_float) Samples.no_kwargs
      [described_node] = Ok d
    /\ 0 < main_title_width (layout (Samples.white_style Samples.dec_float))
    /\ 0 < main_text_width (layout (Samples.white_style Samples.dec_float))
    /\ 0 < exclusion_text_width (layout (Samples.white_style Samples.dec_float)).
Proof.
  assert (Hd : exists d,
             plot_cohort_flow_diagram (H0 := Samples.basic_colors)
               (H1 := Samples.whitespace_runs)
               (Samples.white_style Samples.dec_float) Samples.no_kwargs
               [described_node] = Ok d) by (eexists; vm_compute; reflexivity).
  destruct Hd as (d & Hd). exists d. split; [exact Hd |].
  destruct (widths_required (H0 := Samples.basic_colors)
              (H1 := Samples.whitespace_runs)
              (Samples.white_style Samples.dec_float) Samples.no_kwargs
              [described_node] d Hd) as (Ht & Hb & He).
  split; [exact Ht |]. split.
  - apply (Hb described_node (or_introl eq_refl)). discriminate.
  - apply (He described_node (or_introl eq_refl)). discriminate.
Defined.

(* ===================================================================== *)
(** * Further properties: the drawing step                               *)
(* ===================================================================== *)

Section DrawingShape.
Context {num : Type} `{PyNum num} `{PyNumSub num} `{MplColors} `{WordSep}.

(** The geometry of a computed diagram in closed form. *)
Lemma plot_geometry_inv (cfg : StyleConfig num) (kwargs : Kwargs)
  (data : list CohortNode) (d : Diagram num) :
  plot_cohort_flow_diagram cfg kwargs data = Ok d ->
  exists p0 rest,
    processed_nodes d = p0 :: rest
    /\ List.length (processed_nodes d) = List.length data
    /\ transition_gaps d = map (gap_formula cfg) rest
    /\ centers_y d
       = centers_from cfg
           (top_margin (layout cfg) + main_h p0 / of_int 2)%num p0 rest.
Proof.
  intro Hd.
  apply plot_inv in Hd as (Hne & main_pal & excl_pal & _ & _ & Hps & Hgeo).
  pose proof (process_from_length _ _ _ _ _ _ _ Hps) as Hlen.
  destruct (processed_nodes d) as [| p0 rest] eqn:Eps.
  { destruct data; [now contradiction Hne | discriminate]. }
  destruct (geometry_closed cfg p0 rest) as (c_last & p_last & Hclosed & _).
  rewrite Hclosed in Hgeo. injection Hgeo as Hg Hc _.
  exists p0, rest. auto.
Qed.

(** The artists of one node, when the indexing succeeds. *)
Lemma draw_node_artists (cfg : StyleConfig num) (txt : TextStyle num)
  (lines : LineStyle num) (d : Diagram num) (i : nat) (node : ProcessedNode num) :
  (i < List.length (centers_y d))%nat ->
  (i <= List.length (processed_nodes d))%nat ->
  exists artists,
    draw_node cfg txt lines d i node = Ok artists
    /\ List.length artists
       = (if (0 <? i)%nat then if 0 <? excl_n node then 8%nat else 4%nat
          else 3%nat)
    /\ existsb is_exclusion_text artists
       = ((0 <? i)%nat && (0 <? excl_n node)).
Proof.
  intros Hc Hp. unfold draw_node.
  destruct (nth_error (centers_y d) i) as [c |] eqn:Ec;
    [| apply nth_error_None in Ec; lia].
  rewrite (getitem_nth _ _ _ Ec). cbn [bind].
  destruct (Nat.ltb_spec 0 i) as [Hi | Hi].
  - destruct (nth_error (centers_y d) (i - 1)) as [cp |] eqn:Ecp;
      [| apply nth_error_None in Ecp; lia].
    destruct (nth_error (processed_nodes d) (i - 1)) as [pp |] eqn:Epp;
      [| apply nth_error_None in Epp; lia].
    rewrite (getitem_nth _ _ _ Ecp), (getitem_nth _ _ _ Epp). cbn [bind].
    destruct (0 <? excl_n node); cbn [bind]; eexists;
      (split; [reflexivity | split; reflexivity]).
  - cbn [bind]. eexists. split; [reflexivity | split; reflexivity].
Qed.

Lemma draw_from_artists (cfg : StyleConfig num) (txt : TextStyle num)
  (lines : LineStyle num) (d : Diagram num) :
  List.length (centers_y d) = List.length (processed_nodes d) ->
  forall nodes i,
    skipn i (processed_nodes d) = nodes ->
    exists per_node,
      draw_from cfg txt lines d i nodes = Ok per_node
      /\ List.length per_node = List.length nodes
      /\ forall k p,
           nth_error nodes k = Some p ->
           exists artists,
             nth_error per_node k = Some artists
             /\ draw_node cfg txt lines d (i + k) p = Ok artists.
Proof.
  intro Hlen. induction nodes as [| node nodes IH]; intros i Hskip.
  - exists []. split; [reflexivity |]. split; [reflexivity |].
    intros k p Hk. destruct k; discriminate.
  - apply skipn_cons_nth in Hskip as (Hnode & Hskip).
    assert (Hi : (i < List.length (processed_nodes d))%nat)
      by (apply nth_error_Some; rewrite Hnode; discriminate).
    destruct (draw_node_artists cfg txt lines d i node) as (artists & Ha & _);
      [lia | lia |].
    destruct (IH (S i) Hskip) as (others & Ho & Hl & Hk).
    exists (artists :: others). cbn [draw_from]. rewrite Ha. cbn [bind].
    rewrite Ho. cbn [bind]. split; [reflexivity |].
    split; [cbn [List.length]; now rewrite Hl |].
    intros [| k] p Hp; cbn [nth_error] in *.
    + injection Hp as <-. exists artists. now rewrite Nat.add_0_r.
    + destruct (Hk k p Hp) as (a & Hnth & Hdraw). exists a.
      now rewrite Nat.add_succ_r.
Qed.

(** Drawing a computed diagram never fails on an index.  The first node
    gets its box, its title and its body; every later node gets these and the
    arrow from the box above; a node that lost participants gets, besides,
    the exclusion box, the junction dot, the side arrow and the exclusion
    text.  So the exclusion text of a node is drawn exactly when its
    exclusion count is positive. *)
Theorem draw_returns (cfg : StyleConfig num) (txt : TextStyle num)
  (lines : LineStyle num) (kwargs : Kwargs) (data : list CohortNode)
  (d : Diagram num) :
  plot_cohort_flow_diagram cfg kwargs data = Ok d ->
  exists per_node,
    draw_from cfg txt lines d 0 (processed_nodes d) = Ok per_node
    /\ draw cfg txt lines d = Ok (concat per_node)
    /\ List.length per_node = List.length data
    /\ forall i p,
         nth_error (processed_nodes d) i = Some p ->
         exists artists,
           nth_error per_node i = Some artists
           /\ List.length artists
              = (if 0 <? excl_n p then 8%nat
                 else if (0 <? i)%nat then 4%nat else 3%nat)
           /\ existsb is_exclusion_text artists = (0 <? excl_n p).
Proof.
  intro Hd.
  destruct (plot_geometry_inv cfg kwargs data d Hd)
    as (p0 & rest & Eps & Hlen & _ & Hc).
  assert (Hcl : List.length (centers_y d) = List.length (processed_nodes d))
    by (rewrite Hc, centers_from_length, Eps; reflexivity).
  destruct (draw_from_artists cfg txt lines d Hcl (processed_nodes d) 0 eq_refl)
    as (per_node & Hdraw & Hl & Hk).
  exists per_node. split; [exact Hdraw |].
  split; [unfold draw; rewrite Hdraw; reflexivity |].
  split; [now rewrite Hl |].
  intros i p Hp. destruct (Hk i p Hp) as (artists & Hnth & Hnode).
  cbn [Nat.add] in Hnode. exists artists. split; [exact Hnth |].
  assert (Hi : (i < List.length (processed_nodes d))%nat)
    by (apply nth_error_Some; rewrite Hp; discriminate).
  destruct (draw_node_artists cfg txt lines d i p) as (a & Ha & Hn & He);
    [lia | lia |].
  rewrite Hnode in Ha. injection Ha as <-.
  (* the first node has no exclusions *)
  assert (Hfirst : i = 0%nat -> excl_n p = 0).
  { intros ->. apply plot_inv in Hd as (_ & mp & ep & _ & _ & Hps & _).
    destruct data as [| d0 data']; [rewrite Eps in Hlen; discriminate |].
    destruct (process_from_nth _ _ _ _ _ _ _ _ _ Hps (eq_refl : nth_error (d0 :: data') 0 = Some d0))
      as (p' & Hp' & Hproc).
    rewrite Hp in Hp'. injection Hp' as <-.
    apply process_node_inv in Hproc
      as (n_prev & _ & _ & _ & _ & _ & Hn0 & _ & _ & _ & _ & _ & _ & _ & _
          & Hexcl & _).
    rewrite Hexcl. destruct Hn0 as [[_ ->] | (prev & Hpos & _)]; cbn in *; lia. }
  rewrite Hn, He.
  destruct (Nat.ltb_spec 0 i) as [Hpos | Hz].
  - split; [destruct (0 <? excl_n p); reflexivity | reflexivity].
  - rewrite (Hfirst ltac:(lia)). split; reflexivity.
Qed.

End DrawingShape.

(** The sample cohort in the white style: three artists for the first node,
    eight for each of the two that lost participants. *)
Lemma draw_returns_witness :
  exists d per_node,
    plot_cohort_flow_diagram (H0 := Samples.basic_colors)
      (H1 := Samples.whitespace_runs)
      (Samples.white_style Samples.dec_float) Samples.no_kwargs
      Samples.sample_data = Ok d
    /\ draw_from (Samples.white_style Samples.dec_float)
         (white_text Samples.dec_float) (white_lines Samples.dec_float)
         d 0 (processed_nodes d) = Ok per_node
    /\ List.length per_node = 3%nat.
Proof.
  assert (Hd : exists d,
             plot_cohort_flow_diagram (H0 := Samples.basic_colors)
               (H1 := Samples.whitespace_runs)
               (Samples.white_style Samples.dec_float) Samples.no_kwargs
               Samples.sample_data = Ok d) by (eexists; vm_compute; reflexivity).
  destruct Hd as (d & Hd). exists d.
  destruct (draw_returns (H1 := Samples.basic_colors)
              (H2 := Samples.whitespace_runs)
              (Samples.white_style Samples.dec_float)
              (white_text Samples.dec_float) (white_lines Samples.dec_float)
              Samples.no_kwargs Samples.sample_data d Hd)
    as (per_node & Hdraw & _ & Hlen & _).
  exists per_node. auto.
Defined.

(** ** The centres and the axis limits *)

(** Every centre lies between the first one and the last one. *)
Lemma centers_from_bounds (cfg : StyleConfig float)
  (rest : list (ProcessedNode float)) :
  forall (p : ProcessedNode float) (c c_last y : float),
    fnonneg (base_gap (layout cfg)) ->
    Forall (fun node => fnonneg (main_h node)) (p :: rest) ->
    fnonneg c ->
    nth_error (centers_from cfg c p rest) (List.length rest) = Some c_last ->
    In y (centers_from cfg c p rest) ->
    (c <=? y)%float = true /\ (y <=? c_last)%float = true /\ fnonneg y.
Proof.
  induction rest as [| q rest IH]; intros p c c_last y Hb Hall Hc Hlast Hy.
  - cbn in Hlast, Hy. injection Hlast as <-. destruct Hy as [<- | []].
    assert (Hrefl : (c <=? c)%float = true)
      by (rewrite leb_spec; now apply SFleb_refl).
    auto.
  - cbn [centers_from List.length nth_error] in Hlast, Hy.
    inversion Hall as [| ? ? Hp Hrest]; subst.
    pose proof Hrest as Hq. apply Forall_inv in Hq.
    destruct (center_after_float cfg c p q Hc Hp Hq Hb) as (Hn' & Hcc' & _).
    assert (Hhead : In (center_after cfg c p q)
                       (centers_from cfg (center_after cfg c p q) q rest))
      by (destruct rest; left; reflexivity).
    destruct (IH q _ c_last _ Hb Hrest Hn' Hlast Hhead) as (_ & Hc'last & _).
    destruct Hy as [<- | Hy].
    + split; [rewrite leb_spec; now apply SFleb_refl |].
      split; [eapply fleb_trans; eassumption | exact Hc].
    + destruct (IH q _ c_last y Hb Hrest Hn' Hlast Hy) as (Hc'y & Hylast & Hyn).
      split; [eapply fleb_trans; eassumption | auto].
Qed.

Section FloatAxes.
Context `{MplColors} `{WordSep}.

(** In binary64, under the positivity assumptions and with a bottom margin
    that is not negative, every centre of a computed diagram lies within the
    vertical axis limits set after the drawing loop, [(total_height, 0)]:
    it is at least the top margin, which is positive, and at most the total
    height. *)
Theorem centres_inside_axes (cfg : StyleConfig float) (kwargs : Kwargs)
  (data : list CohortNode) (d : Diagram float) (y : float) :
  plot_cohort_flow_diagram cfg kwargs data = Ok d ->
  positive_style cfg = true ->
  (0 <=? bottom_margin (layout cfg))%float = true ->
  In y (centers_y d) ->
  snd (axis_limits cfg d) = (total_height d, 0%float)
  /\ (0 <? top_margin (layout cfg))%float = true
  /\ (top_margin (layout cfg) <=? y)%float = true
  /\ (y <=? total_height d)%float = true.
Proof.
  intros Hd Hpos Hbottom Hy.
  destruct (plot_float_layout cfg kwargs data d Hd Hpos)
    as (p & rest & c_last & p_last & _ & Hcenters & Htotal & Hlast & Hplast
        & Htop & Hgap & Hheights & Hfirst).
  rewrite Hcenters in Hy, Hlast.
  destruct (centers_from_bounds cfg rest p _ c_last y Hgap Hheights Hfirst
              Hlast Hy) as (Hlow & Hhigh & Hyn).
  split; [unfold axis_limits; cbn [snd]; now rewrite float_zero |].
  split.
  { unfold positive_style in Hpos.
    repeat (apply andb_true_iff in Hpos as [Hpos ?]).
    unfold is_positive in Hpos. rewrite float_zero in Hpos. exact Hpos. }
  split.
  { eapply fleb_trans; [exact Htop | | exact Hlow].
    cbn [add div float_num]. apply fadd_nonneg; [exact Htop |].
    apply fhalf_nonneg. now inversion Hheights. }
  rewrite Htotal. cbn [add div float_num].
  assert (Hcl : fnonneg c_last).
  { eapply (centers_from_bounds cfg rest p _ c_last c_last Hgap Hheights Hfirst
              Hlast). eapply nth_error_In. exact Hlast. }
  assert (Hpl : fnonneg (main_h p_last)).
  { rewrite Forall_forall in Hheights. apply Hheights.
    eapply nth_error_In. exact Hplast. }
  destruct (fadd_nonneg c_last _ Hcl (fhalf_nonneg _ Hpl)) as (L1 & N1).
  assert (Hbn : fnonneg (bottom_margin (layout cfg))).
  { unfold fnonneg. rewrite leb_spec in Hbottom.
    now apply SFleb_zero. }
  destruct (fadd_nonneg _ (bottom_margin (layout cfg)) N1 Hbn) as (L2 & _).
  eapply fleb_trans; [exact Hyn | exact Hhigh |].
  eapply fleb_trans; [exact Hcl | exact L1 | exact L2].
Qed.

End FloatAxes.

(** The sample cohort under the white style: the three centres lie between
    the top margin and the total height. *)
Lemma centres_inside_axes_witness :
  exists d,
    plot_cohort_flow_diagram (H0 := Samples.basic_colors)
      (H1 := Samples.whitespace_runs)
      (Samples.white_style Samples.dec_float) Samples.no_kwargs
      Samples.sample_data = Ok d
    /\ forall y, In y (centers_y d) ->
         (top_margin (layout (Samples.white_style Samples.dec_float)) <=? y)%float
         = true
         /\ (y <=? total_height d)%float = true.
Proof.
  assert (Hd : exists d,
             plot_cohort_flow_diagram (H0 := Samples.basic_colors)
               (H1 := Samples.whitespace_runs)
               (Samples.white_style Samples.dec_float) Samples.no_kwargs
               Samples.sample_data = Ok d) by (eexists; vm_compute; reflexivity).
  destruct Hd as (d & Hd). exists d. split; [exact Hd |].
  intros y Hy.
  destruct (centres_inside_axes (H := Samples.basic_colors)
              (H0 := Samples.whitespace_runs)
              (Samples.white_style Samples.dec_float) Samples.no_kwargs
              Samples.sample_data d y Hd) as (_ & _ & Hlow & Hhigh);
    [vm_compute; reflexivity | vm_compute; reflexivity | exact Hy |].
  split; [exact Hlow | exact Hhigh].
Defined.


(* ===================================================================== *)
(** * Further properties: colour errors                                  *)
(* ===================================================================== *)

Section ColourErrors.
Context {num : Type} `{PyNum num} `{MplColors} `{WordSep}.

(** The call raises what the first failing node raises. *)
Lemma plot_raises_at (cfg : StyleConfig num) (kwargs : Kwargs)
  (before after : list CohortNode) (node : CohortNode)
  (main_pal excl_pal : list string) (ps : list (ProcessedNode num)) (e : exn) :
  let data := (before ++ node :: after)%list in
  choose_palette (main_palette kwargs) (main_start (colors cfg))
    (main_end (colors cfg)) (Z.of_nat (List.length data)) = Ok main_pal ->
  choose_palette (exclusion_palette kwargs) (exclusion_start (colors cfg))
    (exclusion_end (colors cfg)) (Z.of_nat (List.length data)) = Ok excl_pal ->
  process_from cfg main_pal excl_pal data 0 before = Ok ps ->
  process_node cfg main_pal excl_pal data (List.length before) node = Raise e ->
  plot_cohort_flow_diagram cfg kwargs data = Raise e.
Proof.
  intros data Hmain Hexcl Hbefore Hnode. unfold plot_cohort_flow_diagram.
  assert (Hps : process_from cfg main_pal excl_pal data 0 data = Raise e)
    by (apply (process_from_raises cfg main_pal excl_pal data before after node
                 0 ps e Hbefore Hnode)).
  destruct data as [| d0 rest] eqn:Edata.
  { subst data. destruct before; discriminate Edata. }
  rewrite Hmain, Hexcl. cbn [bind]. rewrite Hps. reflexivity.
Qed.

(** A colour that is refused makes the call raise the [ValueError] of
    [resolve_color] for the first node concerned, once the node's count, its
    texts and the palette entries at its index are in order: the policy
    error when named colours are disallowed and the chosen value does not
    start with [#], the invalid-colour error when Matplotlib cannot parse
    it.  The chosen value is the node's [color], else its [color_name], else
    the palette entry. *)
Theorem node_colour_error (cfg : StyleConfig num) (kwargs : Kwargs)
  (before after : list CohortNode) (node : CohortNode)
  (main_pal excl_pal : list string) (ps : list (ProcessedNode num))
  (m e : string) :
  let data := (before ++ node :: after)%list in
  let i := List.length before in
  let chosen := get (color node) (get (color_name node) m) in
  choose_palette (main_palette kwargs) (main_start (colors cfg))
    (main_end (colors cfg)) (Z.of_nat (List.length data)) = Ok main_pal ->
  choose_palette (exclusion_palette kwargs) (exclusion_start (colors cfg))
    (exclusion_end (colors cfg)) (Z.of_nat (List.length data)) = Ok excl_pal ->
  process_from cfg main_pal excl_pal data 0 before = Ok ps ->
  (forall prev, nth_error data (i - 1) = Some prev -> (0 < i)%nat ->
                N node <= N prev) ->
  0 < main_title_width (layout cfg) ->
  0 < main_text_width (layout cfg) ->
  0 < exclusion_text_width (layout cfg) ->
  nth_error main_pal i = Some m ->
  nth_error excl_pal i = Some e ->
  (allow_named_colors (colors cfg) = false ->
   startswith chosen "#" = false ->
   plot_cohort_flow_diagram cfg kwargs data
   = Raise (ValueError (policy_message chosen)))
  /\ (allow_named_colors (colors cfg) = true \/ startswith chosen "#" = true ->
      to_hex chosen = None ->
      plot_cohort_flow_diagram cfg kwargs data
      = Raise (ValueError (invalid_color_message chosen))).
Proof.
  intros data i chosen Hmain Hexcl Hbefore Hsorted Hw1 Hw2 Hw3 Hm He.
  assert (Hnode : nth_error data i = Some node)
    by (subst data i; rewrite nth_error_app2, Nat.sub_diag; [reflexivity | lia]).
  assert (Hreach : forall err,
             resolve_color (Some chosen) m (allow_named_colors (colors cfg))
             = Raise err ->
             process_node cfg main_pal excl_pal data i node = Raise err).
  { intros err Herr. unfold process_node.
    assert (Hprev : exists n_prev,
               (if (0 <? i)%nat then prev <- getitem data (i - 1) ;; Ok (N prev)
                else Ok (N node)) = Ok n_prev /\ N node <= n_prev).
    { destruct (Nat.ltb_spec 0 i) as [Hi | Hi].
      - destruct (nth_error data (i - 1)) as [prev |] eqn:Hp.
        + exists (N prev). rewrite (getitem_nth _ _ _ Hp). cbn [bind].
          split; [reflexivity | now apply Hsorted].
        + apply nth_error_None in Hp.
          assert (i < List.length data)%nat
            by (apply nth_error_Some; rewrite Hnode; discriminate).
          lia.
      - exists (N node). split; [reflexivity | lia]. }
    destruct Hprev as (n_prev & -> & Hle). cbn [bind].
    destruct (Z.ltb_spec (n_prev - N node) 0) as [Hneg | _]; [lia |].
    destruct (wrap_lines_returns
                (str_or (strip (get (heading node) ""))
                        ("Step " ++ str_of_int (Z.of_nat i + 1)))
                _ Hw1) as (title & -> & _).
    cbn [bind].
    assert (Hbody : exists body,
               (if String.eqb (strip (get (description node) "")) ""
                then Ok [count_line (N node)]
                else wrapped <- wrap_lines (strip (get (description node) ""))
                                  (main_text_width (layout cfg)) ;;
                     Ok (([count_line (N node)] ++ [""]) ++ wrapped)%list)
               = Ok body).
    { destruct (String.eqb (strip (get (description node) "")) "");
        [eexists; reflexivity |].
      destruct (wrap_lines_returns (strip (get (description node) "")) _ Hw2)
        as (wrapped & -> & _).
      eexists. reflexivity. }
    destruct Hbody as (body & ->). cbn [bind].
    destruct (wrap_lines_returns
                (strip (get (exclusion_description node) "Excluded")) _ Hw3)
      as (wrapped & -> & _).
    cbn [bind].
    rewrite (getitem_nth _ _ _ Hm), (getitem_nth _ _ _ He). cbn [bind].
    fold chosen. rewrite Herr. reflexivity. }
  split.
  - intros Hallow Hhash.
    apply (plot_raises_at cfg kwargs before after node main_pal excl_pal ps _
             Hmain Hexcl Hbefore).
    apply Hreach. unfold resolve_color. rewrite Hallow, Hhash. reflexivity.
  - intros Hpol Hhex.
    apply (plot_raises_at cfg kwargs before after node main_pal excl_pal ps _
             Hmain Hexcl Hbefore).
    apply Hreach. unfold resolve_color. rewrite Hhex.
    destruct Hpol as [-> | ->]; [reflexivity |].
    destruct (allow_named_colors (colors cfg)); reflexivity.
Qed.

End ColourErrors.

(** The second node of three asks for the colour [rde]. *)
Lemma node_colour_error_witness :
  plot_cohort_flow_diagram (H0 := Samples.basic_colors)
    (H1 := Samples.whitespace_runs)
    (Samples.white_style Samples.dec_float) Samples.no_kwargs
    [Samples.node 100 (Some "Registered") None; miscoloured_node;
     Samples.node 60 (Some "Analysed") None]
  = Raise (ValueError (invalid_color_message "rde")).
Proof.
  assert (Hps : exists ps,
             process_from (H0 := Samples.basic_colors)
               (H1 := Samples.whitespace_runs)
               (Samples.white_style Samples.dec_float)
               ["#ffffff"; "#ffffff"; "#ffffff"] ["#ffffff"; "#ffffff"; "#ffffff"]
               [Samples.node 100 (Some "Registered") None; miscoloured_node;
                Samples.node 60 (Some "Analysed") None] 0
               [Samples.node 100 (Some "Registered") None] = Ok ps)
    by (eexists; vm_compute; reflexivity).
  destruct Hps as (ps & Hps).
  apply (node_colour_error (H0 := Samples.basic_colors)
           (H1 := Samples.whitespace_runs)
           (Samples.white_style Samples.dec_float) Samples.no_kwargs
           [Samples.node 100 (Some "Registered") None]
           [Samples.node 60 (Some "Analysed") None] miscoloured_node
           ["#ffffff"; "#ffffff"; "#ffffff"] ["#ffffff"; "#ffffff"; "#ffffff"]
           ps "#ffffff" "#ffffff").
  - vm_compute. reflexivity.
  - vm_compute. reflexivity.
  - exact Hps.
  - intros prev Hprev _. cbn in Hprev. injection Hprev as <-. cbn. lia.
  - cbn. lia.
  - cbn. lia.
  - cbn. lia.
  - reflexivity.
  - reflexivity.
  - left. reflexivity.
  - reflexivity.
Defined.
(* ===================================================================== *)
(** * Further properties: saving the figure                              *)
(* ===================================================================== *)

Lemma lstrip_char_no_prefix (ch : ascii) (s : string) :
  match lstrip_char ch s with
  | String c _ => c <> ch
  | EmptyString => True
  end.
Proof.
  induction s as [| c s IH]; [exact I |].
  cbn [lstrip_char]. destruct (Ascii.eqb_spec c ch) as [-> | Hne];
    [exact IH | exact Hne].
Qed.

(** The loop performs the calls of its formats in order and stops at the
    first that raises. *)
Lemma save_loop_spec (world : World) (output_dir img_name : string)
  (fmts : list string) :
  forall done,
  exists performed tail r k,
    save_loop world output_dir img_name done fmts
    = ((done ++ performed)%list, r)
    /\ flat_map (fun fmt =>
                   [Savefig output_dir (img_name ++ "." ++ lstrip_char "." fmt);
                    PrintSaved output_dir
                      (img_name ++ "." ++ lstrip_char "." fmt)]) fmts
       = (performed ++ tail)%list
    /\ (forall pre call post, performed = (pre ++ call :: post)%list ->
                              world (done ++ pre)%list call = None)
    /\ match tail with
       | [] => r = Ok tt
       | call :: _ =>
           exists e, world (done ++ performed)%list call = Some e
                     /\ r = Raise e
       end
    /\ saved_files performed
       = map (fun fmt => img_name ++ "." ++ lstrip_char "." fmt) (firstn k fmts)
    /\ (r = Ok tt -> k = List.length fmts).
Proof.
  induction fmts as [| fmt fmts IH]; intro done; cbn [save_loop flat_map].
  - exists [], [], (Ok tt), 0%nat. rewrite app_nil_r.
    repeat split. intros [| ? ?] ? ? E; discriminate E.
  - set (file_name := img_name ++ "." ++ lstrip_char "." fmt).
    destruct (world done (Savefig output_dir file_name)) as [e |] eqn:Esave.
    { exists [], (Savefig output_dir file_name
                  :: PrintSaved output_dir file_name
                  :: flat_map (fun fmt0 =>
                       [Savefig output_dir
                          (img_name ++ "." ++ lstrip_char "." fmt0);
                        PrintSaved output_dir
                          (img_name ++ "." ++ lstrip_char "." fmt0)]) fmts),
        (Raise e), 0%nat.
      rewrite app_nil_r. repeat split.
      - intros [| ? ?] ? ? E; discriminate E.
      - exists e. split; [exact Esave | reflexivity].
      - discriminate. }
    destruct (world (done ++ [Savefig output_dir file_name])%list
                (PrintSaved output_dir file_name)) as [e |] eqn:Eprint.
    { exists [Savefig output_dir file_name],
        (PrintSaved output_dir file_name
         :: flat_map (fun fmt0 =>
              [Savefig output_dir (img_name ++ "." ++ lstrip_char "." fmt0);
               PrintSaved output_dir
                 (img_name ++ "." ++ lstrip_char "." fmt0)]) fmts),
        (Raise e), 1%nat.
      repeat split.
      - intros [| c0 [| ? ?]] call post E; try discriminate E.
        injection E as <- _. rewrite app_nil_r. exact Esave.
      - exists e. split; [exact Eprint | reflexivity].
      - discriminate. }
    destruct (IH ((done ++ [Savefig output_dir file_name])
                  ++ [PrintSaved output_dir file_name])%list)
      as (performed & tail & r & k & Hrun & Hcalls & Hret & Htail & Hfiles
          & Hall).
    exists (Savefig output_dir file_name
            :: PrintSaved output_dir file_name :: performed), tail, r, (S k).
    split.
    { rewrite Hrun, <- !app_assoc. reflexivity. }
    split.
    { cbn [app]. rewrite Hcalls. reflexivity. }
    split.
    { intros pre call post E. destruct pre as [| c0 pre].
      - injection E as <- _. rewrite app_nil_r. exact Esave.
      - injection E as <- E. destruct pre as [| c1 pre].
        + injection E as <- _. exact Eprint.
        + injection E as <- E. specialize (Hret pre call post E).
          rewrite <- !app_assoc in Hret. exact Hret. }
    split.
    { destruct tail as [| call tail']; [exact Htail |].
      destruct Htail as (e & He & Hr). exists e. split; [| exact Hr].
      rewrite <- !app_assoc in He. exact He. }
    split.
    { cbn [saved_files flat_map app firstn map]. f_equal. exact Hfiles. }
    intro Hr. cbn [List.length]. f_equal. exact (Hall Hr).
Qed.

Lemma save_loop_dots (world : World) (output_dir img_name : string)
  (fmts : list string) (done : list SaveEffect) :
  save_loop world output_dir img_name done (map (String ".") fmts)
  = save_loop world output_dir img_name done fmts.
Proof.
  revert done. induction fmts as [| fmt fmts IH]; intro done; [reflexivity |].
  cbn [map save_loop lstrip_char Ascii.eqb Bool.eqb].
  destruct (world done _); [reflexivity |].
  destruct (world _ _); [reflexivity |]. apply IH.
Qed.

(** [save_figure] with an empty image name does nothing.  Otherwise it
    performs, in order, the calls of a run in which nothing raises (create
    the directory, then per format write the file and print a line) up to
    the first call that raises, whose exception it propagates: the files
    written are those of the first [k] formats, all of them when the
    function returns, and a format after one that [savefig] refuses is never
    written.  Leading dots of a format are dropped, so [png] and [.png] name
    the same file and no extension starts with a dot; a single format string
    behaves as the one-element list. *)
Theorem save_figure_files (world : World) (save_dir : option string)
  (img_name : string) (fmts : list string) :
  save_figure world save_dir "" (ManyFormats fmts) = ([], Ok tt)
  /\ (img_name <> "" ->
      exists done tail r k,
        save_figure world save_dir img_name (ManyFormats fmts) = (done, r)
        /\ planned_calls save_dir img_name fmts = (done ++ tail)%list
        /\ (forall pre call post, done = (pre ++ call :: post)%list ->
                                  world pre call = None)
        /\ match tail with
           | [] => r = Ok tt
           | call :: _ => exists e, world done call = Some e /\ r = Raise e
           end
        /\ saved_files done
           = map (fun fmt => img_name ++ "." ++ lstrip_char "." fmt)
                 (firstn k fmts)
        /\ (r = Ok tt -> k = List.length fmts)
        /\ Forall (fun fmt =>
                     startswith (lstrip_char "." fmt) "." = false) fmts
        /\ save_figure world save_dir img_name
             (ManyFormats (map (String ".") fmts))
           = save_figure world save_dir img_name (ManyFormats fmts)
        /\ forall fmt, save_figure world save_dir img_name (OneFormat fmt)
                       = save_figure world save_dir img_name
                           (ManyFormats [fmt])).
Proof.
  split; [reflexivity |]. intro Hne. unfold save_figure, planned_calls.
  apply String.eqb_neq in Hne. rewrite Hne.
  set (output_dir := match save_dir with Some dir => dir | None => "." end).
  assert (Hdots : Forall (fun fmt =>
                            startswith (lstrip_char "." fmt) "." = false) fmts).
  { apply Forall_forall. intros fmt _.
    pose proof (lstrip_char_no_prefix "." fmt) as Hp.
    destruct (lstrip_char "." fmt) as [| c s]; [reflexivity |].
    unfold startswith. cbn [prefix].
    destruct (ascii_dec "." c) as [<- | _]; [now contradiction Hp | reflexivity]. }
  destruct (world [] (Mkdir output_dir)) as [e |] eqn:Emk.
  - exists [], (Mkdir output_dir
                :: flat_map (fun fmt =>
                     [Savefig output_dir
                        (img_name ++ "." ++ lstrip_char "." fmt);
                      PrintSaved output_dir
                        (img_name ++ "." ++ lstrip_char "." fmt)]) fmts),
      (Raise e), 0%nat.
    repeat split; try assumption.
    + intros [| ? ?] ? ? E; discriminate E.
    + exists e. split; [exact Emk | reflexivity].
    + discriminate.
  - destruct (save_loop_spec world output_dir img_name fmts [Mkdir output_dir])
      as (performed & tail & r & k & Hrun & Hcalls & Hret & Htail & Hfiles
          & Hall).
    exists (Mkdir output_dir :: performed), tail, r, k.
    split; [exact Hrun |].
    split; [cbn [app]; rewrite Hcalls; reflexivity |].
    split.
    { intros pre call post E. destruct pre as [| c0 pre].
      - injection E as <- _. exact Emk.
      - injection E as <- E. exact (Hret pre call post E). }
    split; [exact Htail |].
    split; [exact Hfiles |].
    split; [exact Hall |].
    split; [exact Hdots |].
    split; [apply save_loop_dots | reflexivity].
Qed.

(** Saving as [xyz] and [png] where Matplotlib refuses [xyz]: the directory
    is created, the exception of [savefig] is raised and no file is
    written, not even the [png]. *)
Lemma save_figure_files_witness :
  exists done tail r k,
    save_figure picky_world (Some "output") "my_chart"
      (ManyFormats ["xyz"; ".png"]) = (done, r)
    /\ planned_calls (Some "output") "my_chart" ["xyz"; ".png"]
       = (done ++ tail)%list
    /\ saved_files done
       = map (fun fmt => "my_chart" ++ "." ++ lstrip_char "." fmt)
             (firstn k ["xyz"; ".png"])
    /\ done = [Mkdir "output"]
    /\ r = Raise (ValueError "Format 'xyz' is not supported").
Proof.
  destruct (save_figure_files picky_world (Some "output") "my_chart"
              ["xyz"; ".png"]) as (_ & Hfiles).
  destruct (Hfiles ltac:(discriminate))
    as (done & tail & r & k & Hs & Hp & _ & _ & Hf & _).
  exists done, tail, r, k.
  split; [exact Hs |]. split; [exact Hp |]. split; [exact Hf |].
  vm_compute in Hs. injection Hs as <- <-. split; reflexivity.
Defined.

(** Where every call returns, both files of the docstring's example are
    written. *)
Lemma save_figure_example :
  save_figure obliging_world (Some "output") "my_chart"
    (ManyFormats ["png"; "svg"])
  = ([Mkdir "output";
      Savefig "output" "my_chart.png"; PrintSaved "output" "my_chart.png";
      Savefig "output" "my_chart.svg"; PrintSaved "output" "my_chart.svg"],
     Ok tt).
Proof. reflexivity. Qed.

